(** * RealTimeFeedService (src/assets/js/real-time-feed.js)

    A shallow embedding of the real-time feed hub: the subscriber table
    ([subscribe], [unsubscribe], [notifySubscribers]), the message pipeline
    ([handleMessage] and the four feed handlers), the per-feed buffer
    ([addToBuffer], [cleanBuffer], [getBuffer]) and the connection life
    cycle ([connectFeed], [attemptReconnect], [checkConnectionHealth],
    [getFeedStats]).

    Conventions.
    - JavaScript [Map]s that are only read and written by key are [gmap]s;
      [this.feeds], which the service iterates, is an insertion-ordered
      association list.
    - A JavaScript [Set] is its ECMAScript [[SetData]] list: [add] appends,
      [delete] leaves a hole, [forEach] walks the live list by index.
    - [Date.now()] is an argument of the operation that reads it.
    - Everything the service does to the outside world (frames sent on a
      socket, console lines, subscriber callbacks invoked) is returned as a
      list of [effect]s, in program order.
    - JSON numbers are restricted to integers.
    - A lookup [obj[name]] on an object literal ([this.handlers], the
      [subscriptions] of [subscribeToDefaultChannels]) finds the properties
      of [Object.prototype] for the names the literal does not define. *)

From stdpp Require Import gmap strings list fin_maps pretty sorting.

Set Warnings "-register-all".
Open Scope string_scope.
Open Scope list_scope.
Open Scope nat_scope.

(** ** JavaScript values *)

Module JS.

Inductive json :=
| JNull
| JBool (b : bool)
| JNum (n : Z)
| JStr (s : string)
| JArr (items : list json)
| JObj (fields : list (string * json)).

(** Thrown values, by origin. *)
Inductive exn :=
| SyntaxError                    (* JSON.parse on malformed text *)
| TypeError                      (* property read on null, call of a value
                                    that cannot be called so, object without
                                    a primitive value *)
| CallbackError                  (* thrown by the body of a subscriber *)
| ExternalError (who : string).  (* thrown inside a window/document call *)

(** Property lookup in an object literal: the first binding of the key. *)
Fixpoint assoc {A} (k : string) (l : list (string * A)) : option A :=
  match l with
  | [] => None
  | (k', v) :: l' => if String.eqb k k' then Some v else assoc k l'
  end.

(** [obj[k] = v]: overwrite in place, or append a new property. *)
Fixpoint assoc_set {A} (k : string) (v : A) (l : list (string * A))
  : list (string * A) :=
  match l with
  | [] => [(k, v)]
  | (k', v') :: l' =>
      if String.eqb k k' then (k, v) :: l' else (k', v') :: assoc_set k v l'
  end.

(** [v.k] for the keys the service reads ("type", "channel", "timestamp"),
    none of which is a property of a string, an array, a number or a
    boolean.  [None] is [undefined]; reading a property of [null] throws. *)
Definition get_prop (v : json) (k : string) : exn + option json :=
  match v with
  | JNull => inl TypeError
  | JObj fields => inr (assoc k fields)
  | _ => inr None
  end.

(** [v?.k] on a possibly-null reference. *)
Definition get_prop_opt (v : option json) (k : string) : option json :=
  match v with
  | Some (JObj fields) => assoc k fields
  | _ => None
  end.

(** ToBoolean. *)
Definition truthy (v : option json) : bool :=
  match v with
  | None | Some JNull | Some (JBool false) => false
  | Some (JNum n) => negb (n =? 0)%Z
  | Some (JStr s) => negb (String.eqb s EmptyString)
  | _ => true
  end.

(** Number::toString on an integer.  Up to 2^53 in absolute value every
    integer is a double and prints as its decimal digits; how a larger
    double prints (rounded digits, exponent notation from 10^21 on) is left
    to [big]. *)
Definition Number_toString (big : Z -> string) (n : Z) : string :=
  if (Z.abs n <=? 2 ^ 53)%Z then pretty n else big n.

(** ToString, as used by a template literal.  An array prints as its
    elements joined by commas, [null] elements as the empty string.  An
    object prints through [Object.prototype.toString]; when it has an own
    property [toString] (which in a JSON value is never a function) it has
    no primitive value and the conversion throws. *)
Fixpoint ToString (big : Z -> string) (v : json) : exn + string :=
  match v with
  | JNull => inr "null"
  | JBool true => inr "true"
  | JBool false => inr "false"
  | JNum n => inr (Number_toString big n)
  | JStr s => inr s
  | JArr items =>
      (fix join (l : list json) : exn + string :=
         match l with
         | [] => inr EmptyString
         | x :: l' =>
             match
               match x with JNull => inr EmptyString | _ => ToString big x end
             with
             | inl e => inl e
             | inr sx =>
                 match l' with
                 | [] => inr sx
                 | _ :: _ =>
                     match join l' with
                     | inl e => inl e
                     | inr rest => inr (sx +:+ "," +:+ rest)
                     end
                 end
             end
         end) items
  | JObj fields =>
      match assoc "toString" fields with
      | Some _ => inl TypeError
      | None => inr "[object Object]"
      end
  end.

(** ToNumber; [inr None] is NaN.  The numeric reading of a string is left
    to [str2num]; an array or object is read through its string. *)
Definition ToNumber (big : Z -> string) (str2num : string -> option Z)
    (v : option json) : exn + option Z :=
  match v with
  | None => inr None
  | Some JNull => inr (Some 0%Z)
  | Some (JBool b) => inr (Some (if b then 1 else 0)%Z)
  | Some (JNum n) => inr (Some n)
  | Some (JStr s) => inr (str2num s)
  | Some (JArr items) =>
      match ToString big (JArr items) with
      | inl e => inl e
      | inr str => inr (str2num str)
      end
  | Some (JObj fields) =>
      match ToString big (JObj fields) with
      | inl e => inl e
      | inr str => inr (str2num str)
      end
  end.

(** The properties of [Object.prototype], which a lookup on an object
    literal finds for the names the literal does not define. *)
Definition Object_prototype : list string :=
  ["constructor"; "__defineGetter__"; "__defineSetter__"; "hasOwnProperty";
   "__lookupGetter__"; "__lookupSetter__"; "isPrototypeOf";
   "propertyIsEnumerable"; "toString"; "valueOf"; "__proto__";
   "toLocaleString"].

Definition inherited (k : string) : bool :=
  bool_decide (k ∈ Object_prototype).

(** Own enumerable properties copied by [{...v}]. *)
Definition spread (v : json) : list (string * json) :=
  match v with
  | JObj fields => fields
  | JArr items => imap (fun i x => (pretty i, x)) items
  | JStr s =>
      imap (fun i c => (pretty i, JStr (String c EmptyString))) (String.list_ascii_of_string s)
  | _ => []
  end.

(** [Array.prototype.slice(start)] with one argument. *)
Definition slice_from {A} (start : Z) (l : list A) : list A :=
  let len := Z.of_nat (length l) in
  let k := (if start <? 0 then Z.max (len + start) 0 else Z.min start len)%Z in
  drop (Z.to_nat k) l.

(** ** Set.prototype, on [[SetData]] *)

Abbreviation SetData := (list (option nat)).

Definition set_has (x : nat) (d : SetData) : bool :=
  bool_decide (Some x ∈ d).

Definition set_add (x : nat) (d : SetData) : SetData :=
  if set_has x d then d else d ++ [Some x].

Definition set_delete (x : nat) (d : SetData) : SetData :=
  (fun e => if decide (e = Some x) then None else e) <$> d.

(** The members, in insertion order. *)
Definition set_values (d : SetData) : list nat := omap id d.

Definition set_size (d : SetData) : nat := length (set_values d).

End JS.
Import JS.

(** ** The service state *)

Inductive ReadyState := CONNECTING | OPEN | CLOSING | CLOSED.

#[global] Instance ReadyState_eq_dec : EqDecision ReadyState.
Proof. solve_decision. Defined.

(** One element of [feedConfigs]. *)
Record FeedConfig := {
  name : string;
  url : string;
  reconnectInterval : Z;
  maxReconnectAttempts : nat
}.

(** A [WebSocket] object.  Its four event handlers close over the config
    that [connectFeed] was called with. *)
Record WebSocket := {
  ws_config : FeedConfig;
  readyState : ReadyState
}.

(** A value of [this.feeds]; [websocket] is the index of the socket in
    [sockets]. *)
Record Feed := {
  websocket : nat;
  config : FeedConfig;
  status : string;
  lastMessage : json;
  messageCount : nat
}.

(** A buffered message: the object [{...message, timestamp}]. *)
Abbreviation entry := (list (string * json)).

Record Service := {
  feeds : list (string * Feed);
  subscribers : gmap string SetData;
  buffer : gmap string (list entry);
  connections : gmap string nat;
  reconnectAttempts : gmap string nat;
  sockets : list WebSocket;              (* every socket ever constructed *)
  timers : list (Z * FeedConfig)         (* pending setTimeout reconnects *)
}.

Definition with_feeds (f : list (string * Feed)) (s : Service) : Service :=
  {| feeds := f; subscribers := subscribers s; buffer := buffer s;
     connections := connections s; reconnectAttempts := reconnectAttempts s;
     sockets := sockets s; timers := timers s |}.

Definition with_subscribers (m : gmap string SetData) (s : Service) : Service :=
  {| feeds := feeds s; subscribers := m; buffer := buffer s;
     connections := connections s; reconnectAttempts := reconnectAttempts s;
     sockets := sockets s; timers := timers s |}.

Definition with_buffer (b : gmap string (list entry)) (s : Service) : Service :=
  {| feeds := feeds s; subscribers := subscribers s; buffer := b;
     connections := connections s; reconnectAttempts := reconnectAttempts s;
     sockets := sockets s; timers := timers s |}.

Definition with_connections (c : gmap string nat) (s : Service) : Service :=
  {| feeds := feeds s; subscribers := subscribers s; buffer := buffer s;
     connections := c; reconnectAttempts := reconnectAttempts s;
     sockets := sockets s; timers := timers s |}.

Definition with_reconnectAttempts (r : gmap string nat) (s : Service) : Service :=
  {| feeds := feeds s; subscribers := subscribers s; buffer := buffer s;
     connections := connections s; reconnectAttempts := r;
     sockets := sockets s; timers := timers s |}.

Definition with_sockets (w : list WebSocket) (s : Service) : Service :=
  {| feeds := feeds s; subscribers := subscribers s; buffer := buffer s;
     connections := connections s; reconnectAttempts := reconnectAttempts s;
     sockets := w; timers := timers s |}.

Definition with_timers (t : list (Z * FeedConfig)) (s : Service) : Service :=
  {| feeds := feeds s; subscribers := subscribers s; buffer := buffer s;
     connections := connections s; reconnectAttempts := reconnectAttempts s;
     sockets := sockets s; timers := t |}.

(** The state the constructor leaves behind. *)
Definition new_service : Service :=
  {| feeds := []; subscribers := ∅; buffer := ∅; connections := ∅;
     reconnectAttempts := ∅; sockets := []; timers := [] |}.

(** ** Observable effects *)

Inductive frame :=
| FSubscribe (channel : string)      (* {action: 'subscribe', channel} *)
| FUnsubscribe (channel : string)    (* {action: 'unsubscribe', channel} *)
| FHeartbeat (timestamp : Z).        (* {type: 'heartbeat', timestamp} *)

Inductive level := Log | Warn | Error.

Inductive effect :=
| Send (ws : nat) (f : frame)            (* ws.send(JSON.stringify(f)) *)
| Console (l : level) (about : string)   (* console.log / warn / error *)
| Invoke (callback : nat) (message : json)
| SetTimeout (delay : Z) (reconnect : FeedConfig).

#[global] Instance frame_eq_dec : EqDecision frame.
Proof. solve_decision. Defined.

#[global] Instance FeedConfig_eq_dec : EqDecision FeedConfig.
Proof. solve_decision. Defined.

(** ** A state, exception and output monad *)

Inductive Outcome (A : Type) :=
| Ret (a : A)
| Throw (e : exn)
| OutOfFuel.                (* the model ran out of fuel; not catchable *)
Arguments Ret {A} a.
Arguments Throw {A} e.
Arguments OutOfFuel {A}.

Definition M (A : Type) : Type := Service -> Outcome A * Service * list effect.

Definition ret {A} (a : A) : M A := fun s => (Ret a, s, []).
Definition throw {A} (e : exn) : M A := fun s => (Throw e, s, []).
Definition emit (e : effect) : M unit := fun s => (Ret tt, s, [e]).
Definition modify (f : Service -> Service) : M unit := fun s => (Ret tt, f s, []).
Definition gets {A} (f : Service -> A) : M A := fun s => (Ret (f s), s, []).

Definition bind {A B} (m : M A) (k : A -> M B) : M B :=
  fun s =>
    match m s with
    | (Ret a, s1, t1) => let '(o, s2, t2) := k a s1 in (o, s2, t1 ++ t2)
    | (Throw e, s1, t1) => (Throw e, s1, t1)
    | (OutOfFuel, s1, t1) => (OutOfFuel, s1, t1)
    end.

(** [try { m } catch (error) { h error }] *)
Definition try_catch {A} (m : M A) (h : exn -> M A) : M A :=
  fun s =>
    match m s with
    | (Throw e, s1, t1) => let '(o, s2, t2) := h e s1 in (o, s2, t1 ++ t2)
    | r => r
    end.

(** stdpp's [x ← m; k] and [m;; k] notations. *)
#[global] Instance M_bind : MBind M := fun A B k m => bind m k.
#[global] Instance M_ret : MRet M := fun A a => ret a.

Definition lift_exn {A} (r : exn + A) : M A :=
  match r with inl e => throw e | inr a => ret a end.

Definition outcome {A} (r : Outcome A * Service * list effect) : Outcome A :=
  r.1.1.
Definition state_of {A} (r : Outcome A * Service * list effect) : Service :=
  r.1.2.
Definition trace_of {A} (r : Outcome A * Service * list effect) : list effect :=
  r.2.

(** ** The environment of the service

    What the file does not define: [JSON.parse], the numeric reading of a
    string, the printing of a number beyond 2^53, the collaborators reached through [window] and [document]
    (whether such a call throws for a given message), the bodies of the
    subscriber callbacks, and the [WebSocket] constructor. Collaborators are
    assumed not to call back into the service; subscriber callbacks may, by
    the [action]s listed here. *)

Inductive action :=
| CallSubscribe (feedName channel : string) (callback : nat)
| CallUnsubscribe (feedName channel : string) (callback : nat)
| CallHandle (feedName channel : string) (callback : nat)
| DoThrow.

Record Env := {
  JSON_parse : string -> option json;        (* None: throws SyntaxError *)
  StringToNumber : string -> option Z;       (* None: NaN *)
  NumberToString : Z -> string;              (* of a number beyond 2^53 *)
  external_throws : string -> json -> bool;
  behaviour : nat -> json -> list action;    (* callback(message) *)
  WebSocket_throws : string -> bool          (* new WebSocket(url) throws *)
}.

(** ** Subscriber table *)

Definition subscription_key (feedName channel : string) : string :=
  feedName +:+ ":" +:+ channel.

(** [feed && feed.websocket && feed.websocket.readyState === WebSocket.OPEN]:
    the socket to send on, when the test passes. *)
Definition open_socket (s : Service) (feedName : string) : option nat :=
  feed ← assoc feedName (feeds s);
  ws ← sockets s !! websocket feed;
  if decide (readyState ws = OPEN) then Some (websocket feed) else None.

(** What [subscribe] returns: the closure over [key] and [callback]. *)
Definition Handle : Type := string * nat.

Definition subscribe (feedName channel : string) (callback : nat) : M Handle :=
  let key := subscription_key feedName channel in
  subs ← gets subscribers;
  (if decide (is_Some (subs !! key)) then ret tt
   else modify (fun s => with_subscribers (<[key := []]> (subscribers s)) s));;
  modify (fun s =>
    with_subscribers (alter (set_add callback) key (subscribers s)) s);;
  sock ← gets (fun s => open_socket s feedName);
  match sock with
  | Some ws => emit (Send ws (FSubscribe channel))
  | None => ret tt
  end;;
  ret (key, callback).

Definition invoke_handle (h : Handle) : M unit :=
  let '(key, callback) := h in
  modify (fun s =>
    match subscribers s !! key with
    | Some d => with_subscribers (<[key := set_delete callback d]> (subscribers s)) s
    | None => s
    end).

Definition unsubscribe (feedName channel : string) (callback : nat) : M unit :=
  let key := subscription_key feedName channel in
  subs ← gets subscribers;
  match subs !! key with
  | Some d =>
      let d' := set_delete callback d in
      modify (with_subscribers (<[key := d']> subs));;
      if decide (set_size d' = 0%nat) then
        sock ← gets (fun s => open_socket s feedName);
        match sock with
        | Some ws => emit (Send ws (FUnsubscribe channel))
        | None => ret tt
        end
      else ret tt
  | None => ret tt
  end.

(** The body of a subscriber callback. *)
Definition perform (a : action) : M unit :=
  match a with
  | CallSubscribe f c cb => subscribe f c cb;; ret tt
  | CallUnsubscribe f c cb => unsubscribe f c cb
  | CallHandle f c cb => invoke_handle (subscription_key f c, cb)
  | DoThrow => throw CallbackError
  end.

Fixpoint run_body (l : list action) : M unit :=
  match l with
  | [] => ret tt
  | a :: l' => perform a;; run_body l'
  end.

Definition call_callback (E : Env) (callback : nat) (message : json) : M unit :=
  emit (Invoke callback message);;
  run_body (behaviour E callback message).

(** [subscribers.forEach(callback => { try { callback(message) } catch ... })]
    on the Set stored under [key].  The Map entry of a key is never replaced
    or deleted, so the Set object is the one found under [key] at every
    step.  [index] is the position in [[SetData]]; the list is read again at
    every step, so members appended during the walk are reached. *)
Fixpoint Set_forEach (E : Env) (fuel : nat) (key : string) (message : json)
    (index : nat) : M unit :=
  fun s =>
    match subscribers s !! key ≫= (.!! index) with
    | None => (Ret tt, s, [])
    | Some e =>
        match fuel with
        | O => (OutOfFuel, s, [])
        | S fuel' =>
            ((match e with
              | Some callback =>
                  try_catch (call_callback E callback message)
                    (fun _ => emit (Console Error "Error in subscriber callback:"))
              | None => ret tt
              end);;
             Set_forEach E fuel' key message (S index)) s
        end
    end.

(** [message.channel || 'default'], as the template literal prints it. *)
Definition channel_of (E : Env) (ch : option json) : exn + string :=
  match ch with
  | Some v => if truthy ch then ToString (NumberToString E) v else inr "default"
  | None => inr "default"
  end.

Definition notifySubscribers (E : Env) (fuel : nat) (feedName : string)
    (message : json) : M unit :=
  ch ← lift_exn (get_prop message "channel");
  channel ← lift_exn (channel_of E ch);
  let key := subscription_key feedName channel in
  subs ← gets subscribers;
  if decide (is_Some (subs !! key)) then Set_forEach E fuel key message 0
  else ret tt.

(** ** Buffer *)

Definition maxBufferSize : nat := 1000.
Definition maxAge : Z := 5 * 60 * 1000.

Definition make_entry (now : Z) (message : json) : entry :=
  assoc_set "timestamp" (JNum now) (spread message).

Definition addToBuffer (now : Z) (feedName : string) (message : json) : M unit :=
  modify (fun s =>
    let b :=
      if decide (is_Some (buffer s !! feedName)) then buffer s
      else <[feedName := []]> (buffer s) in
    let feedBuffer := default [] (b !! feedName) ++ [make_entry now message] in
    let feedBuffer :=
      if decide (maxBufferSize < length feedBuffer)%nat
      then drop (length feedBuffer - maxBufferSize) feedBuffer
      else feedBuffer in
    with_buffer (<[feedName := feedBuffer]> b) s).

(** [now - msg.timestamp < maxAge].  The [timestamp] of a buffered entry
    is the number that [addToBuffer] wrote; for a value without a numeric
    reading the comparison counts as false. *)
Definition within_maxAge (E : Env) (now : Z) (msg : entry) : bool :=
  match ToNumber (NumberToString E) (StringToNumber E) (assoc "timestamp" msg) with
  | inr (Some t) => bool_decide (now - t < maxAge)%Z
  | _ => false
  end.

Definition cleanBuffer (E : Env) (now : Z) : M unit :=
  modify (fun s =>
    with_buffer (filter (fun msg => within_maxAge E now msg = true) <$> buffer s) s).

(** [getBuffer(feedName, limit = 100)]; [None] is an omitted limit. *)
Definition getBuffer (s : Service) (feedName : string) (limit : option Z)
  : list entry :=
  let messages := default [] (buffer s !! feedName) in
  slice_from (- default 100%Z limit) messages.

(** ** Message pipeline *)

(** A call into a collaborator ([window.*], [document.*]). *)
Definition external (E : Env) (who : string) (message : json) : M unit :=
  if external_throws E who message then throw (ExternalError who) else ret tt.

(** [message.type === t] *)
Definition type_is (message : json) (t : string) : M bool :=
  ty ← lift_exn (get_prop message "type");
  ret (match ty with Some (JStr s) => String.eqb s t | _ => false end).

(** [if (type === a) f_a(message) else if (type === b) ... ; emit(event)] *)
Definition dispatch (E : Env) (message : json)
    (cases : list (string * string)) (event : string) : M unit :=
  (fix go (l : list (string * string)) : M unit :=
     match l with
     | [] => ret tt
     | (t, method) :: l' =>
         bind (type_is message t) (fun b : bool =>
           if b then external E method message else go l')
     end) cases;;
  external E event message.

Definition handleMarketMessage (E : Env) (message : json) : M unit :=
  dispatch E message
    [("price", "updateMarketPrice"); ("volume", "updateMarketVolume");
     ("depth", "updateMarketDepth")]
    "market:update".

Definition handleTradeMessage (E : Env) (message : json) : M unit :=
  dispatch E message
    [("executed", "handleTradeExecuted"); ("filled", "handleTradeFilled");
     ("cancelled", "handleTradeCancelled")]
    "trade:update".

Definition handleQuoteMessage (E : Env) (message : json) : M unit :=
  dispatch E message
    [("bid", "updateBidQuote"); ("ask", "updateAskQuote");
     ("spread", "updateSpread")]
    "quote:update".

Definition handleNewsMessage (E : Env) (message : json) : M unit :=
  dispatch E message
    [("breaking", "handleBreakingNews"); ("analysis", "handleAnalysisNews");
     ("regulatory", "handleRegulatoryNews")]
    "news:update".

(** [handler(message)] for a [handler] that [this.handlers[feedName]] has
    found on [Object.prototype]: a call with [this] undefined.  [Object]
    (found as [constructor]) and [toString] return; [isPrototypeOf] returns
    for a message that is not an object; [__proto__] is not a function; the
    others need a receiver. *)
Definition call_inherited (k : string) (message : json) : M unit :=
  if String.eqb k "constructor" then ret tt
  else if String.eqb k "toString" then ret tt
  else if String.eqb k "isPrototypeOf" then
    match message with
    | JArr _ | JObj _ => throw TypeError
    | _ => ret tt
    end
  else throw TypeError.

(** [this.handlers[feedName]], as [setupFeedHandlers] fills it; [None] is
    [undefined]. *)
Definition handlers (E : Env) (feedName : string) : option (json -> M unit) :=
  if String.eqb feedName "market" then Some (handleMarketMessage E)
  else if String.eqb feedName "trades" then Some (handleTradeMessage E)
  else if String.eqb feedName "quotes" then Some (handleQuoteMessage E)
  else if String.eqb feedName "news" then Some (handleNewsMessage E)
  else if inherited feedName then Some (call_inherited feedName)
  else None.

(** [feed.lastMessage = message; feed.messageCount++; feed.status = 'connected'] *)
Definition touch_feed (message : json) (feed : Feed) : Feed :=
  {| websocket := websocket feed; config := config feed;
     status := "connected"; lastMessage := message;
     messageCount := S (messageCount feed) |}.

(** The [if (feed) { ... }] block of [handleMessage]. *)
Definition note_message (feedName : string) (message : json) : M unit :=
  modify (fun s =>
    match assoc feedName (feeds s) with
    | Some feed =>
        with_feeds (assoc_set feedName (touch_feed message feed) (feeds s)) s
    | None => s
    end).

Definition handleMessage (E : Env) (fuel : nat) (now : Z) (feedName data : string)
  : M unit :=
  try_catch
    (message ← match JSON_parse E data with
               | Some m => ret m
               | None => throw SyntaxError
               end;
     note_message feedName message;;
     match handlers E feedName with
     | Some handler => handler message
     | None => ret tt
     end;;
     addToBuffer now feedName message;;
     notifySubscribers E fuel feedName message)
    (fun _ => emit (Console Error ("Error handling message from " +:+ feedName))).

(** ** Connection life cycle *)

Definition attemptReconnect (config : FeedConfig) : M unit :=
  r ← gets reconnectAttempts;
  let attempts := default 0%nat (r !! name config) in
  if decide (maxReconnectAttempts config ≤ attempts)%nat then
    emit (Console Error ("Max reconnect attempts reached for " +:+ name config))
  else
    modify (fun s =>
      with_reconnectAttempts (<[name config := S attempts]> (reconnectAttempts s)) s);;
    emit (Console Log ("Attempting to reconnect to " +:+ name config));;
    emit (SetTimeout (reconnectInterval config) config);;
    modify (fun s =>
      with_timers (timers s ++ [(reconnectInterval config, config)]) s).

(** [new WebSocket(config.url)], with the four handlers of [connectFeed]
    attached; the result is the index of the new socket. *)
Definition new_WebSocket (E : Env) (config : FeedConfig) : M nat :=
  (if WebSocket_throws E (url config)
   then throw (ExternalError "new WebSocket") else ret tt);;
  ws ← gets (fun s => length (sockets s));
  modify (fun s =>
    with_sockets
      (sockets s ++ [{| ws_config := config; readyState := CONNECTING |}]) s);;
  ret ws.

(** [this.feeds.set(feedName, feed)] *)
Definition feeds_set (feedName : string) (feed : Feed) : M unit :=
  modify (fun s => with_feeds (assoc_set feedName feed (feeds s)) s).

Definition connectFeed (E : Env) (config : FeedConfig) : M unit :=
  try_catch
    (ws ← new_WebSocket E config;
     feeds_set (name config)
       {| websocket := ws; config := config; status := "connecting";
          lastMessage := JNull; messageCount := 0 |})
    (fun _ =>
       emit (Console Error ("Failed to connect to " +:+ name config));;
       attemptReconnect config).

(** The channels that the [subscriptions] literal lists for a feed. *)
Definition default_channels (feedName : string) : list string :=
  if String.eqb feedName "market"
  then ["BTCUSDT"; "ETHUSDT"; "XAUUSD"; "EURUSD"; "SPY"]
  else if String.eqb feedName "trades" then ["executed"; "filled"; "cancelled"]
  else if String.eqb feedName "quotes" then ["bid"; "ask"; "spread"]
  else if String.eqb feedName "news" then ["market"; "analysis"; "regulatory"]
  else [].

Fixpoint for_each {A} (l : list A) (body : A -> M unit) : M unit :=
  match l with
  | [] => ret tt
  | x :: l' => body x;; for_each l' body
  end.

(** [(subscriptions[feedName] || []).forEach(...)]: what the lookup finds
    on [Object.prototype] is truthy and has no [forEach]. *)
Definition subscribeToDefaultChannels (ws : nat) (feedName : string) : M unit :=
  if inherited feedName then throw TypeError
  else
    for_each (default_channels feedName)
      (fun channel => emit (Send ws (FSubscribe channel))).

(** The browser's part of a socket event: the new [readyState]. *)
Definition set_readyState (ws : nat) (r : ReadyState) : M unit :=
  modify (fun s =>
    with_sockets
      (alter (fun w => {| ws_config := ws_config w; readyState := r |}) ws
         (sockets s)) s).

Definition ws_onopen (ws : nat) (config : FeedConfig) : M unit :=
  emit (Console Log ("Connected to " +:+ name config));;
  modify (fun s => with_connections (<[name config := ws]> (connections s)) s);;
  modify (fun s =>
    with_reconnectAttempts (<[name config := 0%nat]> (reconnectAttempts s)) s);;
  subscribeToDefaultChannels ws (name config).

Definition ws_onmessage (E : Env) (fuel : nat) (now : Z) (config : FeedConfig)
    (data : string) : M unit :=
  handleMessage E fuel now (name config) data.

Definition ws_onclose (config : FeedConfig) : M unit :=
  emit (Console Log ("Disconnected from " +:+ name config));;
  modify (fun s => with_connections (delete (name config) (connections s)) s);;
  attemptReconnect config.

Definition ws_onerror (config : FeedConfig) : M unit :=
  emit (Console Error ("Error in " +:+ name config)).

(** ** Health monitoring *)

Definition sendHeartbeat (now : Z) : M unit :=
  fs ← gets feeds;
  for_each fs (fun '(feedName, feed) =>
    ws ← gets (fun s => sockets s !! websocket feed);
    match ws with
    | Some w =>
        if decide (readyState w = OPEN)
        then emit (Send (websocket feed) (FHeartbeat now)) else ret tt
    | None => ret tt
    end).

(** [Date.now() - (feed.lastMessage?.timestamp || 0)]; [inr None] is NaN,
    and the subtraction throws for a timestamp without a primitive value. *)
Definition timeSinceLastMessage (E : Env) (now : Z) (feed : Feed)
  : exn + option Z :=
  let t := get_prop_opt (Some (lastMessage feed)) "timestamp" in
  match
    if truthy t then ToNumber (NumberToString E) (StringToNumber E) t
    else inr (Some 0%Z)
  with
  | inl e => inl e
  | inr (Some t) => inr (Some (now - t)%Z)
  | inr None => inr None
  end.

(** [timeSinceLastMessage > 60000] *)
Definition is_stale (E : Env) (now : Z) (feed : Feed) : exn + bool :=
  match timeSinceLastMessage E now feed with
  | inl e => inl e
  | inr (Some d) => inr (bool_decide (60000 < d)%Z)
  | inr None => inr false
  end.

(** [feed.websocket && feed.websocket.readyState !== WebSocket.OPEN] *)
Definition socket_not_open (s : Service) (feed : Feed) : bool :=
  match sockets s !! websocket feed with
  | Some w => bool_decide (readyState w ≠ OPEN)
  | None => false
  end.

(** The body of the loop of [checkConnectionHealth]. *)
Definition check_feed (E : Env) (now : Z) (feedName : string) (feed : Feed)
  : M unit :=
  bind (lift_exn (is_stale E now feed)) (fun stale : bool =>
    if stale then
      emit (Console Warn ("No message from " +:+ feedName +:+ " feed for 1 minute"));;
      bind (gets (fun s => socket_not_open s feed)) (fun closed : bool =>
        if closed then attemptReconnect (config feed) else ret tt)
    else ret tt).

Definition checkConnectionHealth (E : Env) (now : Z) : M unit :=
  fs ← gets feeds;
  for_each fs (fun '(feedName, feed) => check_feed E now feedName feed).

(** ** Public queries *)

Record FeedStats := {
  stats_status : string;
  stats_messageCount : nat;
  stats_lastMessage : json;
  stats_reconnectAttempts : nat
}.

(** [None] is [null]. *)
Definition getFeedStats (s : Service) (feedName : string) : option FeedStats :=
  feed ← assoc feedName (feeds s);
  Some {| stats_status := status feed;
          stats_messageCount := messageCount feed;
          stats_lastMessage := lastMessage feed;
          stats_reconnectAttempts :=
            default 0%nat (reconnectAttempts s !! feedName) |}.

Definition getConnectionStatus (s : Service) (feedName : string) : string :=
  match assoc feedName (feeds s) with
  | Some feed => status feed
  | None => "disconnected"
  end.

(** ** The event loop

    One [event] is one task of the page: a socket event delivered by the
    browser (which has already moved the socket to its new [readyState]), a
    timer that fires, or a call of the public API.  An exception that leaves
    a task is reported by the browser and the loop goes on. *)

Inductive event :=
| Start (config : FeedConfig)                      (* connectFeed(config) *)
| TimerFires (i : nat)                             (* i-th pending reconnect *)
| SocketOpens (ws : nat)
| SocketMessage (ws : nat) (now : Z) (data : string)
| SocketError (ws : nat)
| SocketCloses (ws : nat)
| BufferTick (now : Z)                             (* cleanBuffer, every 60 s *)
| HeartbeatTick (now : Z)                          (* sendHeartbeat, every 30 s *)
| HealthTick (now : Z)                             (* checkConnectionHealth, every 10 s *)
| ApiSubscribe (feedName channel : string) (callback : nat)
| ApiUnsubscribe (feedName channel : string) (callback : nat)
| ApiHandle (feedName channel : string) (callback : nat).

Definition on_socket (ws : nat) (k : WebSocket -> M unit) : M unit :=
  w ← gets (fun s => sockets s !! ws);
  match w with Some w => k w | None => ret tt end.

(** A timer that has fired is no longer pending. *)
Definition timer_done (i : nat) : M unit :=
  modify (fun s => with_timers (delete i (timers s)) s).

Definition task (E : Env) (fuel : nat) (ev : event) : M unit :=
  match ev with
  | Start config => connectFeed E config
  | TimerFires i =>
      t ← gets (fun s => timers s !! i);
      match t with
      | Some (_, config) => timer_done i;; connectFeed E config
      | None => ret tt
      end
  | SocketOpens ws =>
      on_socket ws (fun w =>
        if decide (readyState w = CONNECTING)
        then set_readyState ws OPEN;; ws_onopen ws (ws_config w)
        else ret tt)
  | SocketMessage ws now data =>
      on_socket ws (fun w =>
        if decide (readyState w = OPEN)
        then ws_onmessage E fuel now (ws_config w) data
        else ret tt)
  | SocketError ws =>
      on_socket ws (fun w => ws_onerror (ws_config w))
  | SocketCloses ws =>
      on_socket ws (fun w =>
        if decide (readyState w = CLOSED) then ret tt
        else set_readyState ws CLOSED;; ws_onclose (ws_config w))
  | BufferTick now => cleanBuffer E now
  | HeartbeatTick now => sendHeartbeat now
  | HealthTick now => checkConnectionHealth E now
  | ApiSubscribe f c cb => subscribe f c cb;; ret tt
  | ApiUnsubscribe f c cb => unsubscribe f c cb
  | ApiHandle f c cb => invoke_handle (subscription_key f c, cb)
  end.

Definition step (E : Env) (fuel : nat) (ev : event) : M unit :=
  try_catch (task E fuel ev) (fun _ => emit (Console Error "Uncaught")).

(** The tasks of [evs], one after the other; [fuel] bounds the walk of each
    notification.  A run stops where a notification exhausts its fuel, in a
    state the service really passes through; tasks other than incoming
    messages use no fuel. *)
Fixpoint run (E : Env) (fuel : nat) (evs : list event) : M unit :=
  match evs with
  | [] => ret tt
  | ev :: evs' => step E fuel ev;; run E fuel evs'
  end.

(** ** Reading a trace *)

(** The frames put on the wire, in order. *)
Definition sent (t : list effect) : list frame :=
  omap (fun e => match e with Send _ f => Some f | _ => None end) t.

(** The callbacks invoked, each with its argument, in order. *)
Definition invoked (t : list effect) : list (nat * json) :=
  omap (fun e => match e with Invoke cb m => Some (cb, m) | _ => None end) t.

(** The lines written with [console.error], in order. *)
Definition logged_errors (t : list effect) : list string :=
  omap (fun e => match e with Console Error about => Some about | _ => None end) t.

(** The lines written with [console.warn], in order. *)
Definition logged_warnings (t : list effect) : list string :=
  omap (fun e => match e with Console Warn about => Some about | _ => None end) t.

(** The timers started with [setTimeout], in order. *)
Definition timeouts (t : list effect) : list (Z * FeedConfig) :=
  omap (fun e => match e with SetTimeout d c => Some (d, c) | _ => None end) t.

(** The reconnects scheduled with [setTimeout], in order. *)
Definition scheduled (t : list effect) : list FeedConfig :=
  omap (fun e => match e with SetTimeout _ c => Some c | _ => None end) t.

(** How many times frame [f] occurs in a list of frames. *)
Definition occurrences (f : frame) (l : list frame) : nat :=
  length (filter (fun x => x = f) l).

(** ** Scenarios and auxiliary notions used in the statements *)

(** The last [n] elements of a list. *)
Definition keep_last {A} (n : nat) (l : list A) : list A :=
  drop (length l - n) l.

(** Messages arriving one after the other on one feed, each with the clock
    reading at its arrival. *)
Definition appendAll (feedName : string) (arrivals : list (Z * json)) : M unit :=
  for_each arrivals (fun '(now, message) => addToBuffer now feedName message).

(** Calls of [subscribe] and [unsubscribe] on one (feed, channel). *)
Inductive table_call :=
| DoSubscribe (callback : nat)
| DoUnsubscribe (callback : nat).

Definition is_subscribe (c : table_call) : bool :=
  match c with DoSubscribe _ => true | DoUnsubscribe _ => false end.

Definition table_step (feedName channel : string) (c : table_call) : M unit :=
  match c with
  | DoSubscribe cb => subscribe feedName channel cb;; ret tt
  | DoUnsubscribe cb => unsubscribe feedName channel cb
  end.

(** The number of subscribers of (feed, channel). *)
Definition members (s : Service) (feedName channel : string) : nat :=
  set_size (default [] (subscribers s !! subscription_key feedName channel)).

(** What a sequence of calls did: the final state, the frames sent, and how
    often the number of subscribers went from zero to nonzero ([ups]) and
    from nonzero to zero ([downs]). *)
Record table_summary := {
  final : Service;
  wire : list frame;
  ups : nat;
  downs : nat
}.

Fixpoint table_run (feedName channel : string) (calls : list table_call)
    (s : Service) : table_summary :=
  match calls with
  | [] => {| final := s; wire := []; ups := 0; downs := 0 |}
  | c :: calls' =>
      let r := table_step feedName channel c s in
      let before := members s feedName channel in
      let after := members (state_of r) feedName channel in
      let rest := table_run feedName channel calls' (state_of r) in
      {| final := final rest;
         wire := sent (trace_of r) ++ wire rest;
         ups := (if bool_decide (before = 0 ∧ after ≠ 0) then 1 else 0) + ups rest;
         downs := (if bool_decide (before ≠ 0 ∧ after = 0) then 1 else 0) + downs rest |}
  end.

(** No entry of the subscriber table is an empty set. *)
Definition no_empty_set (s : Service) : Prop :=
  map_Forall (fun _ d => set_size d ≠ 0) (subscribers s).

Definition subscribe_calls (calls : list table_call) : nat :=
  length (filter (fun c => is_subscribe c = true) calls).

(** The subscriber-table key a callback action works on. *)
Definition action_key (a : action) : option string :=
  match a with
  | CallSubscribe f c _ | CallUnsubscribe f c _ | CallHandle f c _ =>
      Some (subscription_key f c)
  | DoThrow => None
  end.

(** Called with [message], no member of [d] subscribes or unsubscribes on
    [key]. *)
Definition leave_alone (E : Env) (key : string) (message : json) (d : SetData)
  : Prop :=
  Forall (fun cb =>
            Forall (fun a => action_key a ≠ Some key) (behaviour E cb message))
    (set_values d).

(** The callback throws when called with [message]. *)
Definition throws (E : Env) (message : json) (cb : nat) : Prop :=
  DoThrow ∈ behaviour E cb message.

#[global] Instance action_eq_dec : EqDecision action.
Proof. solve_decision. Defined.

#[global] Instance throws_dec E message cb : Decision (throws E message cb).
Proof. unfold throws. apply _. Defined.

(** ** Concrete environments and states for the examples *)

Module Demo.

(** [JSON.parse] on the payloads used below; anything else is malformed. *)
Definition parse (data : string) : option json :=
  if String.eqb data "null" then Some JNull
  else if String.eqb data "{}" then Some (JObj [])
  else if String.eqb data "[]" then Some (JArr [])
  else if String.eqb data "42" then Some (JNum 42)
  else None.

(** Collaborators that never throw, callbacks that do nothing.  No example
    prints a number beyond 2^53. *)
Definition env : Env :=
  {| JSON_parse := parse;
     StringToNumber := fun _ => None;
     NumberToString := fun _ => "1e+21";
     external_throws := fun _ _ => false;
     behaviour := fun _ _ => [];
     WebSocket_throws := fun _ => false |}.

(** The scenario feed: [maxReconnectAttempts = 3], [reconnectInterval = 0]. *)
Definition market : FeedConfig :=
  {| name := "market"; url := "wss://stream.rayzw2e.com/market";
     reconnectInterval := 0; maxReconnectAttempts := 3 |}.

(** The service once the market feed is connected and open (socket 0). *)
Definition open_market : Service :=
  state_of (run env 0 [Start market; SocketOpens 0] new_service).

(** Callbacks that act on the table or throw: 1 subscribes 2 and 3
    unsubscribes 4 on (market, BTCUSDT); 5 throws; the others do nothing. *)
Definition busy : Env :=
  {| JSON_parse := parse;
     StringToNumber := fun _ => None;
     NumberToString := fun _ => "1e+21";
     external_throws := fun _ _ => false;
     behaviour := fun cb _ =>
       match cb with
       | 1 => [CallSubscribe "market" "BTCUSDT" 2]
       | 3 => [CallUnsubscribe "market" "BTCUSDT" 4]
       | 5 => [DoThrow]
       | _ => []
       end;
     WebSocket_throws := fun _ => false |}.


(** Payloads whose [channel], respectively [timestamp], is the object
    [{toString: 1}], written with the quotation mark [quote]. *)
Definition quote : string := String (Ascii.ascii_of_nat 34) EmptyString.

Definition odd_channel_payload : string :=
  "{" +:+ quote +:+ "channel" +:+ quote +:+ ":{"
      +:+ quote +:+ "toString" +:+ quote +:+ ":1}}".

Definition odd_timestamp_payload : string :=
  "{" +:+ quote +:+ "timestamp" +:+ quote +:+ ":{"
      +:+ quote +:+ "toString" +:+ quote +:+ ":1}}".

Definition odd_channel : json :=
  JObj [("channel", JObj [("toString", JNum 1)])].

Definition odd_timestamp : json :=
  JObj [("timestamp", JObj [("toString", JNum 1)])].

(** [env], with [JSON.parse] reading these two payloads as well. *)
Definition odd : Env :=
  {| JSON_parse := fun data =>
       if String.eqb data odd_channel_payload then Some odd_channel
       else if String.eqb data odd_timestamp_payload then Some odd_timestamp
       else parse data;
     StringToNumber := fun _ => None;
     NumberToString := fun _ => "1e+21";
     external_throws := fun _ _ => false;
     behaviour := fun _ _ => [];
     WebSocket_throws := fun _ => false |}.

(** The news feed, as configured, and the service after the news feed and
    then the market feed have been started and the news feed, once open,
    has received the payload with the odd [timestamp]. *)
Definition news : FeedConfig :=
  {| name := "news"; url := "wss://stream.rayzw2e.com/news";
     reconnectInterval := 10000; maxReconnectAttempts := 5 |}.

Definition odd_news : Service :=
  state_of (run odd 1 [Start news; Start market; SocketOpens 0;
                       SocketMessage 0 5 odd_timestamp_payload] new_service).

(** A message for channel BTCUSDT. *)
Definition tick : json := JObj [("channel", JStr "BTCUSDT")].

(** The open market feed with the given subscribers of (market, BTCUSDT),
    subscribed in that order. *)
Definition with_members (cbs : list nat) : Service :=
  state_of (run env 0 (ApiSubscribe "market" "BTCUSDT" <$> cbs) open_market).

(** The open market feed with callback 1 subscribed to (market, default)
    and callback 2 to (market, BTCUSDT). *)
Definition default_and_ticker : Service :=
  state_of (run env 0 [ApiSubscribe "market" "default" 1;
                       ApiSubscribe "market" "BTCUSDT" 2] open_market).

(** Collaborators of which the event bus throws on [market:update]. *)
Definition event_bus_broken : Env :=
  {| JSON_parse := parse;
     StringToNumber := fun _ => None;
     NumberToString := fun _ => "1e+21";
     external_throws := fun who _ => String.eqb who "market:update";
     behaviour := fun _ _ => [];
     WebSocket_throws := fun _ => false |}.

(** A transport that always fails to open: every socket gets an error
    event and then a close event, and the pending reconnect timer fires.
    [always_failing n] is the market feed's start followed by its first [n]
    failed connection attempts. *)
Definition always_failing (n : nat) : list event :=
  Start market
    :: flat_map (fun ws => [SocketError ws; SocketCloses ws; TimerFires 0])
         (seq 0 n).

(** The market feed after its first connection attempt has failed: socket 0
    is closed and the first reconnect is pending. *)
Definition closed_market : Service :=
  state_of (run env 0 [Start market; SocketError 0; SocketCloses 0] new_service).

(** The record of the market feed in [closed_market]. *)
Definition closed_market_feed : Feed :=
  {| websocket := 0; config := market; status := "connecting";
     lastMessage := JNull; messageCount := 0 |}.

(** 1500 messages, the [i]-th being the number [i] arriving at time [i]. *)
Definition arrivals : list (Z * json) :=
  (fun i => (Z.of_nat i, JNum (Z.of_nat i))) <$> seq 0 1500.

End Demo.

(** ** Relations between the state before an operation, its effects and the
    state after it *)

(** Operation [m] respects [R]: from every state, [R] relates the state
    before, the effects produced and the state after. *)
Definition respects (R : Service → list effect → Service → Prop) {A} (m : M A)
  : Prop :=
  ∀ s, R s (trace_of (m s)) (state_of (m s)).

(** The subscriber table keeps its entry for [key]. *)
Definition keeps_entry (key : string) (s : Service) (t : list effect)
    (s' : Service) : Prop :=
  is_Some (subscribers s !! key) → is_Some (subscribers s' !! key).

(** Every registered feed has one of the two statuses the service ever
    writes. *)
Definition statuses_ok (s : Service) : Prop :=
  ∀ feedName feed, assoc feedName (feeds s) = Some feed →
    status feed = "connecting" ∨ status feed = "connected".

Definition keeps_statuses_ok (s : Service) (t : list effect) (s' : Service)
  : Prop :=
  statuses_ok s → statuses_ok s'.

(** How many more reconnects [attemptReconnect config] would still grant. *)
Definition remaining (config : FeedConfig) (s : Service) : nat :=
  maxReconnectAttempts config
  - default 0 (reconnectAttempts s !! name config).

(** How many reconnects of [config] a trace schedules. *)
Definition reconnects (config : FeedConfig) (t : list effect) : nat :=
  length (filter (fun c => c = config) (scheduled t)).

(** Each reconnect scheduled for [config] uses up one of the remaining. *)
Definition spends (config : FeedConfig) (s : Service) (t : list effect)
    (s' : Service) : Prop :=
  reconnects config t + remaining config s' ≤ remaining config s.

(** No socket ever opens. *)
Definition never_opens (evs : list event) : Prop :=
  Forall (fun ev => match ev with SocketOpens _ => False | _ => True end) evs.

#[global] Instance exn_eq_dec : EqDecision exn.
Proof. solve_decision. Defined.

(** The health check owes the feed a reconnect: its last message is stale,
    its socket does not report itself open, and the feed has reconnect
    attempts left. *)
Definition reconnect_due (E : Env) (now : Z) (s : Service) (feed : Feed) : Prop :=
  is_stale E now feed = inr true
  ∧ socket_not_open s feed = true
  ∧ default 0 (reconnectAttempts s !! name (config feed))
    < maxReconnectAttempts (config feed).

#[global] Instance reconnect_due_dec E now s feed :
  Decision (reconnect_due E now s feed).
Proof. unfold reconnect_due. apply _. Defined.

(** The pending timers grow by the timers the trace starts. *)
Definition starts_timers (s : Service) (t : list effect) (s' : Service) : Prop :=
  timers s' = timers s ++ timeouts t.

(** The health check leaves feeds and sockets as they are; pending timers
    stay pending and reconnect counters do not go down. *)
Definition health_frame (s : Service) (t : list effect) (s' : Service) : Prop :=
  feeds s' = feeds s ∧ sockets s' = sockets s
  ∧ (∀ x, x ∈ timers s → x ∈ timers s')
  ∧ (∀ n, default 0 (reconnectAttempts s !! n)
          ≤ default 0 (reconnectAttempts s' !! n)).

(** No feed's buffer is longer than the cap. *)
Definition buffers_bounded (s : Service) : Prop :=
  map_Forall (fun _ messages => length messages ≤ maxBufferSize) (buffer s).

Definition keeps_buffers_bounded (s : Service) (t : list effect) (s' : Service)
  : Prop :=
  buffers_bounded s → buffers_bounded s'.

(** An operation that neither reads nor changes the state and has no
    effect: it only computes an outcome. *)
Definition stateless {A} (m : M A) : Prop :=
  ∃ o, ∀ s, m s = (o, s, []).

(** ** The rest of the public API, and notions used for it *)

(** The array index that a property name denotes: the name is the decimal
    numeral, without leading zeros, of an integer below 2^32 - 1. *)
Definition digit (a : Ascii.ascii) : option N :=
  let n := Ascii.N_of_ascii a in
  if ((48 <=? n) && (n <=? 57))%N then Some (n - 48)%N else None.

Fixpoint digits (acc : N) (k : string) : option N :=
  match k with
  | EmptyString => Some acc
  | String a k' =>
      match digit a with
      | Some d => digits (10 * acc + d)%N k'
      | None => None
      end
  end.

Definition array_index (k : string) : option N :=
  match k with
  | EmptyString => None
  | _ =>
      match digits 0 k with
      | Some n =>
          if decide (pretty n = k ∧ (n < 2 ^ 32 - 1)%N) then Some n else None
      | None => None
      end
  end.

(** Property [k] comes before property [k'] when the own properties of an
    object are listed: array indices in ascending order, then the other
    names in the order of their creation. *)
Definition listed_before (k k' : string) : bool :=
  match array_index k, array_index k' with
  | Some n, Some n' => (n <? n')%N
  | Some _, None => true
  | None, _ => false
  end.

(** [o[k] = v] on the own properties of an object, kept in the order in
    which they are listed. *)
Fixpoint own_set {A} (k : string) (v : A) (o : list (string * A))
  : list (string * A) :=
  match o with
  | [] => [(k, v)]
  | (k', v') :: o' =>
      if String.eqb k k' then (k', v) :: o'
      else if listed_before k k' then (k, v) :: (k', v') :: o'
      else (k', v') :: own_set k v o'
  end.

(** The object that [getAllFeedStats] builds: its own properties as they
    are listed, and its prototype when an assignment has replaced
    [Object.prototype] ([None]: not replaced; a value [None] is [null]). *)
Record AllFeedStats := {
  own : list (string * option FeedStats);
  proto : option (option FeedStats)
}.

(** [stats[k] = v].  The name [__proto__] reaches the setter of
    [Object.prototype], which replaces the prototype and creates no
    property -- unless the prototype is [null] by then. *)
Definition assign (k : string) (v : option FeedStats) (stats : AllFeedStats)
  : AllFeedStats :=
  if String.eqb k "__proto__" then
    match proto stats with
    | Some None => {| own := own_set k v (own stats); proto := proto stats |}
    | _ => {| own := own stats; proto := Some v |}
    end
  else {| own := own_set k v (own stats); proto := proto stats |}.

(** [getAllFeedStats()] *)
Definition getAllFeedStats (s : Service) : AllFeedStats :=
  foldl (fun stats '(feedName, _) => assign feedName (getFeedStats s feedName) stats)
    {| own := []; proto := None |} (feeds s).


Definition unsubscribeFromSymbol (symbol : string) (callback : nat) : M unit :=
  unsubscribe "market" symbol callback.



(** The subscribers of (feed, channel), in the order [notifySubscribers]
    visits them. *)
Definition subscribers_of (s : Service) (feedName channel : string) : list nat :=
  set_values (default [] (subscribers s !! subscription_key feedName channel)).



(** The character [:] that joins feed and channel in a key. *)
Definition colon : Ascii.ascii := Ascii.ascii_of_nat 58.

(** The string has no colon. *)
Fixpoint colon_free (s : string) : bool :=
  match s with
  | EmptyString => true
  | String a s' => negb (Ascii.eqb a colon) && colon_free s'
  end.

(** The feed record is as [connectFeed] writes it, or as [handleMessage]
    leaves it after a message. *)
Definition record_ok (feed : Feed) : Prop :=
  (status feed = "connecting" ∧ lastMessage feed = JNull ∧ messageCount feed = 0)
  ∨ (status feed = "connected" ∧ 0 < messageCount feed).

(** [this.feeds] has one entry per name, each filed under the name of its
    own config, with a record that is [record_ok]. *)
Definition feeds_wf (s : Service) : Prop :=
  NoDup (fst <$> feeds s)
  ∧ ∀ feedName feed, assoc feedName (feeds s) = Some feed →
      feedName = name (config feed) ∧ record_ok feed.

Definition keeps_feeds_wf (s : Service) (t : list effect) (s' : Service) : Prop :=
  feeds_wf s → feeds_wf s'.

(** A registered feed stays registered. *)
Definition keeps_feed (feedName : string) (s : Service) (t : list effect)
    (s' : Service) : Prop :=
  is_Some (assoc feedName (feeds s)) → is_Some (assoc feedName (feeds s')).

(** The reconnects a trace schedules for feeds called [feedName]. *)
Definition reconnects_of (feedName : string) (t : list effect) : nat :=
  length (filter (fun c => name c = feedName) (scheduled t)).

(** The reconnect counter of [feedName] grows by one per reconnect
    scheduled for it. *)
Definition counts_reconnects (feedName : string) (s : Service) (t : list effect)
    (s' : Service) : Prop :=
  default 0 (reconnectAttempts s' !! feedName)
  = default 0 (reconnectAttempts s !! feedName) + reconnects_of feedName t.

(** The frames [sendHeartbeat] owes: one per feed whose socket is open. *)
Definition heartbeats (now : Z) (s : Service) : list effect :=
  omap (fun '(_, feed) =>
          match sockets s !! websocket feed with
          | Some w =>
              if decide (readyState w = OPEN)
              then Some (Send (websocket feed) (FHeartbeat now)) else None
          | None => None
          end) (feeds s).

(** Collaborators that never throw. *)
Definition healthy (E : Env) : Prop :=
  ∀ who message, external_throws E who message = false.

(** The operation leaves [this.feeds] as it is. *)
Definition keeps_feeds (s : Service) (t : list effect) (s' : Service) : Prop :=
  feeds s' = feeds s.

(** The operation leaves [this.buffer] as it is. *)
Definition keeps_buffer (s : Service) (t : list effect) (s' : Service) : Prop :=
  buffer s' = buffer s.

(** ** Market data written by the market handler

    [handleMarketMessage] passes a message to [updateMarketPrice],
    [updateMarketVolume] or [updateMarketDepth], which the handlers above
    treat as calls into collaborators.  This is what these three methods do
    to [window.multiMarketEngine.realTimeData], a Map from symbol to object;
    the calls into the DOM that follow ([updatePriceUI],
    [updateOrderBookUI]) are left to a flag saying whether they throw. *)

Module MarketData.

(** A JavaScript value read from a message: [None] is [undefined]. *)
Abbreviation jsval := (option json).

(** What a property of a stored object holds: a value copied from a
    message, or the object [{ bids, asks }] that [updateMarketDepth]
    builds. *)
Inductive value :=
| Plain (v : jsval)
| Orderbook (bids asks : jsval).

(** A stored object: its own properties, in order. *)
Abbreviation object := (list (string * value)).

(** [realTimeData]: the entries of the Map, in insertion order. *)
Abbreviation RealTimeData := (list (jsval * object)).

(** Equality of Map keys (SameValueZero).  An array or object that comes
    out of [JSON.parse] is a new object, equal to no key already in the
    Map. *)
Definition same_key (a b : jsval) : bool :=
  match a, b with
  | None, None => true
  | Some JNull, Some JNull => true
  | Some (JBool x), Some (JBool y) => Bool.eqb x y
  | Some (JNum x), Some (JNum y) => (x =? y)%Z
  | Some (JStr x), Some (JStr y) => String.eqb x y
  | _, _ => false
  end.

(** [map.get(key)]; [None] is [undefined]. *)
Fixpoint map_get (key : jsval) (m : RealTimeData) : option object :=
  match m with
  | [] => None
  | (k, o) :: m' => if same_key key k then Some o else map_get key m'
  end.

(** [map.set(key, o)]: an existing entry keeps its place and its key. *)
Fixpoint map_set (key : jsval) (o : object) (m : RealTimeData) : RealTimeData :=
  match m with
  | [] => [(key, o)]
  | (k, o') :: m' =>
      if same_key key k then (k, o) :: m' else (k, o') :: map_set key o m'
  end.

(** A property of the message, as destructuring reads it. *)
Definition field (message : json) (k : string) : jsval :=
  get_prop_opt (Some message) k.

(** [{ ...existingData, k1: v1, k2: v2, ... }] *)
Definition set_fields (fs : list (string * value)) (existing : object) : object :=
  foldl (fun o '(k, v) => assoc_set k v o) existing fs.

(** [if (window.multiMarketEngine) { get; spread; set }], on the entry of
    [symbol]; [None] is a page without [multiMarketEngine]. *)
Definition store (symbol : jsval) (fs : list (string * value))
    (engine : option RealTimeData) : option RealTimeData :=
  (fun rt => map_set symbol (set_fields fs (default [] (map_get symbol rt))) rt)
    <$> engine.

Definition price_fields (message : json) : list (string * value) :=
  [("price", Plain (field message "price"));
   ("change", Plain (field message "change"));
   ("changePercent", Plain (field message "changePercent"));
   ("timestamp", Plain (field message "timestamp"))].

Definition volume_fields (message : json) : list (string * value) :=
  [("volume", Plain (field message "volume"));
   ("timestamp", Plain (field message "timestamp"))].

Definition depth_fields (message : json) : list (string * value) :=
  [("orderbook", Orderbook (field message "bids") (field message "asks"));
   ("timestamp", Plain (field message "timestamp"))].

(** The three methods: the outcome, and [realTimeData] afterwards.
    Destructuring [null] throws before anything is stored; a throw in the
    DOM call comes after the store. *)
Definition updateMarketPrice (ui_throws : bool) (message : json)
    (engine : option RealTimeData) : (exn + unit) * option RealTimeData :=
  match message with
  | JNull => (inl TypeError, engine)
  | _ =>
      (if ui_throws then inl (ExternalError "updatePriceUI") else inr tt,
       store (field message "symbol") (price_fields message) engine)
  end.

Definition updateMarketVolume (message : json) (engine : option RealTimeData)
  : (exn + unit) * option RealTimeData :=
  match message with
  | JNull => (inl TypeError, engine)
  | _ => (inr tt, store (field message "symbol") (volume_fields message) engine)
  end.

Definition updateMarketDepth (ui_throws : bool) (message : json)
    (engine : option RealTimeData) : (exn + unit) * option RealTimeData :=
  match message with
  | JNull => (inl TypeError, engine)
  | _ =>
      (if ui_throws then inl (ExternalError "updateOrderBookUI") else inr tt,
       store (field message "symbol") (depth_fields message) engine)
  end.

(** The stored property [k] of [symbol]; [None] when there is no entry or
    no such property. *)
Definition stored (engine : option RealTimeData) (symbol : jsval) (k : string)
  : option value :=
  match engine with
  | Some rt =>
      match map_get symbol rt with
      | Some o => assoc k o
      | None => None
      end
  | None => None
  end.

End MarketData.
(** * Proofs *)

(** ** Running the monad *)

Lemma run_bind {A B} (m : M A) (k : A -> M B) s :
  (m ≫= k) s =
    match m s with
    | (Ret a, s1, t1) => let '(o, s2, t2) := k a s1 in (o, s2, t1 ++ t2)
    | (Throw e, s1, t1) => (Throw e, s1, t1)
    | (OutOfFuel, s1, t1) => (OutOfFuel, s1, t1)
    end.
Proof. reflexivity. Qed.

Lemma run_gets {A B} (f : Service -> A) (k : A -> M B) s :
  (gets f ≫= k) s = k (f s) s.
Proof. rewrite run_bind. simpl. by destruct (k (f s) s) as [[o s'] t]. Qed.

Lemma run_modify {B} (f : Service -> Service) (k : unit -> M B) s :
  (modify f ≫= k) s = k tt (f s).
Proof. rewrite run_bind. simpl. by destruct (k tt (f s)) as [[o s'] t]. Qed.

Lemma run_emit {B} (e : effect) (k : unit -> M B) s :
  (emit e ≫= k) s = let '(o, s', t) := k tt s in (o, s', e :: t).
Proof. rewrite run_bind. simpl. by destruct (k tt s) as [[o s'] t]. Qed.

Lemma run_ret {A B} (a : A) (k : A -> M B) s : (ret a ≫= k) s = k a s.
Proof. rewrite run_bind. simpl. by destruct (k a s) as [[o s'] t]. Qed.

Lemma run_throw {A B} (e : exn) (k : A -> M B) s :
  (throw e ≫= k) s = (Throw e, s, []).
Proof. reflexivity. Qed.

(** ** Buffer *)

Lemma keep_last_length {A} n (l : list A) : length (keep_last n l) ≤ n.
Proof. unfold keep_last. rewrite length_drop. lia. Qed.

Lemma keep_last_snoc {A} n (l : list A) x :
  0 < n → keep_last n (keep_last n l ++ [x]) = keep_last n (l ++ [x]).
Proof.
  intros Hn. unfold keep_last.
  rewrite !length_app, length_drop. simpl.
  destruct (decide (length l ≤ n)) as [Hle|Hgt].
  - replace (length l - n) with 0 by lia. rewrite drop_0. f_equal. lia.
  - rewrite (drop_app_le l [x] (length l + 1 - n)) by lia.
    rewrite drop_app_le by (rewrite length_drop; lia).
    rewrite drop_drop. do 2 f_equal. lia.
Qed.

Lemma addToBuffer_run now feedName message s :
  addToBuffer now feedName message s =
    (Ret tt,
     with_buffer
       (<[feedName :=
            keep_last maxBufferSize
              (default [] (buffer s !! feedName) ++ [make_entry now message])]>
          (buffer s)) s,
     []).
Proof.
  unfold addToBuffer, modify. do 2 f_equal.
  assert (Hk : ∀ l : list entry,
    (if decide (maxBufferSize < length l)%nat
     then drop (length l - maxBufferSize) l else l) = keep_last maxBufferSize l).
  { intros l. unfold keep_last. case_decide; [done|].
    replace (length l - maxBufferSize)%nat with 0%nat by lia. by rewrite drop_0. }
  rewrite Hk. case_decide as Hs.
  - done.
  - rewrite lookup_insert_eq. simpl.
    assert (buffer s !! feedName = None) as ->.
    { destruct (buffer s !! feedName); [exfalso; eauto | done]. }
    simpl. by rewrite insert_insert_eq.
Qed.

Lemma keep_last_idem {A} n (l : list A) : keep_last n (keep_last n l) = keep_last n l.
Proof.
  unfold keep_last at 1. pose proof (keep_last_length n l).
  replace (length (keep_last n l) - n) with 0 by lia. apply drop_0.
Qed.

Lemma keep_last_app {A} n (l l' : list A) :
  0 < n → keep_last n (keep_last n l ++ l') = keep_last n (l ++ l').
Proof.
  intros Hn. induction l' as [|x l' IH] using rev_ind.
  - rewrite !app_nil_r. apply keep_last_idem.
  - rewrite !app_assoc. rewrite <- (keep_last_snoc n (_ ++ l')) by done.
    rewrite IH. by apply keep_last_snoc.
Qed.

Lemma appendAll_run feedName arrivals s :
  arrivals ≠ [] →
  appendAll feedName arrivals s =
    (Ret tt,
     with_buffer
       (<[feedName :=
            keep_last maxBufferSize
              (default [] (buffer s !! feedName)
                 ++ (uncurry make_entry <$> arrivals))]> (buffer s)) s,
     []).
Proof.
  revert s. induction arrivals as [|[now message] l IH]; intros s Hne; [done|].
  unfold appendAll. simpl. rewrite run_bind, addToBuffer_run.
  destruct l as [|a l].
  - done.
  - fold (appendAll feedName (a :: l)). rewrite IH by done.
    simpl. rewrite lookup_insert_eq. simpl.
    rewrite keep_last_app by (unfold maxBufferSize; lia).
    unfold with_buffer. simpl. rewrite insert_insert_eq.
    by rewrite <- app_assoc.
Qed.

Lemma slice_from_all {A} (start : Z) (l : list A) :
  (start ≤ - Z.of_nat (length l))%Z → slice_from start l = l.
Proof.
  intros H. unfold slice_from.
  destruct (start <? 0)%Z eqn:Hs.
  - replace (Z.max _ 0) with 0%Z by lia. done.
  - apply Z.ltb_ge in Hs. assert (length l = 0) as Hl by lia.
    destruct l; [|done]. by rewrite drop_nil.
Qed.


(** ** Relations that every operation respects

    [R s t s'] relates the state before an operation, the effects it
    produced and the state after it.  When [R] is reflexive and transitive
    (along concatenation of traces), it passes through the control
    structure of the monad; what is left to prove is that each state update
    and each emitted effect respects it. *)

Section Respects.
Context (R : Service → list effect → Service → Prop).
Hypothesis R_refl : ∀ s, R s [] s.
Hypothesis R_trans : ∀ s1 t1 s2 t2 s3,
  R s1 t1 s2 → R s2 t2 s3 → R s1 (t1 ++ t2) s3.

Local Hint Resolve R_refl : core.

Lemma respects_ret {A} (a : A) : respects R (ret a).
Proof. intros s. apply R_refl. Qed.

Lemma respects_mret {A} (a : A) : respects R (mret a).
Proof. intros s. apply R_refl. Qed.

Lemma respects_throw {A} (e : exn) : respects R (@throw A e).
Proof. intros s. apply R_refl. Qed.

Lemma respects_gets {A} (f : Service → A) : respects R (gets f).
Proof. intros s. apply R_refl. Qed.

Lemma respects_lift_exn {A} (r : exn + A) : respects R (lift_exn r).
Proof. destruct r; intros s; apply R_refl. Qed.

Lemma respects_bind {A B} (m : M A) (k : A → M B) :
  respects R m → (∀ a, respects R (k a)) → respects R (m ≫= k).
Proof.
  intros Hm Hk s. rewrite run_bind. specialize (Hm s).
  destruct (m s) as [[[a|e|] s1] t1]; unfold trace_of, state_of in *;
    simpl in *; try done.
  specialize (Hk a s1). destruct (k a s1) as [[o s2] t2]; simpl in *.
  by eapply R_trans.
Qed.

Lemma respects_try_catch {A} (m : M A) (h : exn → M A) :
  respects R m → (∀ e, respects R (h e)) → respects R (try_catch m h).
Proof.
  intros Hm Hh s. unfold try_catch. specialize (Hm s).
  destruct (m s) as [[[a|e|] s1] t1]; unfold trace_of, state_of in *;
    simpl in *; try done.
  specialize (Hh e s1). destruct (h e s1) as [[o s2] t2]; simpl in *.
  by eapply R_trans.
Qed.

Lemma respects_for_each {A} (l : list A) (body : A → M unit) :
  (∀ x, respects R (body x)) → respects R (for_each l body).
Proof.
  intros Hb. induction l as [|x l IH]; simpl.
  - apply respects_ret.
  - apply respects_bind; auto.
Qed.

Lemma respects_run_body (l : list action) :
  (∀ a, respects R (perform a)) → respects R (run_body l).
Proof.
  intros Hp. induction l as [|a l IH]; simpl.
  - apply respects_ret.
  - apply respects_bind; auto.
Qed.

Lemma respects_Set_forEach E fuel key message index :
  (∀ cb, respects R (call_callback E cb message)) →
  (∀ l about, respects R (emit (Console l about))) →
  respects R (Set_forEach E fuel key message index).
Proof.
  intros Hcb Hemit. revert index.
  induction fuel as [|fuel IH]; intros index s; simpl;
    destruct (subscribers s !! key ≫= (.!! index)) as [e|];
    try apply R_refl.
  apply respects_bind; [|auto].
  destruct e; [|apply respects_ret].
  apply respects_try_catch; auto.
Qed.

Lemma respects_external E who message : respects R (external E who message).
Proof.
  unfold external. destruct (external_throws _ _ _);
    [apply respects_throw | apply respects_ret].
Qed.

Lemma respects_dispatch E message cases event :
  respects R (dispatch E message cases event).
Proof.
  unfold dispatch. apply respects_bind; [|intros; apply respects_external].
  induction cases as [|[t method] l IH].
  - apply respects_ret.
  - apply @respects_bind.
    + unfold type_is. apply respects_bind;
        [apply respects_lift_exn | intros; apply respects_ret].
    + intros [|]; [apply respects_external | apply IH].
Qed.

Lemma respects_call_inherited k message :
  respects R (call_inherited k message).
Proof.
  unfold call_inherited.
  repeat case_match; first [apply respects_ret | apply respects_throw].
Qed.

Lemma respects_handlers E feedName h message :
  handlers E feedName = Some h → respects R (h message).
Proof.
  unfold handlers. repeat case_match; intros [= <-];
    first [apply respects_dispatch | apply respects_call_inherited].
Qed.

(** What is left to show of [R]: the operations of the subscriber table,
    [attemptReconnect], and the updates of the other fields. *)
Hypothesis R_emit : ∀ e s, (∀ d c, e ≠ SetTimeout d c) → R s [e] s.
Hypothesis R_subscribe : ∀ f c cb, respects R (subscribe f c cb).
Hypothesis R_unsubscribe : ∀ f c cb, respects R (unsubscribe f c cb).
Hypothesis R_invoke_handle : ∀ h, respects R (invoke_handle h).
Hypothesis R_attemptReconnect : ∀ c, respects R (attemptReconnect c).
Hypothesis R_note_message : ∀ f m, respects R (note_message f m).
Hypothesis R_feeds_set : ∀ c ws,
  respects R (feeds_set (name c)
    {| websocket := ws; config := c; status := "connecting";
       lastMessage := JNull; messageCount := 0 |}).
Hypothesis R_addToBuffer : ∀ now f m, respects R (addToBuffer now f m).
Hypothesis R_cleanBuffer : ∀ E now, respects R (cleanBuffer E now).
Hypothesis R_sockets : ∀ w s, R s [] (with_sockets w s).
Hypothesis R_connections : ∀ c s, R s [] (with_connections c s).
Hypothesis R_timer_done : ∀ i, respects R (timer_done i).

Lemma respects_emit e : (∀ d c, e ≠ SetTimeout d c) → respects R (emit e).
Proof. intros He s. by apply R_emit. Qed.

Lemma respects_perform a : respects R (perform a).
Proof.
  destruct a as [f c cb|f c cb|f c cb|].
  - apply respects_bind; [apply R_subscribe | intros; apply respects_ret].
  - apply R_unsubscribe.
  - apply R_invoke_handle.
  - apply respects_throw.
Qed.

Lemma respects_call_callback E cb message :
  respects R (call_callback E cb message).
Proof.
  apply respects_bind; [by apply respects_emit|].
  intros _. apply respects_run_body, respects_perform.
Qed.

Lemma respects_notifySubscribers E fuel feedName message :
  respects R (notifySubscribers E fuel feedName message).
Proof.
  unfold notifySubscribers.
  apply respects_bind; [apply respects_lift_exn|]. intros ch.
  apply respects_bind; [apply respects_lift_exn|]. intros channel.
  apply respects_bind; [apply respects_gets|]. intros subs.
  case_decide; [|apply respects_ret].
  apply respects_Set_forEach.
  - intros cb. apply respects_call_callback.
  - intros l about. by apply respects_emit.
Qed.

Lemma respects_handleMessage E fuel now feedName data :
  respects R (handleMessage E fuel now feedName data).
Proof.
  unfold handleMessage. apply respects_try_catch.
  - apply respects_bind.
    { destruct (JSON_parse E data); [apply respects_ret | apply respects_throw]. }
    intros message. apply respects_bind; [apply R_note_message|]. intros _.
    apply respects_bind.
    { destruct (handlers E feedName) eqn:Hh;
        [by eapply respects_handlers | apply respects_ret]. }
    intros _. apply respects_bind; [apply R_addToBuffer|].
    intros _. apply respects_notifySubscribers.
  - intros e. by apply respects_emit.
Qed.

Lemma respects_connectFeed E config : respects R (connectFeed E config).
Proof.
  unfold connectFeed, new_WebSocket. apply respects_try_catch.
  - apply respects_bind; [|intros; apply R_feeds_set].
    apply respects_bind.
    { destruct (WebSocket_throws _ _);
        [apply respects_throw | apply respects_ret]. }
    intros _. apply respects_bind; [apply respects_gets|]. intros ws.
    apply respects_bind; [|intros; apply respects_ret].
    intros s. apply R_sockets.
  - intros e. apply respects_bind; [by apply respects_emit | auto].
Qed.

Lemma respects_set_readyState ws r : respects R (set_readyState ws r).
Proof. intros s. apply R_sockets. Qed.

Lemma respects_ws_onclose config : respects R (ws_onclose config).
Proof.
  unfold ws_onclose. apply respects_bind; [by apply respects_emit|].
  intros _. apply respects_bind; [|auto]. intros s. apply R_connections.
Qed.

Lemma respects_sendHeartbeat now : respects R (sendHeartbeat now).
Proof.
  unfold sendHeartbeat. apply respects_bind; [apply respects_gets|].
  intros fs. apply respects_for_each. intros [feedName feed].
  apply respects_bind; [apply respects_gets|]. intros [w|];
    [|apply respects_ret].
  case_decide; [by apply respects_emit | apply respects_ret].
Qed.

Lemma respects_checkConnectionHealth E now :
  respects R (checkConnectionHealth E now).
Proof.
  unfold checkConnectionHealth. apply respects_bind; [apply respects_gets|].
  intros fs. apply respects_for_each. intros [feedName feed].
  unfold check_feed.
  apply @respects_bind; [apply respects_lift_exn|].
  intros [|]; [|apply respects_ret].
  apply respects_bind; [by apply respects_emit|]. intros _.
  apply @respects_bind; [apply respects_gets|].
  intros [|]; [auto | apply respects_ret].
Qed.

(** Every task of the event loop respects [R], provided [ws_onopen] does
    when the task is the opening of a socket. *)
Lemma respects_task E fuel ev :
  (∀ ws, ev = SocketOpens ws → ∀ config, respects R (ws_onopen ws config)) →
  respects R (task E fuel ev).
Proof.
  intros Hopen. destruct ev; cbn [task]; unfold on_socket.
  - apply respects_connectFeed.
  - apply respects_bind; [apply respects_gets|]. intros [[d config]|];
      [|apply respects_ret].
    apply respects_bind; [apply R_timer_done|]. intros _.
    apply respects_connectFeed.
  - apply respects_bind; [apply respects_gets|]. intros [w|];
      [|apply respects_ret].
    case_decide; [|apply respects_ret].
    apply respects_bind; [apply respects_set_readyState|]. intros _.
    by eapply Hopen.
  - apply respects_bind; [apply respects_gets|]. intros [w|];
      [|apply respects_ret].
    case_decide; [|apply respects_ret]. apply respects_handleMessage.
  - apply respects_bind; [apply respects_gets|]. intros [w|];
      [|apply respects_ret].
    by apply respects_emit.
  - apply respects_bind; [apply respects_gets|]. intros [w|];
      [|apply respects_ret].
    case_decide; [apply respects_ret|].
    apply respects_bind; [apply respects_set_readyState|]. intros _.
    apply respects_ws_onclose.
  - apply R_cleanBuffer.
  - apply respects_sendHeartbeat.
  - apply respects_checkConnectionHealth.
  - apply respects_bind; [apply R_subscribe | intros; apply respects_ret].
  - apply R_unsubscribe.
  - apply R_invoke_handle.
Qed.

Lemma respects_run E fuel evs :
  (∀ ws, SocketOpens ws ∈ evs → ∀ config, respects R (ws_onopen ws config)) →
  respects R (run E fuel evs).
Proof.
  induction evs as [|ev evs IH]; intros Hopen; simpl.
  - apply respects_ret.
  - apply respects_bind.
    + apply respects_try_catch.
      * apply respects_task. intros ws -> config. apply Hopen. left.
      * intros e. by apply respects_emit.
    + intros _. apply IH. intros ws Hin. apply Hopen. by right.
Qed.
End Respects.

(** ** Subscriber table *)

Lemma open_socket_with_subscribers m s feedName :
  open_socket (with_subscribers m s) feedName = open_socket s feedName.
Proof. reflexivity. Qed.

Lemma subscribe_run feedName channel callback s :
  subscribe feedName channel callback s =
    (Ret (subscription_key feedName channel, callback),
     with_subscribers
       (<[subscription_key feedName channel :=
            set_add callback
              (default [] (subscribers s !! subscription_key feedName channel))]>
          (subscribers s)) s,
     match open_socket s feedName with
     | Some ws => [Send ws (FSubscribe channel)]
     | None => []
     end).
Proof.
  unfold subscribe. rewrite run_gets.
  set (key := subscription_key feedName channel).
  assert (Hst : ∀ s0 : Service,
    subscribers s0 !! key = Some (default [] (subscribers s !! key)) →
    feeds s0 = feeds s → sockets s0 = sockets s →
    with_subscribers (alter (set_add callback) key (subscribers s0)) s0 =
    with_subscribers (<[key := set_add callback (default [] (subscribers s !! key))]>
                        (subscribers s0)) s0).
  { intros s0 H0 _ _. f_equal. apply map_eq. intros k.
    destruct (decide (key = k)) as [<-|Hne].
    - by rewrite lookup_alter_eq, lookup_insert_eq, H0.
    - by rewrite lookup_alter_ne, lookup_insert_ne. }
  case_decide as Hs.
  - rewrite run_ret, run_modify, run_gets.
    destruct Hs as [d Hd]. rewrite Hst by (by rewrite ?Hd).
    rewrite open_socket_with_subscribers.
    destruct (open_socket s feedName); [rewrite run_emit|rewrite run_ret]; done.
  - rewrite run_modify, run_modify, run_gets.
    assert (subscribers s !! key = None) as Hn.
    { destruct (subscribers s !! key); [exfalso; eauto | done]. }
    rewrite Hst by (simpl; rewrite ?lookup_insert_eq, ?Hn; done).
    rewrite !open_socket_with_subscribers. simpl. rewrite insert_insert_eq.
    destruct (open_socket s feedName); [rewrite run_emit|rewrite run_ret]; done.
Qed.

Lemma unsubscribe_run feedName channel callback s :
  unsubscribe feedName channel callback s =
    match subscribers s !! subscription_key feedName channel with
    | Some d =>
        (Ret tt,
         with_subscribers
           (<[subscription_key feedName channel := set_delete callback d]>
              (subscribers s)) s,
         if decide (set_size (set_delete callback d) = 0) then
           match open_socket s feedName with
           | Some ws => [Send ws (FUnsubscribe channel)]
           | None => []
           end
         else [])
    | None => (Ret tt, s, [])
    end.
Proof.
  unfold unsubscribe. rewrite run_gets.
  destruct (subscribers s !! _) as [d|]; [|done].
  rewrite run_modify. case_decide; [|done].
  rewrite run_gets, open_socket_with_subscribers.
  by destruct (open_socket s feedName).
Qed.

Lemma invoke_handle_run key callback s :
  invoke_handle (key, callback) s =
    (Ret tt,
     match subscribers s !! key with
     | Some d => with_subscribers (<[key := set_delete callback d]> (subscribers s)) s
     | None => s
     end, []).
Proof. reflexivity. Qed.

Lemma table_step_frame feedName channel c s :
  feeds (state_of (table_step feedName channel c s)) = feeds s
  ∧ sockets (state_of (table_step feedName channel c s)) = sockets s.
Proof.
  destruct c as [cb|cb]; simpl.
  - rewrite run_bind, subscribe_run. done.
  - rewrite unsubscribe_run. by destruct (subscribers s !! _).
Qed.

Lemma open_socket_table_step feedName channel c s f :
  open_socket (state_of (table_step feedName channel c s)) f = open_socket s f.
Proof.
  destruct (table_step_frame feedName channel c s) as [Hf Hs].
  unfold open_socket. by rewrite Hf, Hs.
Qed.

Lemma occurrences_app f l1 l2 :
  occurrences f (l1 ++ l2) = occurrences f l1 + occurrences f l2.
Proof. unfold occurrences. by rewrite filter_app, length_app. Qed.

Lemma occurrences_one f : occurrences f [f] = 1.
Proof. unfold occurrences. by rewrite filter_cons_True. Qed.

Lemma occurrences_other f g : g ≠ f → occurrences f [g] = 0.
Proof. intros. unfold occurrences. by rewrite filter_cons_False. Qed.

Lemma members_insert s feedName channel d :
  members (with_subscribers
             (<[subscription_key feedName channel := d]> (subscribers s)) s)
    feedName channel = set_size d.
Proof. unfold members. simpl. by rewrite lookup_insert_eq. Qed.

(** What one call puts on the wire while the feed is open. *)
Lemma table_step_wire feedName channel c s ws :
  open_socket s feedName = Some ws →
  sent (trace_of (table_step feedName channel c s)) =
    match c with
    | DoSubscribe _ => [FSubscribe channel]
    | DoUnsubscribe _ =>
        if bool_decide
             (is_Some (subscribers s !! subscription_key feedName channel)
              ∧ members (state_of (table_step feedName channel c s))
                  feedName channel = 0)
        then [FUnsubscribe channel] else []
    end.
Proof.
  intros Hopen. destruct c as [cb|cb]; simpl.
  - rewrite run_bind, subscribe_run, Hopen. done.
  - rewrite unsubscribe_run.
    destruct (subscribers s !! _) as [d|] eqn:Hd; unfold trace_of, state_of; simpl.
    + rewrite members_insert, Hopen.
      case_decide as Hz.
      * rewrite bool_decide_eq_true_2 by (split; [eauto|done]). done.
      * rewrite bool_decide_eq_false_2 by (intros [_ ?]; done). done.
    + done.
Qed.

Lemma set_size_delete_le x d : set_size (set_delete x d) ≤ set_size d.
Proof.
  unfold set_size, set_values, set_delete.
  induction d as [|[y|] d IH]; csimpl; [done| |done].
  case_decide; csimpl; lia.
Qed.

Lemma set_size_add_pos x d : set_size (set_add x d) ≠ 0.
Proof.
  unfold set_add, set_has. case_bool_decide as Hin.
  - unfold set_size, set_values. apply list_elem_of_split in Hin as (l1 & l2 & ->).
    rewrite omap_app, length_app. simpl. lia.
  - unfold set_size, set_values. rewrite omap_app, length_app. simpl. lia.
Qed.

(** C1 (amended). While the feed's connection is open, every [subscribe]
    call puts exactly one subscribe frame on the wire, whether or not the
    channel already had subscribers; an [unsubscribe] call that takes the
    subscriber set from nonzero to zero puts exactly one unsubscribe frame
    on the wire, and one that leaves subscribers puts none.  Over a
    sequence of calls the subscribe frames are as many as the subscribe
    calls, which is at least the number of zero-to-nonzero transitions, and
    the unsubscribe frames are at least as many as the nonzero-to-zero
    transitions. *)
Theorem wire_actions_per_call (feedName channel : string)
    (calls : list table_call) (s : Service) (ws : nat) :
  open_socket s feedName = Some ws →
  (∀ cb, sent (trace_of (subscribe feedName channel cb s)) = [FSubscribe channel])
  ∧ (∀ cb, members s feedName channel ≠ 0 →
       sent (trace_of (unsubscribe feedName channel cb s)) =
         if decide (members (state_of (unsubscribe feedName channel cb s))
                      feedName channel = 0)
         then [FUnsubscribe channel] else [])
  ∧ occurrences (FSubscribe channel) (wire (table_run feedName channel calls s))
    = subscribe_calls calls
  ∧ ups (table_run feedName channel calls s)
    ≤ occurrences (FSubscribe channel) (wire (table_run feedName channel calls s))
  ∧ downs (table_run feedName channel calls s)
    ≤ occurrences (FUnsubscribe channel) (wire (table_run feedName channel calls s)).
Proof.
  intros Hopen. split; [|split].
  - intros cb. by rewrite subscribe_run, Hopen.
  - intros cb Hm. rewrite unsubscribe_run. unfold members in Hm.
    destruct (subscribers s !! _) as [d|] eqn:Hd; [|done].
    unfold trace_of, state_of; simpl. rewrite members_insert, Hopen.
    by case_decide.
  - revert s Hopen. induction calls as [|c calls IH]; intros s Hopen.
    { simpl. unfold occurrences, subscribe_calls. simpl. lia. }
    assert (Hopen' : open_socket (state_of (table_step feedName channel c s))
                       feedName = Some ws)
      by (by rewrite open_socket_table_step).
    destruct (IH _ Hopen') as (IH1 & IH2 & IH3). clear IH.
    cbn [table_run wire ups downs]. rewrite !occurrences_app.
    rewrite (table_step_wire _ _ _ _ _ Hopen).
    destruct c as [cb|cb].
    + (* subscribe *)
      assert (Hafter : members (state_of (table_step feedName channel
                                  (DoSubscribe cb) s)) feedName channel ≠ 0).
      { simpl. rewrite run_bind, subscribe_run. unfold state_of; simpl.
        rewrite members_insert. apply set_size_add_pos. }
      rewrite (bool_decide_eq_false_2 (_ ≠ 0 ∧ _ = 0)) by (intros [_ ?]; done).
      unfold subscribe_calls in *. rewrite filter_cons_True by done.
      rewrite occurrences_one, occurrences_other by done.
      case_bool_decide; cbn [length]; lia.
    + (* unsubscribe *)
      set (after := members (state_of (table_step feedName channel
                               (DoUnsubscribe cb) s)) feedName channel) in *.
      assert (Hle : after ≤ members s feedName channel).
      { subst after. simpl. rewrite unsubscribe_run. unfold members.
        destruct (subscribers s !! _) as [d|] eqn:Hd; unfold state_of; simpl.
        - rewrite lookup_insert_eq. simpl. apply set_size_delete_le.
        - by rewrite Hd. }
      rewrite (bool_decide_eq_false_2 (_ = 0 ∧ _ ≠ 0)) by (intros [? ?]; lia).
      unfold subscribe_calls in *. rewrite filter_cons_False by done.
      assert (Hsub : occurrences (FSubscribe channel)
                (if bool_decide
                      (is_Some (subscribers s !! subscription_key feedName channel)
                       ∧ after = 0)
                 then [FUnsubscribe channel] else []) = 0).
      { case_bool_decide; [by apply occurrences_other | done]. }
      rewrite Hsub. split; [exact IH1|]. split; [exact IH2|].
      destruct (bool_decide_reflect (members s feedName channel ≠ 0 ∧ after = 0))
        as [[Hb Ha]|Hn]; [|lia].
      rewrite bool_decide_eq_true_2.
      { rewrite occurrences_one. lia. }
      split; [|done]. unfold members in Hb.
      destruct (subscribers s !! _); [eauto|done].
Qed.

(** C1, as stated, fails on the open market feed: two subscribers of one
    channel are one zero-to-nonzero transition but two subscribe frames, and
    an unsubscribe repeated on the emptied set is one nonzero-to-zero
    transition but two unsubscribe frames. *)
Lemma wire_actions_not_once_per_transition :
  open_socket Demo.open_market "market" = Some 0
  ∧ (let r := table_run "market" "BTCUSDT" [DoSubscribe 1; DoSubscribe 2]
                Demo.open_market in
     ups r = 1 ∧ occurrences (FSubscribe "BTCUSDT") (wire r) = 2)
  ∧ (let r := table_run "market" "BTCUSDT"
                [DoSubscribe 1; DoUnsubscribe 1; DoUnsubscribe 1]
                Demo.open_market in
     downs r = 1 ∧ occurrences (FUnsubscribe "BTCUSDT") (wire r) = 2)
  ∧ ¬ (∀ calls,
         let r := table_run "market" "BTCUSDT" calls Demo.open_market in
         occurrences (FSubscribe "BTCUSDT") (wire r) = ups r
         ∧ occurrences (FUnsubscribe "BTCUSDT") (wire r) = downs r).
Proof.
  split; [by vm_compute|]. split; [by vm_compute|]. split; [by vm_compute|].
  intros H. specialize (H [DoSubscribe 1; DoSubscribe 2]).
  vm_compute in H. destruct H as [H _]. discriminate H.
Qed.

(** Two subscribers and one unsubscribe on the open market feed. *)
Lemma wire_actions_per_call_witness :
  open_socket Demo.open_market "market" = Some 0
  ∧ occurrences (FSubscribe "BTCUSDT")
      (wire (table_run "market" "BTCUSDT"
               [DoSubscribe 1; DoSubscribe 2; DoUnsubscribe 1] Demo.open_market))
    = subscribe_calls [DoSubscribe 1; DoSubscribe 2; DoUnsubscribe 1].
Proof.
  split; [reflexivity|].
  apply (wire_actions_per_call "market" "BTCUSDT"
           [DoSubscribe 1; DoSubscribe 2; DoUnsubscribe 1] Demo.open_market 0).
  reflexivity.
Defined.

Lemma attemptReconnect_run config s :
  attemptReconnect config s =
    let attempts := default 0 (reconnectAttempts s !! name config) in
    if decide (maxReconnectAttempts config ≤ attempts) then
      (Ret tt, s,
       [Console Error ("Max reconnect attempts reached for " +:+ name config)])
    else
      (Ret tt,
       with_timers (timers s ++ [(reconnectInterval config, config)])
         (with_reconnectAttempts
            (<[name config := S attempts]> (reconnectAttempts s)) s),
       [Console Log ("Attempting to reconnect to " +:+ name config);
        SetTimeout (reconnectInterval config) config]).
Proof.
  unfold attemptReconnect. rewrite run_gets. simpl. by case_decide.
Qed.

Lemma for_each_emit {A} (l : list A) (f : A → effect) s :
  for_each l (fun x => emit (f x)) s = (Ret tt, s, f <$> l).
Proof.
  induction l as [|x l IH]; [done|]. simpl. by rewrite run_emit, IH.
Qed.

(** No name of [Object.prototype] is one of the four feeds. *)
Lemma inherited_default_channels feedName :
  inherited feedName = true → default_channels feedName = [].
Proof.
  unfold inherited, Object_prototype. intros Hin%bool_decide_eq_true.
  repeat (apply elem_of_cons in Hin as [->|Hin]; [reflexivity|]).
  by apply elem_of_nil in Hin.
Qed.

Lemma ws_onopen_run ws config s :
  ws_onopen ws config s =
    ((if inherited (name config) then Throw TypeError else Ret tt),
     with_reconnectAttempts (<[name config := 0]> (reconnectAttempts s))
       (with_connections (<[name config := ws]> (connections s)) s),
     Console Log ("Connected to " +:+ name config)
       :: ((fun channel => Send ws (FSubscribe channel))
             <$> default_channels (name config))).
Proof.
  unfold ws_onopen, subscribeToDefaultChannels.
  rewrite run_emit, !run_modify.
  destruct (inherited (name config)) eqn:Hin.
  - by rewrite (inherited_default_channels _ Hin).
  - by rewrite for_each_emit.
Qed.

Lemma set_values_delete x d :
  set_values (set_delete x d) = filter (fun y => y ≠ x) (set_values d).
Proof.
  unfold set_values, set_delete.
  induction d as [|[y|] d IH]; csimpl; [done| |done].
  case_decide as Hy.
  - injection Hy as Hy. subst y. csimpl.
    by rewrite filter_cons_False by (intros ?; done).
  - csimpl. rewrite filter_cons_True by congruence. by rewrite IH.
Qed.

Lemma keeps_entry_run E fuel evs key :
  respects (keeps_entry key) (run E fuel evs).
Proof.
  apply respects_run; unfold keeps_entry; try done.
  - eauto.
  - intros f c cb s. rewrite subscribe_run. unfold state_of; simpl.
    rewrite lookup_insert. case_decide; eauto.
  - intros f c cb s. rewrite unsubscribe_run.
    destruct (subscribers s !! subscription_key f c); unfold state_of; simpl;
      [|done].
    rewrite lookup_insert. case_decide; eauto.
  - intros [k cb] s. rewrite invoke_handle_run. unfold state_of; simpl.
    destruct (subscribers s !! k); simpl; [|done].
    rewrite lookup_insert. case_decide; eauto.
  - intros c s. rewrite attemptReconnect_run. simpl. by case_decide.
  - intros f m s. unfold note_message, modify, state_of; simpl.
    by destruct (assoc f (feeds s)).
  - by intros c ws s.
  - intros now f m s. by rewrite addToBuffer_run.
  - by intros E' now s.
  - by intros i s.
  - intros ws _ config s. by rewrite ws_onopen_run.
Qed.

(** C6 (amended). The subscriber table never drops an entry: whatever
    events follow, a (feed, channel) that has an entry keeps it.
    [unsubscribe] of the last subscriber leaves the entry in place holding
    an empty set, and puts the unsubscribe frame on the wire when the feed
    is open.  Invoking the handle returned by
    [subscribe(feed, channel, callback)] changes the service state exactly
    as [unsubscribe(feed, channel, callback)] does. *)
Theorem subscriber_entries_persist (E : Env) (fuel : nat) (evs : list event)
    (s : Service) (feedName channel : string) (callback : nat) (d : SetData) :
  subscribers s !! subscription_key feedName channel = Some d →
  set_values d = [callback] →
  is_Some (subscribers (state_of (run E fuel evs s))
             !! subscription_key feedName channel)
  ∧ (∃ d', subscribers (state_of (unsubscribe feedName channel callback s))
             !! subscription_key feedName channel = Some d'
           ∧ set_size d' = 0)
  ∧ sent (trace_of (unsubscribe feedName channel callback s)) =
      match open_socket s feedName with
      | Some _ => [FUnsubscribe channel]
      | None => []
      end
  ∧ (∀ s0 cb h s1,
       outcome (subscribe feedName channel cb s0) = Ret h →
       state_of (invoke_handle h s1)
       = state_of (unsubscribe feedName channel cb s1)).
Proof.
  intros Hd Hlast.
  assert (Hempty : set_size (set_delete callback d) = 0).
  { unfold set_size. rewrite set_values_delete, Hlast.
    by rewrite filter_cons_False by (intros ?; done). }
  split; [|split; [|split]].
  - apply (keeps_entry_run E fuel evs). eauto.
  - rewrite unsubscribe_run, Hd. unfold state_of; simpl.
    rewrite lookup_insert_eq. eauto.
  - rewrite unsubscribe_run, Hd. unfold trace_of; simpl.
    rewrite decide_True by done. by destruct (open_socket s feedName).
  - intros s0 cb h s1. rewrite subscribe_run. unfold outcome; simpl.
    intros [= <-]. rewrite invoke_handle_run, unsubscribe_run.
    by destruct (subscribers s1 !! _).
Qed.

(** C6, as stated, fails: after [subscribe] then [unsubscribe] of the only
    subscriber the table still holds the entry, with an empty set; and on
    the open market feed the handle of the only subscriber sends nothing
    where [unsubscribe] sends the unsubscribe frame. *)
Lemma empty_set_stays_in_table :
  (let s := state_of (run Demo.env 0
                        [ApiSubscribe "market" "BTCUSDT" 1;
                         ApiUnsubscribe "market" "BTCUSDT" 1] new_service) in
   subscribers s !! "market:BTCUSDT" = Some [None] ∧ ¬ no_empty_set s)
  ∧ (let s1 := state_of (subscribe "market" "BTCUSDT" 1 Demo.open_market) in
     sent (trace_of (unsubscribe "market" "BTCUSDT" 1 s1)) = [FUnsubscribe "BTCUSDT"]
     ∧ sent (trace_of (invoke_handle ("market:BTCUSDT", 1) s1)) = []).
Proof.
  split; [|by vm_compute].
  assert (Hs : subscribers (state_of (run Demo.env 0
                        [ApiSubscribe "market" "BTCUSDT" 1;
                         ApiUnsubscribe "market" "BTCUSDT" 1] new_service))
               !! "market:BTCUSDT" = Some [None]) by (by vm_compute).
  split; [exact Hs|].
  intros H. by apply (H _ _ Hs).
Qed.

(** The only subscriber of (market, BTCUSDT) unsubscribes. *)
Lemma subscriber_entries_persist_witness :
  let s := state_of (subscribe "market" "BTCUSDT" 1 Demo.open_market) in
  subscribers s !! subscription_key "market" "BTCUSDT" = Some [Some 1]
  ∧ set_values [Some 1] = [1]
  ∧ is_Some (subscribers
               (state_of (run Demo.env 0 [ApiUnsubscribe "market" "BTCUSDT" 1] s))
               !! subscription_key "market" "BTCUSDT").
Proof.
  split; [reflexivity|]. split; [reflexivity|].
  apply (subscriber_entries_persist Demo.env 0
           [ApiUnsubscribe "market" "BTCUSDT" 1]
           (state_of (subscribe "market" "BTCUSDT" 1 Demo.open_market))
           "market" "BTCUSDT" 1 [Some 1]); reflexivity.
Defined.

(** ** Buffer bounds *)

Lemma buffers_bounded_buffer s s' :
  buffer s' = buffer s → buffers_bounded s → buffers_bounded s'.
Proof. unfold buffers_bounded. by intros ->. Qed.

Lemma keeps_buffers_bounded_run E fuel evs :
  respects keeps_buffers_bounded (run E fuel evs).
Proof.
  apply respects_run; unfold keeps_buffers_bounded; try done.
  - eauto.
  - intros f c cb s. rewrite subscribe_run. by apply buffers_bounded_buffer.
  - intros f c cb s. rewrite unsubscribe_run.
    destruct (subscribers s !! _); [by apply buffers_bounded_buffer | done].
  - intros [k cb] s. rewrite invoke_handle_run. unfold state_of; simpl.
    destruct (subscribers s !! k); [by apply buffers_bounded_buffer | done].
  - intros c s. rewrite attemptReconnect_run. simpl.
    case_decide; [done | by apply buffers_bounded_buffer].
  - intros f m s. unfold note_message, modify, state_of; simpl.
    destruct (assoc f (feeds s)); [by apply buffers_bounded_buffer | done].
  - by intros c ws s.
  - intros now f m s. rewrite addToBuffer_run. unfold state_of; simpl.
    intros Hb. apply map_Forall_insert_2; [apply keep_last_length | done].
  - intros E' now s Hb. unfold cleanBuffer, modify, state_of; simpl.
    intros f messages. simpl. rewrite lookup_fmap.
    destruct (buffer s !! f) as [old|] eqn:Hold; [|done].
    intros [= <-]. specialize (Hb f old Hold). simpl in Hb.
    pose proof (length_filter (fun msg => within_maxAge E' now msg = true) old).
    lia.
  - by intros i s.
  - intros ws _ config s. rewrite ws_onopen_run. by apply buffers_bounded_buffer.
Qed.

(** C7. After any append the buffer of the feed holds at most 1000 entries
    (and the other feeds' buffers are untouched), so that no buffer of a
    running service is ever longer than 1000; after any cleaning pass
    every stored entry is less than five minutes old; and after 1500
    messages have been appended to a feed, whatever it held before,
    [getBuffer(feed, 2000)] is the 1000 most recent of them, oldest first,
    each exactly once. *)
Theorem buffer_cap_window_and_recent (E : Env) (s : Service) (feedName : string)
    (now : Z) (message : json) (arrivals : list (Z * json)) :
  length arrivals = 1500 →
  (length (default [] (buffer (state_of (addToBuffer now feedName message s))
                        !! feedName)) ≤ 1000
   ∧ (∀ other, other ≠ feedName →
        buffer (state_of (addToBuffer now feedName message s)) !! other
        = buffer s !! other)
   ∧ (∀ fuel evs feed messages,
        buffer (state_of (run E fuel evs new_service)) !! feed = Some messages →
        length messages ≤ 1000))
  ∧ map_Forall
      (fun _ messages =>
         Forall (fun msg =>
           ∃ t, ToNumber (NumberToString E) (StringToNumber E)
                  (assoc "timestamp" msg) = inr (Some t)
                ∧ (now - t < 5 * 60 * 1000)%Z) messages)
      (buffer (state_of (cleanBuffer E now s)))
  ∧ (outcome (appendAll feedName arrivals s) = Ret tt
     ∧ getBuffer (state_of (appendAll feedName arrivals s)) feedName (Some 2000%Z)
       = uncurry make_entry <$> drop 500 arrivals
     ∧ length (getBuffer (state_of (appendAll feedName arrivals s)) feedName
                 (Some 2000%Z)) = 1000
     ∧ (NoDup (uncurry make_entry <$> arrivals) →
        NoDup (getBuffer (state_of (appendAll feedName arrivals s)) feedName
                 (Some 2000%Z)))).
Proof.
  intros Hlen. split; [|split].
  - rewrite addToBuffer_run. unfold state_of; simpl. split; [|split].
    + rewrite lookup_insert_eq. simpl. apply keep_last_length.
    + intros other Hne. by rewrite lookup_insert_ne.
    + intros fuel evs feed messages Hfeed.
      by apply (keeps_buffers_bounded_run E fuel evs new_service
                  ltac:(by intros ? ?) feed messages).
  - unfold cleanBuffer, modify, state_of; simpl.
    intros f messages Hf. rewrite lookup_fmap in Hf.
    destruct (buffer s !! f) as [old|]; [|done]. simpl in Hf.
    injection Hf as <-. apply Forall_forall. intros msg Hin.
    apply list_elem_of_filter in Hin as [Hfresh _].
    unfold within_maxAge in Hfresh.
    destruct (ToNumber _ _ _) as [e|[t|]]; [done| |done].
    exists t. split; [done|]. apply bool_decide_eq_true in Hfresh.
    unfold maxAge in Hfresh. lia.
  - assert (Hne : arrivals ≠ []) by (intros ->; done).
    rewrite (appendAll_run _ _ _ Hne). unfold outcome, state_of; simpl.
    assert (Hbuf : getBuffer
      (with_buffer (<[feedName := keep_last maxBufferSize
         (default [] (buffer s !! feedName) ++ (uncurry make_entry <$> arrivals))]>
         (buffer s)) s) feedName (Some 2000%Z)
      = uncurry make_entry <$> drop 500 arrivals).
    { unfold getBuffer. simpl. rewrite lookup_insert_eq. simpl.
      rewrite slice_from_all
        by (pose proof (keep_last_length maxBufferSize
              (default [] (buffer s !! feedName) ++ (uncurry make_entry <$> arrivals)));
            unfold maxBufferSize in *; lia).
      unfold keep_last. rewrite length_app, length_fmap, Hlen.
      rewrite drop_app_ge by (unfold maxBufferSize; lia).
      rewrite <- fmap_drop. f_equal. f_equal. unfold maxBufferSize. lia. }
    rewrite Hbuf. split; [done|]. split; [done|]. split.
    + rewrite length_fmap, length_drop. lia.
    + intros Hnd. rewrite fmap_drop.
      rewrite <- (take_drop 500 (uncurry make_entry <$> arrivals)) in Hnd.
      by apply NoDup_app in Hnd as (_ & _ & ?).
Qed.

(** The buffer after 1500 numbered messages on a fresh service. *)
Lemma buffer_cap_window_and_recent_witness :
  length Demo.arrivals = 1500
  ∧ getBuffer (state_of (appendAll "market" Demo.arrivals new_service))
      "market" (Some 2000%Z)
    = uncurry make_entry <$> drop 500 Demo.arrivals.
Proof.
  assert (H : length Demo.arrivals = 1500) by reflexivity.
  split; [exact H|].
  exact (proj1 (proj2 (proj2 (proj2
    (buffer_cap_window_and_recent Demo.env new_service "market" 0%Z JNull
       Demo.arrivals H))))).
Defined.

(** ** Notification *)

Lemma invoked_app t1 t2 : invoked (t1 ++ t2) = invoked t1 ++ invoked t2.
Proof. apply omap_app. Qed.

Lemma logged_errors_app t1 t2 :
  logged_errors (t1 ++ t2) = logged_errors t1 ++ logged_errors t2.
Proof. apply omap_app. Qed.

(** An action on another key leaves the Set under [key] as it is, invokes no
    callback, logs nothing, and throws only if it is a [throw]. *)
Lemma perform_other_key key a s :
  action_key a ≠ Some key →
  subscribers (state_of (perform a s)) !! key = subscribers s !! key
  ∧ invoked (trace_of (perform a s)) = []
  ∧ logged_errors (trace_of (perform a s)) = []
  ∧ outcome (perform a s) =
      if decide (a = DoThrow) then Throw CallbackError else Ret tt.
Proof.
  intros Hk. destruct a as [f c cb|f c cb|f c cb|]; simpl in Hk.
  - cbn [perform]. rewrite run_bind, subscribe_run.
    unfold state_of, trace_of, outcome; simpl.
    rewrite lookup_insert_ne by congruence.
    by destruct (open_socket s f).
  - cbn [perform]. rewrite unsubscribe_run.
    destruct (subscribers s !! subscription_key f c) as [d|];
      unfold state_of, trace_of, outcome; simpl; [|done].
    rewrite lookup_insert_ne by congruence.
    case_decide; [|done]. by destruct (open_socket s f).
  - cbn [perform]. rewrite invoke_handle_run.
    unfold state_of, trace_of, outcome; simpl.
    destruct (subscribers s !! subscription_key f c) as [d|]; simpl; [|done].
    by rewrite lookup_insert_ne by congruence.
  - done.
Qed.

Lemma run_body_other_key key l s :
  (∀ a, a ∈ l → action_key a ≠ Some key) →
  subscribers (state_of (run_body l s)) !! key = subscribers s !! key
  ∧ invoked (trace_of (run_body l s)) = []
  ∧ logged_errors (trace_of (run_body l s)) = []
  ∧ outcome (run_body l s) =
      if decide (DoThrow ∈ l) then Throw CallbackError else Ret tt.
Proof.
  revert s. induction l as [|a l IH]; intros s Hl.
  - done.
  - cbn [run_body]. destruct (decide (a = DoThrow)) as [->|Ha].
    { cbn [perform]. rewrite run_throw. rewrite decide_True by left. done. }
    rewrite run_bind.
    destruct (perform_other_key key a s) as (Hs & Hi & Hc & Ho);
      [apply Hl; left|].
    rewrite decide_False in Ho by done.
    destruct (perform a s) as [[o s1] t1]. unfold state_of, trace_of, outcome in *.
    simpl in *. subst o.
    destruct (IH s1) as (Hs' & Hi' & Hc' & Ho');
      [intros; apply Hl; by right|].
    destruct (run_body l s1) as [[o2 s2] t2]. simpl in *.
    rewrite invoked_app, logged_errors_app, Hi, Hi', Hc, Hc', Hs', Hs, Ho'.
    repeat split; try done.
    destruct (decide (DoThrow ∈ l)) as [Hin|Hnin].
    + rewrite decide_True by (by right). done.
    + rewrite decide_False; [done|]. intros [?|?]%elem_of_cons; done.
Qed.

(** One step of the walk: [try { callback(message) } catch { log }]. *)
Lemma guarded_call_other_key E key message cb s :
  (∀ a, a ∈ behaviour E cb message → action_key a ≠ Some key) →
  let r := try_catch (call_callback E cb message)
             (fun _ => emit (Console Error "Error in subscriber callback:")) s in
  outcome r = Ret tt
  ∧ subscribers (state_of r) !! key = subscribers s !! key
  ∧ invoked (trace_of r) = [(cb, message)]
  ∧ length (logged_errors (trace_of r)) =
      if decide (throws E message cb) then 1 else 0.
Proof.
  intros Hq. unfold try_catch, call_callback. rewrite run_emit.
  destruct (run_body_other_key key (behaviour E cb message) s Hq)
    as (Hs & Hi & Hc & Ho).
  destruct (run_body _ s) as [[o s1] t1]. unfold state_of, trace_of, outcome in *.
  simpl in *. subst o. unfold throws.
  destruct (decide (DoThrow ∈ behaviour E cb message)); simpl.
  - rewrite invoked_app, logged_errors_app, Hi, Hc. done.
  - rewrite Hi, Hc. done.
Qed.

Lemma leave_alone_elim E key message d cb a :
  leave_alone E key message d →
  cb ∈ set_values d → a ∈ behaviour E cb message → action_key a ≠ Some key.
Proof.
  unfold leave_alone. rewrite Forall_forall. intros H Hcb Ha.
  specialize (H cb Hcb). rewrite Forall_forall in H. by apply H.
Qed.

Lemma Set_forEach_left_alone E key message d :
  leave_alone E key message d →
  ∀ fuel index s,
    subscribers s !! key = Some d →
    length d ≤ index + fuel →
    let r := Set_forEach E fuel key message index s in
    outcome r = Ret tt
    ∧ subscribers (state_of r) !! key = Some d
    ∧ invoked (trace_of r) = (fun cb => (cb, message)) <$> set_values (drop index d)
    ∧ length (logged_errors (trace_of r)) =
        length (filter (throws E message) (set_values (drop index d))).
Proof.
  intros Hq. induction fuel as [|fuel IH]; intros index s Hd Hlen.
  - assert (d !! index = None) as Hnone by (apply lookup_ge_None; lia).
    simpl. rewrite Hd. simpl. rewrite Hnone.
    rewrite drop_ge by lia. done.
  - cbn [Set_forEach]. rewrite Hd. simpl.
    destruct (d !! index) as [e|] eqn:He.
    2: { apply lookup_ge_None in He. rewrite drop_ge by lia. done. }
    rewrite (drop_S _ _ _ He). rewrite run_bind.
    destruct e as [cb|].
    + assert (Hcb : ∀ a, a ∈ behaviour E cb message → action_key a ≠ Some key).
      { intros a Ha. apply (leave_alone_elim _ _ _ _ cb a Hq); [|done].
        unfold set_values.
        apply list_elem_of_omap. exists (Some cb). split; [|done].
        eapply list_elem_of_lookup_2, He. }
      destruct (guarded_call_other_key E key message cb s Hcb)
        as (Ho & Hs & Hi & Hc).
      destruct (try_catch _ _ s) as [[o s1] t1].
      unfold state_of, trace_of, outcome in *. simpl in *. subst o.
      destruct (IH (S index) s1) as (Ho' & Hs' & Hi' & Hc');
        [by rewrite Hs | lia |].
      destruct (Set_forEach E fuel key message (S index) s1) as [[o2 s2] t2].
      simpl in *. rewrite invoked_app, logged_errors_app, length_app.
      unfold set_values at 1 2. csimpl. fold (set_values (drop (S index) d)).
      rewrite Hi, Hi', Hc, Hc', Hs', Ho'. repeat split; try done.
      case_decide.
      * by rewrite filter_cons_True.
      * by rewrite filter_cons_False.
    + cbn [ret]. cbv iota beta.
      destruct (IH (S index) s) as (Ho' & Hs' & Hi' & Hc'); [done | lia |].
      destruct (Set_forEach E fuel key message (S index) s) as [[o2 s2] t2].
      done.
Qed.


Lemma notifySubscribers_run E fuel feedName message ch channel s :
  get_prop message "channel" = inr ch →
  channel_of E ch = inr channel →
  notifySubscribers E fuel feedName message s =
    if decide (is_Some (subscribers s !! subscription_key feedName channel))
    then Set_forEach E fuel (subscription_key feedName channel) message 0 s
    else (Ret tt, s, []).
Proof.
  intros Hch Hc. unfold notifySubscribers. rewrite Hch. simpl.
  rewrite run_ret, Hc. simpl. rewrite run_ret, run_gets. by case_decide.
Qed.

Lemma notifySubscribers_left_alone E fuel feedName message ch channel s d :
  get_prop message "channel" = inr ch →
  channel_of E ch = inr channel →
  subscribers s !! subscription_key feedName channel = Some d →
  leave_alone E (subscription_key feedName channel) message d →
  length d ≤ fuel →
  outcome (notifySubscribers E fuel feedName message s) = Ret tt
  ∧ subscribers (state_of (notifySubscribers E fuel feedName message s))
      !! subscription_key feedName channel = Some d
  ∧ invoked (trace_of (notifySubscribers E fuel feedName message s))
    = (fun cb => (cb, message)) <$> set_values d
  ∧ length (logged_errors (trace_of (notifySubscribers E fuel feedName message s)))
    = length (filter (throws E message) (set_values d)).
Proof.
  intros Hch Hc Hd Hq Hfuel.
  rewrite (notifySubscribers_run _ _ _ _ _ _ _ Hch Hc), Hd.
  rewrite decide_True by eauto.
  destruct (Set_forEach_left_alone E _ message d Hq fuel 0 s Hd)
    as (Ho & Hs & Hi & Hl); [lia|].
  by rewrite drop_0 in Hi, Hl.
Qed.

(** C3 (amended). [notifySubscribers] walks the live subscriber set, not a
    copy.  When no callback of the set subscribes or unsubscribes on that
    same (feed, channel) during the call, the callbacks invoked are exactly
    the members of the set at the start of the call, each once, with the
    message, in insertion order.  The (feed, channel) of the call is the
    one whose key the template literal computes from the message. *)
Theorem notify_invokes_members_when_set_left_alone (E : Env) (fuel : nat)
    (feedName : string) (message : json) (ch : option json) (channel : string)
    (s : Service) (d : SetData) :
  get_prop message "channel" = inr ch →
  channel_of E ch = inr channel →
  subscribers s !! subscription_key feedName channel = Some d →
  leave_alone E (subscription_key feedName channel) message d →
  length d ≤ fuel →
  outcome (notifySubscribers E fuel feedName message s) = Ret tt
  ∧ invoked (trace_of (notifySubscribers E fuel feedName message s))
    = (fun cb => (cb, message)) <$> set_values d.
Proof.
  intros Hch Hc Hd Hq Hfuel.
  destruct (notifySubscribers_left_alone E fuel feedName message ch channel s d
              Hch Hc Hd Hq Hfuel) as (Ho & _ & Hi & _).
  done.
Qed.

(** C3, as stated, fails.  With callback 1 the only subscriber of
    (market, BTCUSDT), and callback 1 subscribing callback 2 to the same
    channel when called, one [notifySubscribers] invokes 1 and then 2, which
    was not in the set at the start.  With subscribers 3 and 4, and 3
    unsubscribing 4 when called, 4 was in the set at the start but is not
    invoked. *)
Lemma notify_does_not_iterate_a_snapshot :
  (set_values <$> subscribers (Demo.with_members [1]) !! "market:BTCUSDT"
     = Some [1]
   ∧ invoked (trace_of (notifySubscribers Demo.busy 10 "market" Demo.tick
                          (Demo.with_members [1])))
     = [(1, Demo.tick); (2, Demo.tick)])
  ∧ (set_values <$> subscribers (Demo.with_members [3; 4]) !! "market:BTCUSDT"
       = Some [3; 4]
     ∧ invoked (trace_of (notifySubscribers Demo.busy 10 "market" Demo.tick
                            (Demo.with_members [3; 4])))
       = [(3, Demo.tick)]).
Proof. by vm_compute. Qed.

(** Two callbacks that do nothing, subscribed to (market, BTCUSDT). *)
Lemma notify_invokes_members_when_set_left_alone_witness :
  get_prop Demo.tick "channel" = inr (Some (JStr "BTCUSDT"))
  ∧ channel_of Demo.env (Some (JStr "BTCUSDT")) = inr "BTCUSDT"
  ∧ subscribers (Demo.with_members [1; 2])
      !! subscription_key "market" "BTCUSDT"
    = Some [Some 1; Some 2]
  ∧ leave_alone Demo.env (subscription_key "market" "BTCUSDT")
      Demo.tick [Some 1; Some 2]
  ∧ length [Some 1; Some 2] ≤ 2
  ∧ invoked (trace_of (notifySubscribers Demo.env 2 "market" Demo.tick
                         (Demo.with_members [1; 2])))
    = (fun cb => (cb, Demo.tick)) <$> set_values [Some 1; Some 2].
Proof.
  assert (H1 : get_prop Demo.tick "channel" = inr (Some (JStr "BTCUSDT")))
    by reflexivity.
  assert (H1' : channel_of Demo.env (Some (JStr "BTCUSDT")) = inr "BTCUSDT")
    by reflexivity.
  assert (H2 : subscribers (Demo.with_members [1; 2])
      !! subscription_key "market" "BTCUSDT"
    = Some [Some 1; Some 2]) by reflexivity.
  assert (H3 : leave_alone Demo.env (subscription_key "market" "BTCUSDT")
      Demo.tick [Some 1; Some 2])
    by (repeat constructor).
  assert (H4 : length [Some 1; Some 2] ≤ 2) by (simpl; lia).
  split; [exact H1|]. split; [exact H1'|]. split; [exact H2|].
  split; [exact H3|]. split; [exact H4|].
  exact (proj2 (notify_invokes_members_when_set_left_alone Demo.env 2 "market"
                  Demo.tick _ _ _ _ H1 H1' H2 H3 H4)).
Defined.




(** ** Message pipeline *)

Lemma stateless_ret {A} (a : A) : stateless (ret a).
Proof. by exists (Ret a). Qed.

Lemma stateless_throw {A} (e : exn) : stateless (@throw A e).
Proof. by exists (Throw e). Qed.

Lemma stateless_lift_exn {A} (r : exn + A) : stateless (lift_exn r).
Proof. destruct r; [apply stateless_throw | apply stateless_ret]. Qed.

Lemma stateless_bind {A B} (m : M A) (k : A → M B) :
  stateless m → (∀ a, stateless (k a)) → stateless (m ≫= k).
Proof.
  intros [o Hm] Hk. destruct o as [a|e|].
  - destruct (Hk a) as [o' Hk']. exists o'. intros s.
    by rewrite run_bind, Hm, Hk'.
  - exists (Throw e). intros s. by rewrite run_bind, Hm.
  - exists OutOfFuel. intros s. by rewrite run_bind, Hm.
Qed.

Lemma stateless_external E who message : stateless (external E who message).
Proof.
  unfold external. destruct (external_throws _ _ _);
    [apply stateless_throw | apply stateless_ret].
Qed.

Lemma stateless_dispatch E message cases event :
  stateless (dispatch E message cases event).
Proof.
  unfold dispatch. apply stateless_bind; [|intros; apply stateless_external].
  induction cases as [|[t method] l IH].
  - apply stateless_ret.
  - apply @stateless_bind.
    + unfold type_is. apply stateless_bind;
        [apply stateless_lift_exn | intros; apply stateless_ret].
    + intros [|]; [apply stateless_external | apply IH].
Qed.

(** The feed handlers only call collaborators: they leave the service
    state alone, and whether they throw does not depend on it. *)
Lemma stateless_call_inherited k message :
  stateless (call_inherited k message).
Proof.
  unfold call_inherited.
  repeat case_match; first [apply stateless_ret | apply stateless_throw].
Qed.

Lemma stateless_handlers E feedName h message :
  handlers E feedName = Some h → stateless (h message).
Proof.
  unfold handlers. repeat case_match; intros [= <-];
    first [apply stateless_dispatch | apply stateless_call_inherited].
Qed.

(** C4 (amended). [handleMessage] runs the whole pipeline under one
    try/catch.  When the payload parses and the feed's handler throws, the
    exception is caught and logged, and the stages after the handler are
    skipped: the message is not appended to the buffer and no subscriber is
    notified.  The buffer and the subscriber table are as before the
    message; only the feed's [lastMessage], [messageCount] and [status],
    written before the handler ran, have changed. *)
Theorem handler_failure_skips_buffer_and_notify (E : Env) (fuel : nat) (now : Z)
    (feedName data : string) (message : json) (h : json → M unit) (e : exn)
    (s : Service) :
  JSON_parse E data = Some message →
  handlers E feedName = Some h →
  outcome (h message s) = Throw e →
  handleMessage E fuel now feedName data s =
    (Ret tt, state_of (note_message feedName message s),
     [Console Error ("Error handling message from " +:+ feedName)])
  ∧ buffer (state_of (handleMessage E fuel now feedName data s)) = buffer s
  ∧ subscribers (state_of (handleMessage E fuel now feedName data s))
    = subscribers s
  ∧ invoked (trace_of (handleMessage E fuel now feedName data s)) = [].
Proof.
  intros Hparse Hh Hthrow.
  destruct (stateless_handlers E feedName h message Hh) as [o Ho].
  rewrite Ho in Hthrow. unfold outcome in Hthrow. simpl in Hthrow. subst o.
  assert (Hrun : handleMessage E fuel now feedName data s =
    (Ret tt, state_of (note_message feedName message s),
     [Console Error ("Error handling message from " +:+ feedName)])).
  { unfold handleMessage, try_catch. rewrite Hparse, Hh.
    rewrite run_ret. unfold note_message at 1. rewrite run_modify.
    rewrite run_bind, Ho. done. }
  rewrite Hrun. split; [done|].
  unfold state_of, trace_of, note_message, modify. simpl.
  by destruct (assoc feedName (feeds s)).
Qed.

(** C4, as stated, fails.  On the market feed with callback 1 subscribed to
    the default channel, the payload [{}] parses; when the event bus throws
    on [market:update] the handler throws, and the message is neither in the
    buffer nor delivered to callback 1 -- while with a healthy event bus the
    same payload is buffered and delivered.  The payload [null] also
    parses, and the handler throws on it by reading [message.type]. *)
Lemma handler_failure_swallows_the_message :
  (JSON_parse Demo.event_bus_broken "{}" = Some (JObj [])
   ∧ outcome (handleMarketMessage Demo.event_bus_broken (JObj [])
                Demo.default_and_ticker)
     = Throw (ExternalError "market:update")
   ∧ set_values <$> subscribers Demo.default_and_ticker !! "market:default"
     = Some [1]
   ∧ getBuffer (state_of (handleMessage Demo.event_bus_broken 10 5 "market" "{}"
                            Demo.default_and_ticker)) "market" None = []
   ∧ invoked (trace_of (handleMessage Demo.event_bus_broken 10 5 "market" "{}"
                          Demo.default_and_ticker)) = [])
  ∧ (getBuffer (state_of (handleMessage Demo.env 10 5 "market" "{}"
                            Demo.default_and_ticker)) "market" None
     = [[("timestamp", JNum 5)]]
     ∧ invoked (trace_of (handleMessage Demo.env 10 5 "market" "{}"
                            Demo.default_and_ticker)) = [(1, JObj [])])
  ∧ (JSON_parse Demo.env "null" = Some JNull
     ∧ outcome (handleMarketMessage Demo.env JNull Demo.default_and_ticker)
       = Throw TypeError
     ∧ getBuffer (state_of (handleMessage Demo.env 10 5 "market" "null"
                              Demo.default_and_ticker)) "market" None = []).
Proof. by vm_compute. Qed.

(** The message [{}] on the market feed when the event bus throws. *)
Lemma handler_failure_skips_buffer_and_notify_witness :
  JSON_parse Demo.event_bus_broken "{}" = Some (JObj [])
  ∧ handlers Demo.event_bus_broken "market"
    = Some (handleMarketMessage Demo.event_bus_broken)
  ∧ outcome (handleMarketMessage Demo.event_bus_broken (JObj [])
               Demo.default_and_ticker)
    = Throw (ExternalError "market:update")
  ∧ buffer (state_of (handleMessage Demo.event_bus_broken 10 5 "market" "{}"
                        Demo.default_and_ticker))
    = buffer Demo.default_and_ticker.
Proof.
  split; [reflexivity|]. split; [reflexivity|]. split; [reflexivity|].
  refine (proj1 (proj2
    (handler_failure_skips_buffer_and_notify Demo.event_bus_broken 10 5
       "market" "{}" (JObj []) (handleMarketMessage Demo.event_bus_broken)
       (ExternalError "market:update") Demo.default_and_ticker _ _ _)));
    reflexivity.
Defined.

(** ** Reconnection *)

Lemma assoc_assoc_set {A} k k' (v : A) l :
  assoc k (assoc_set k' v l) = if String.eqb k k' then Some v else assoc k l.
Proof.
  induction l as [|[k0 v0] l IH]; simpl.
  - done.
  - destruct (String.eqb_spec k' k0) as [->|Hne]; simpl.
    + by destruct (String.eqb k k0).
    + destruct (String.eqb_spec k k0) as [->|Hne'].
      * rewrite (proj2 (String.eqb_neq k0 k')) by congruence. done.
      * apply IH.
Qed.

Lemma statuses_ok_feeds s s' :
  feeds s' = feeds s → statuses_ok s → statuses_ok s'.
Proof. unfold statuses_ok. by intros ->. Qed.

Lemma keeps_statuses_ok_run E fuel evs :
  respects keeps_statuses_ok (run E fuel evs).
Proof.
  apply respects_run; unfold keeps_statuses_ok; try done.
  - eauto.
  - intros f c cb s. rewrite subscribe_run. by apply statuses_ok_feeds.
  - intros f c cb s. rewrite unsubscribe_run.
    destruct (subscribers s !! _); [by apply statuses_ok_feeds | done].
  - intros [k cb] s. rewrite invoke_handle_run. unfold state_of; simpl.
    destruct (subscribers s !! k); [by apply statuses_ok_feeds | done].
  - intros c s. rewrite attemptReconnect_run. simpl.
    case_decide; [done | by apply statuses_ok_feeds].
  - intros f m s. unfold note_message, modify, state_of; simpl.
    destruct (assoc f (feeds s)) as [feed|] eqn:Hfeed; [|done].
    intros Hok n feed'. simpl. rewrite assoc_assoc_set.
    destruct (String.eqb n f); [|apply Hok].
    intros [= <-]. by right.
  - intros c ws s Hok n feed'. unfold feeds_set, modify, state_of; simpl.
    rewrite assoc_assoc_set.
    destruct (String.eqb n (name c)); [|apply Hok].
    intros [= <-]. by left.
  - intros now f m s. rewrite addToBuffer_run. by apply statuses_ok_feeds.
  - by intros E' now s.
  - by intros i s.
  - intros ws _ config s. rewrite ws_onopen_run. by apply statuses_ok_feeds.
Qed.

Lemma reconnects_app config t1 t2 :
  reconnects config (t1 ++ t2) = reconnects config t1 + reconnects config t2.
Proof.
  unfold reconnects, scheduled. by rewrite omap_app, filter_app, length_app.
Qed.

Lemma spends_refl config s : spends config s [] s.
Proof. unfold spends, reconnects. simpl. lia. Qed.

Lemma spends_trans config s1 t1 s2 t2 s3 :
  spends config s1 t1 s2 → spends config s2 t2 s3 →
  spends config s1 (t1 ++ t2) s3.
Proof. unfold spends. rewrite reconnects_app. lia. Qed.

(** An operation that schedules nothing and leaves the reconnect counters
    alone spends nothing. *)
Lemma spends_nothing config s t s' :
  scheduled t = [] → reconnectAttempts s' = reconnectAttempts s →
  spends config s t s'.
Proof.
  intros Ht Hr. unfold spends, reconnects, remaining. rewrite Ht, Hr. simpl. lia.
Qed.

Lemma spends_attemptReconnect config c :
  respects (spends config) (attemptReconnect c).
Proof.
  intros s. rewrite attemptReconnect_run. simpl. case_decide as Hmax.
  - by apply spends_nothing.
  - unfold spends, reconnects, remaining, state_of, trace_of; simpl.
    destruct (decide (c = config)) as [->|Hne].
    + rewrite filter_cons_True by done. rewrite lookup_insert_eq. simpl. lia.
    + rewrite filter_cons_False by done. simpl.
      destruct (decide (name c = name config)) as [Hn|Hn].
      * rewrite Hn, lookup_insert_eq. simpl. rewrite Hn in Hmax. lia.
      * rewrite lookup_insert_ne by done. lia.
Qed.

Lemma spends_run E fuel evs config :
  never_opens evs → respects (spends config) (run E fuel evs).
Proof.
  intros Hnever. apply respects_run.
  - apply spends_refl.
  - apply spends_trans.
  - intros e s He. apply spends_nothing; [|done].
    destruct e; try done. by destruct (He delay reconnect).
  - intros f c cb s. rewrite subscribe_run. apply spends_nothing; [|done].
    unfold trace_of; simpl. by destruct (open_socket s f).
  - intros f c cb s. rewrite unsubscribe_run.
    destruct (subscribers s !! _); apply spends_nothing; try done.
    unfold trace_of; simpl. case_decide; [|done]. by destruct (open_socket s f).
  - intros [k cb] s. rewrite invoke_handle_run. apply spends_nothing; [done|].
    unfold state_of; simpl. by destruct (subscribers s !! k).
  - apply spends_attemptReconnect.
  - intros f m s. apply spends_nothing; [done|].
    unfold note_message, modify, state_of; simpl. by destruct (assoc f (feeds s)).
  - intros c ws s. by apply spends_nothing.
  - intros now f m s. rewrite addToBuffer_run. by apply spends_nothing.
  - intros E' now s. by apply spends_nothing.
  - intros w s. by apply spends_nothing.
  - intros c s. by apply spends_nothing.
  - intros i s. by apply spends_nothing.
  - intros ws Hin. unfold never_opens in Hnever. rewrite Forall_forall in Hnever.
    by destruct (Hnever _ Hin).
Qed.

(** C2 (amended). The service has no [Failed] state: the status reported
    for a feed is always [connecting] or [connected].  Once a feed's
    reconnect counter has reached [maxReconnectAttempts],
    [attemptReconnect] logs an error, schedules nothing and changes
    nothing; and as long as no socket opens, at most [maxReconnectAttempts]
    reconnects are ever scheduled for a feed.  With
    [maxReconnectAttempts = 3] and a transport that always fails to open,
    the initial attempt and three reconnects fail, after which no timer is
    pending and the status query reports [connecting] with
    [reconnectAttempts = 3]. *)
Theorem reconnects_stop_at_limit_without_failed_status (E : Env) (fuel : nat)
    (evs : list event) (config : FeedConfig) (s : Service) :
  maxReconnectAttempts config ≤ default 0 (reconnectAttempts s !! name config) →
  never_opens evs →
  attemptReconnect config s =
    (Ret tt, s,
     [Console Error ("Max reconnect attempts reached for " +:+ name config)])
  ∧ reconnects config (trace_of (run E fuel evs new_service))
    ≤ maxReconnectAttempts config
  ∧ (∀ evs' feedName stats,
       getFeedStats (state_of (run E fuel evs' new_service)) feedName = Some stats →
       stats_status stats = "connecting" ∨ stats_status stats = "connected")
  ∧ (let r := run Demo.env 0 (Demo.always_failing 4) new_service in
     getFeedStats (state_of r) "market" =
       Some {| stats_status := "connecting"; stats_messageCount := 0;
               stats_lastMessage := JNull; stats_reconnectAttempts := 3 |}
     ∧ timers (state_of r) = []
     ∧ length (sockets (state_of r)) = 4
     ∧ reconnects Demo.market (trace_of r) = 3).
Proof.
  intros Hmax Hnever. split; [|split; [|split]].
  - rewrite attemptReconnect_run. simpl. by rewrite decide_True.
  - pose proof (spends_run E fuel evs config Hnever new_service) as H.
    unfold spends, remaining in H. simpl in H. lia.
  - intros evs' feedName stats Hstats.
    pose proof (keeps_statuses_ok_run E fuel evs' new_service) as Hok.
    unfold getFeedStats in Hstats.
    destruct (assoc feedName (feeds (state_of (run E fuel evs' new_service))))
      as [feed|] eqn:Hfeed; [|done].
    simpl in Hstats. injection Hstats as <-. simpl.
    apply (Hok ltac:(by intros ? ?) feedName feed Hfeed).
  - by vm_compute.
Qed.

(** C2, as stated, fails.  With [maxReconnectAttempts = 3] and a transport
    that always fails to open, after 3 failed attempts a fourth attempt is
    under way and the status query reports [connecting]; after the fourth
    failure, and after any number of further health checks, it still reports
    [connecting], never [Failed]. *)
Lemma exhausted_feed_is_not_reported_failed :
  (let s := state_of (run Demo.env 0 (Demo.always_failing 3) new_service) in
   stats_status <$> getFeedStats s "market" = Some "connecting"
   ∧ length (sockets s) = 4)
  ∧ (let s := state_of (run Demo.env 0
                          (Demo.always_failing 4 ++ [HealthTick 100000])
                          new_service) in
     stats_status <$> getFeedStats s "market" = Some "connecting"
     ∧ stats_reconnectAttempts <$> getFeedStats s "market" = Some 3
     ∧ timers s = [])
  ∧ stats_status <$>
      getFeedStats (state_of (run Demo.env 0 (Demo.always_failing 3) new_service))
        "market"
    ≠ Some "Failed".
Proof.
  split; [by vm_compute|]. split; [by vm_compute|].
  vm_compute. discriminate.
Qed.

(** The market feed after four failed connection attempts. *)
Lemma reconnects_stop_at_limit_without_failed_status_witness :
  maxReconnectAttempts Demo.market
  ≤ default 0 (reconnectAttempts
                 (state_of (run Demo.env 0 (Demo.always_failing 4) new_service))
                 !! name Demo.market)
  ∧ never_opens (Demo.always_failing 4)
  ∧ reconnects Demo.market
      (trace_of (run Demo.env 0 (Demo.always_failing 4) new_service))
    ≤ maxReconnectAttempts Demo.market.
Proof.
  assert (H1 : maxReconnectAttempts Demo.market
    ≤ default 0 (reconnectAttempts
                   (state_of (run Demo.env 0 (Demo.always_failing 4) new_service))
                   !! name Demo.market)) by (vm_compute; lia).
  assert (H2 : never_opens (Demo.always_failing 4)) by (repeat constructor).
  split; [exact H1|]. split; [exact H2|].
  exact (proj1 (proj2
    (reconnects_stop_at_limit_without_failed_status Demo.env 0
       (Demo.always_failing 4) Demo.market _ H1 H2))).
Defined.

(** * Further properties of the service *)

(** ** Subscriber table: membership *)

Lemma elem_of_set_values x d : x ∈ set_values d ↔ Some x ∈ d.
Proof.
  unfold set_values. rewrite list_elem_of_omap. split.
  - intros ([y|] & Hin & Hy); simpl in Hy; [|done]. by injection Hy as ->.
  - intros Hin. by exists (Some x).
Qed.

Lemma set_values_add x d :
  set_values (set_add x d) =
    if decide (x ∈ set_values d) then set_values d else set_values d ++ [x].
Proof.
  unfold set_add, set_has. case_bool_decide as Hin.
  - rewrite decide_True by (by apply elem_of_set_values). done.
  - rewrite decide_False by (by rewrite elem_of_set_values).
    unfold set_values. by rewrite omap_app.
Qed.

Lemma set_add_idem x d : set_add x (set_add x d) = set_add x d.
Proof.
  unfold set_add at 1. unfold set_has.
  rewrite bool_decide_eq_true_2; [done|].
  apply elem_of_set_values. rewrite set_values_add.
  case_decide; [done|]. apply elem_of_app. right. by left.
Qed.

Lemma subscribers_of_subscribe feedName channel cb s :
  subscribers_of (state_of (subscribe feedName channel cb s)) feedName channel =
    if decide (cb ∈ subscribers_of s feedName channel)
    then subscribers_of s feedName channel
    else subscribers_of s feedName channel ++ [cb].
Proof.
  rewrite subscribe_run. unfold subscribers_of, state_of; simpl.
  rewrite lookup_insert_eq. simpl. apply set_values_add.
Qed.

Lemma subscribers_of_unsubscribe feedName channel cb s :
  subscribers_of (state_of (unsubscribe feedName channel cb s)) feedName channel =
    filter (fun x => x ≠ cb) (subscribers_of s feedName channel).
Proof.
  rewrite unsubscribe_run. unfold subscribers_of.
  destruct (subscribers s !! subscription_key feedName channel) as [d|] eqn:Hd;
    unfold state_of; simpl.
  - rewrite lookup_insert_eq. simpl. apply set_values_delete.
  - by rewrite Hd.
Qed.

(** X1. [subscribe] appends the callback to the subscribers of its
    (feed, channel) unless it is already one of them, and touches no other
    key; subscribing the same callback again changes nothing in the
    service state. *)
Theorem subscribe_appends_once (feedName channel : string) (cb : nat)
    (s : Service) :
  outcome (subscribe feedName channel cb s)
  = Ret (subscription_key feedName channel, cb)
  ∧ subscribers_of (state_of (subscribe feedName channel cb s)) feedName channel
    = (if decide (cb ∈ subscribers_of s feedName channel)
       then subscribers_of s feedName channel
       else subscribers_of s feedName channel ++ [cb])
  ∧ (∀ key, key ≠ subscription_key feedName channel →
       subscribers (state_of (subscribe feedName channel cb s)) !! key
       = subscribers s !! key)
  ∧ state_of (subscribe feedName channel cb
                (state_of (subscribe feedName channel cb s)))
    = state_of (subscribe feedName channel cb s).
Proof.
  split; [by rewrite subscribe_run|]. split; [apply subscribers_of_subscribe|].
  split.
  - intros key Hne. rewrite subscribe_run. unfold state_of; simpl.
    by rewrite lookup_insert_ne.
  - rewrite !subscribe_run. unfold state_of; simpl.
    rewrite lookup_insert_eq. simpl. rewrite set_add_idem.
    unfold with_subscribers. simpl. by rewrite insert_insert_eq.
Qed.

(** X2. [unsubscribe] removes exactly the given callback from the
    subscribers of its (feed, channel), keeps the order of the others and
    touches no other key; on a (feed, channel) without entry it changes
    nothing.  Subscribing and then unsubscribing a callback leaves the
    others as they were, and unsubscribing and then subscribing it again
    moves it to the end of the notification order. *)
Theorem unsubscribe_removes_only_the_callback (feedName channel : string)
    (cb : nat) (s : Service) :
  subscribers_of (state_of (unsubscribe feedName channel cb s)) feedName channel
  = filter (fun x => x ≠ cb) (subscribers_of s feedName channel)
  ∧ (∀ key, key ≠ subscription_key feedName channel →
       subscribers (state_of (unsubscribe feedName channel cb s)) !! key
       = subscribers s !! key)
  ∧ (subscribers s !! subscription_key feedName channel = None →
     unsubscribe feedName channel cb s = (Ret tt, s, []))
  ∧ subscribers_of
      (state_of ((subscribe feedName channel cb;;
                  unsubscribe feedName channel cb) s)) feedName channel
    = filter (fun x => x ≠ cb) (subscribers_of s feedName channel)
  ∧ subscribers_of
      (state_of ((unsubscribe feedName channel cb;;
                  subscribe feedName channel cb) s)) feedName channel
    = filter (fun x => x ≠ cb) (subscribers_of s feedName channel) ++ [cb].
Proof.
  split; [apply subscribers_of_unsubscribe|]. split; [|split; [|split]].
  - intros key Hne. rewrite unsubscribe_run.
    destruct (subscribers s !! subscription_key feedName channel);
      unfold state_of; simpl; [|done].
    by rewrite lookup_insert_ne.
  - intros Hnone. by rewrite unsubscribe_run, Hnone.
  - rewrite run_bind.
    pose proof (subscribers_of_subscribe feedName channel cb s) as Hsub.
    destruct (subscribe feedName channel cb s) as [[[h|e|] s1] t1] eqn:Hrun;
      try (rewrite subscribe_run in Hrun; discriminate Hrun).
    unfold state_of in Hsub; simpl in Hsub.
    pose proof (subscribers_of_unsubscribe feedName channel cb s1) as Hun.
    destruct (unsubscribe feedName channel cb s1) as [[o s2] t2].
    unfold state_of in *; simpl in *. rewrite Hun, Hsub.
    case_decide; [done|].
    rewrite filter_app, filter_cons_False by (intros ?; done).
    by rewrite filter_nil, app_nil_r.
  - rewrite run_bind.
    pose proof (subscribers_of_unsubscribe feedName channel cb s) as Hun.
    assert (Ho : outcome (unsubscribe feedName channel cb s) = Ret tt).
    { rewrite unsubscribe_run. by destruct (subscribers s !! _). }
    destruct (unsubscribe feedName channel cb s) as [[o s1] t1].
    unfold state_of, outcome in *; simpl in *. subst o.
    pose proof (subscribers_of_subscribe feedName channel cb s1) as Hsub.
    destruct (subscribe feedName channel cb s1) as [[o s2] t2].
    unfold state_of in *; simpl in *. rewrite Hsub, Hun.
    rewrite decide_False; [done|].
    intros [Hne _]%list_elem_of_filter. by apply Hne.
Qed.

(** ** Subscriber table: who is notified *)

Lemma length_set_delete x d : length (set_delete x d) = length d.
Proof. unfold set_delete. apply length_fmap. Qed.

Lemma invoked_sends t : (∀ e, e ∈ t → ∃ ws f, e = Send ws f) → invoked t = [].
Proof.
  induction t as [|e t IH]; intros H; [done|].
  destruct (H e) as (ws & f & ->); [left|]. simpl. apply IH.
  intros e' He'. apply H. by right.
Qed.

(** X3. Once [unsubscribe(feed, channel, callback)] has returned, a message
    for that (feed, channel) is delivered to the remaining subscribers, in
    their order, and not to the unsubscribed callback -- provided the
    remaining callbacks do not themselves subscribe or unsubscribe on that
    (feed, channel).  The same holds when the callback is removed through
    the handle that [subscribe] returned. *)
Theorem unsubscribed_callback_is_not_notified (E : Env) (fuel : nat)
    (feedName : string) (message : json) (ch : option json) (channel : string)
    (cb : nat) (s : Service) (d : SetData) :
  get_prop message "channel" = inr ch →
  channel_of E ch = inr channel →
  subscribers s !! subscription_key feedName channel = Some d →
  leave_alone E (subscription_key feedName channel) message
    (set_delete cb d) →
  length d ≤ fuel →
  (outcome ((unsubscribe feedName channel cb;;
             notifySubscribers E fuel feedName message) s) = Ret tt
   ∧ invoked (trace_of ((unsubscribe feedName channel cb;;
                         notifySubscribers E fuel feedName message) s))
     = (fun x => (x, message)) <$> filter (fun x => x ≠ cb) (set_values d)
   ∧ ∀ m, (cb, m) ∉ invoked (trace_of ((unsubscribe feedName channel cb;;
                                         notifySubscribers E fuel feedName message) s)))
  ∧ invoked (trace_of ((invoke_handle (subscription_key feedName channel, cb);;
                        notifySubscribers E fuel feedName message) s))
    = (fun x => (x, message)) <$> filter (fun x => x ≠ cb) (set_values d).
Proof.
  intros Hch Hc Hd Hq Hfuel.
  set (key := subscription_key feedName channel) in *.
  set (s1 := with_subscribers (<[key := set_delete cb d]> (subscribers s)) s).
  assert (Hd1 : subscribers s1 !! key = Some (set_delete cb d))
    by (subst s1; simpl; apply lookup_insert_eq).
  assert (Hlen : length (set_delete cb d) ≤ fuel)
    by (by rewrite length_set_delete).
  destruct (notifySubscribers_left_alone E fuel feedName message ch channel s1
              (set_delete cb d) Hch Hc Hd1 Hq Hlen) as (Ho & _ & Hi & _).
  rewrite set_values_delete in Hi.
  assert (Hun : ∃ t1, unsubscribe feedName channel cb s = (Ret tt, s1, t1)
                      ∧ invoked t1 = []).
  { rewrite unsubscribe_run. fold key. rewrite Hd. eexists. split; [done|].
    case_decide; [|done]. by destruct (open_socket s feedName). }
  destruct Hun as (t1 & Hun & Ht1).
  assert (Hboth :
    outcome ((unsubscribe feedName channel cb;;
              notifySubscribers E fuel feedName message) s) = Ret tt
    ∧ invoked (trace_of ((unsubscribe feedName channel cb;;
                          notifySubscribers E fuel feedName message) s))
      = (fun x => (x, message)) <$> filter (fun x => x ≠ cb) (set_values d)).
  { rewrite run_bind, Hun.
    destruct (notifySubscribers E fuel feedName message s1) as [[o s2] t2].
    unfold outcome, state_of, trace_of in *. simpl in *.
    by rewrite invoked_app, Ht1, Hi. }
  destruct Hboth as [Hout Hinv]. split; [split; [done|split; [done|]]|].
  - intros m. rewrite Hinv. intros Hin.
    apply list_elem_of_fmap in Hin as (x & [= -> ->] & Hin).
    apply list_elem_of_filter in Hin as [Hne _]. by apply Hne.
  - rewrite run_bind, invoke_handle_run, Hd. fold s1.
    destruct (notifySubscribers E fuel feedName message s1) as [[o s2] t2].
    unfold outcome, state_of, trace_of in *. simpl in *. done.
Qed.

(** Callbacks 1 and 2 subscribed to (market, BTCUSDT), then 1 unsubscribed:
    a message for BTCUSDT is delivered to 2 only. *)
Lemma unsubscribed_callback_is_not_notified_witness :
  get_prop Demo.tick "channel" = inr (Some (JStr "BTCUSDT"))
  ∧ channel_of Demo.env (Some (JStr "BTCUSDT")) = inr "BTCUSDT"
  ∧ subscribers (Demo.with_members [1; 2])
      !! subscription_key "market" "BTCUSDT"
    = Some [Some 1; Some 2]
  ∧ leave_alone Demo.env
      (subscription_key "market" "BTCUSDT")
      Demo.tick (set_delete 1 [Some 1; Some 2])
  ∧ length [Some 1; Some 2] ≤ 2
  ∧ invoked (trace_of ((unsubscribe "market" "BTCUSDT" 1;;
                        notifySubscribers Demo.env 2 "market" Demo.tick)
                         (Demo.with_members [1; 2])))
    = (fun x => (x, Demo.tick)) <$> filter (fun x => x ≠ 1) (set_values [Some 1; Some 2]).
Proof.
  assert (H1 : get_prop Demo.tick "channel" = inr (Some (JStr "BTCUSDT")))
    by reflexivity.
  assert (H1' : channel_of Demo.env (Some (JStr "BTCUSDT")) = inr "BTCUSDT")
    by reflexivity.
  assert (H2 : subscribers (Demo.with_members [1; 2])
      !! subscription_key "market" "BTCUSDT"
    = Some [Some 1; Some 2]) by reflexivity.
  assert (H3 : leave_alone Demo.env
      (subscription_key "market" "BTCUSDT")
      Demo.tick (set_delete 1 [Some 1; Some 2]))
    by (repeat constructor).
  assert (H4 : length [Some 1; Some 2] ≤ 2) by (simpl; lia).
  split; [exact H1|]. split; [exact H1'|]. split; [exact H2|].
  split; [exact H3|]. split; [exact H4|].
  exact (proj1 (proj2 (proj1
    (unsubscribed_callback_is_not_notified Demo.env 2 "market" Demo.tick _ _ 1
       (Demo.with_members [1; 2]) _ H1 H1' H2 H3 H4)))).
Defined.

(** X4. A message whose [channel] field is a nonempty string is delivered
    to the subscribers of that channel of the feed, in their order, and to
    nobody else (provided those callbacks do not themselves subscribe or
    unsubscribe on it). *)
Theorem message_channel_selects_subscribers (E : Env) (fuel : nat)
    (feedName : string) (fields : list (string * json)) (c : string)
    (s : Service) :
  assoc "channel" fields = Some (JStr c) →
  c ≠ EmptyString →
  leave_alone E (subscription_key feedName c) (JObj fields)
    (default [] (subscribers s !! subscription_key feedName c)) →
  length (default [] (subscribers s !! subscription_key feedName c)) ≤ fuel →
  outcome (notifySubscribers E fuel feedName (JObj fields) s) = Ret tt
  ∧ invoked (trace_of (notifySubscribers E fuel feedName (JObj fields) s))
    = (fun cb => (cb, JObj fields)) <$> subscribers_of s feedName c
  ∧ ∀ cb m, cb ∉ subscribers_of s feedName c →
      (cb, m) ∉ invoked (trace_of (notifySubscribers E fuel feedName (JObj fields) s)).
Proof.
  intros Hc Hne Hq Hfuel.
  assert (Hch : get_prop (JObj fields) "channel" = inr (Some (JStr c)))
    by (simpl; by rewrite Hc).
  assert (Hkey : channel_of E (Some (JStr c)) = inr c).
  { simpl. destruct (String.eqb_spec c EmptyString); [done|done]. }
  assert (Hmain :
    outcome (notifySubscribers E fuel feedName (JObj fields) s) = Ret tt
    ∧ invoked (trace_of (notifySubscribers E fuel feedName (JObj fields) s))
      = (fun cb => (cb, JObj fields)) <$> subscribers_of s feedName c).
  { unfold subscribers_of.
    destruct (subscribers s !! subscription_key feedName c) as [d|] eqn:Hd.
    - destruct (notifySubscribers_left_alone E fuel feedName (JObj fields) _ _ s d
                  Hch Hkey Hd Hq Hfuel) as (Ho & _ & Hi & _). done.
    - rewrite (notifySubscribers_run _ _ _ _ _ _ _ Hch Hkey), Hd.
      rewrite decide_False by (by intros [? ?]). done. }
  destruct Hmain as [Ho Hi]. split; [done|]. split; [done|].
  intros cb m Hcb. rewrite Hi. intros Hin.
  apply list_elem_of_fmap in Hin as (cb' & [= -> ->] & Hin). done.
Qed.

(** The message [tick] reaches the two subscribers of (market, BTCUSDT). *)
Lemma message_channel_selects_subscribers_witness :
  assoc "channel" [("channel", JStr "BTCUSDT")] = Some (JStr "BTCUSDT")
  ∧ "BTCUSDT" ≠ EmptyString
  ∧ leave_alone Demo.env (subscription_key "market" "BTCUSDT") Demo.tick
      (default [] (subscribers (Demo.with_members [1; 2])
                     !! subscription_key "market" "BTCUSDT"))
  ∧ length (default [] (subscribers (Demo.with_members [1; 2])
                          !! subscription_key "market" "BTCUSDT")) ≤ 2
  ∧ invoked (trace_of (notifySubscribers Demo.env 2 "market" Demo.tick
                         (Demo.with_members [1; 2])))
    = (fun cb => (cb, Demo.tick)) <$> subscribers_of (Demo.with_members [1; 2])
                                        "market" "BTCUSDT".
Proof.
  assert (H1 : assoc "channel" [("channel", JStr "BTCUSDT")]
               = Some (JStr "BTCUSDT")) by reflexivity.
  assert (H2 : "BTCUSDT" ≠ EmptyString) by discriminate.
  assert (H3 : leave_alone Demo.env (subscription_key "market" "BTCUSDT") Demo.tick
      (default [] (subscribers (Demo.with_members [1; 2])
                     !! subscription_key "market" "BTCUSDT")))
    by (vm_compute; repeat constructor).
  assert (H4 : length (default [] (subscribers (Demo.with_members [1; 2])
                          !! subscription_key "market" "BTCUSDT")) ≤ 2)
    by (vm_compute; lia).
  split; [exact H1|]. split; [exact H2|]. split; [exact H3|].
  split; [exact H4|].
  exact (proj1 (proj2
    (message_channel_selects_subscribers Demo.env 2 "market"
       [("channel", JStr "BTCUSDT")] "BTCUSDT" (Demo.with_members [1; 2])
       H1 H2 H3 H4))).
Defined.

(** X5. The values of a [channel] field that count as absent are exactly
    [null], [false], [0] and the empty string: a message with such a
    channel is routed like a message without one, to (feed, 'default'). *)
Theorem falsy_channel_goes_to_default (E : Env) (fuel : nat)
    (feedName : string) (fields : list (string * json)) (v : json)
    (s : Service) :
  assoc "channel" fields = Some v →
  (truthy (Some v) = false
   ↔ v = JNull ∨ v = JBool false ∨ v = JNum 0 ∨ v = JStr EmptyString)
  ∧ (truthy (Some v) = false →
     notifySubscribers E fuel feedName (JObj fields) s =
       if decide (is_Some (subscribers s !! subscription_key feedName "default"))
       then Set_forEach E fuel (subscription_key feedName "default")
              (JObj fields) 0 s
       else (Ret tt, s, [])).
Proof.
  intros Hc. split.
  - split.
    + destruct v as [|[|]|n|str| |]; simpl; try done; auto.
      * intros Hn. apply negb_false_iff, Z.eqb_eq in Hn. subst. auto.
      * intros Hn. apply negb_false_iff in Hn.
        destruct (String.eqb_spec str EmptyString); [subst; auto 10|done].
    + intros [-> | [-> | [-> | ->]]]; done.
  - intros Hfalsy.
    assert (Hch : get_prop (JObj fields) "channel" = inr (Some v))
      by (simpl; by rewrite Hc).
    apply (notifySubscribers_run _ _ _ _ _ _ _ Hch).
    unfold channel_of. by rewrite Hfalsy.
Qed.

(** A message with [channel: 0] on the market feed. *)
Lemma falsy_channel_goes_to_default_witness :
  assoc "channel" [("channel", JNum 0)] = Some (JNum 0)
  ∧ (truthy (Some (JNum 0)) = false
     ↔ JNum 0 = JNull ∨ JNum 0 = JBool false ∨ JNum 0 = JNum 0
       ∨ JNum 0 = JStr EmptyString).
Proof.
  split; [reflexivity|].
  refine (proj1 (falsy_channel_goes_to_default Demo.env 1 "market"
                   [("channel", JNum 0)] (JNum 0) Demo.default_and_ticker _)).
  reflexivity.
Defined.

(** ** Keys of the subscriber table *)

Lemma key_cons a f c :
  subscription_key (String a f) c = String a (subscription_key f c).
Proof. reflexivity. Qed.

Lemma key_nil c : subscription_key EmptyString c = String colon c.
Proof. reflexivity. Qed.

(** X6. For feed names without a colon -- as the four configured feeds
    are -- the key of the subscriber table determines the feed and the
    channel, so subscribers of different (feed, channel) pairs never share
    a set.  A feed name with a colon does collide: (f:a, b) and (f, a:b)
    have the same key. *)
Theorem subscription_key_injective (f1 c1 f2 c2 : string) :
  colon_free f1 = true →
  colon_free f2 = true →
  subscription_key f1 c1 = subscription_key f2 c2 →
  (f1 = f2 ∧ c1 = c2)
  ∧ Forall (fun f => colon_free f = true) ["market"; "trades"; "quotes"; "news"]
  ∧ ∀ f a b, subscription_key (f +:+ ":" +:+ a) b
             = subscription_key f (a +:+ ":" +:+ b).
Proof.
  intros H1 H2 Hkey. split; [|split].
  - revert f2 H2 Hkey. induction f1 as [|a f1 IH]; intros [|b f2] H2 Hkey.
    + rewrite !key_nil in Hkey. by injection Hkey as ->.
    + rewrite key_nil, key_cons in Hkey. injection Hkey as Hb _. subst b.
      cbn [colon_free] in H2. by rewrite Ascii.eqb_refl in H2.
    + rewrite key_nil, key_cons in Hkey. injection Hkey as Ha _. subst a.
      cbn [colon_free] in H1. by rewrite Ascii.eqb_refl in H1.
    + rewrite !key_cons in Hkey. injection Hkey as -> Hkey.
      cbn [colon_free] in H1, H2.
      apply andb_prop in H1 as [_ H1], H2 as [_ H2].
      destruct (IH H1 f2 H2 Hkey) as [-> ->]. done.
  - repeat constructor.
  - intros f a b. induction f as [|x f IH]; [reflexivity|].
    change (String x f +:+ ":" +:+ a) with (String x (f +:+ ":" +:+ a)).
    rewrite !key_cons. f_equal. exact IH.
Qed.

(** (market, BTCUSDT) against (trades, executed), and against itself. *)
Lemma subscription_key_injective_witness :
  colon_free "market" = true
  ∧ colon_free "market" = true
  ∧ subscription_key "market" "BTCUSDT" = subscription_key "market" "BTCUSDT"
  ∧ ("market" = "market" ∧ "BTCUSDT" = "BTCUSDT").
Proof.
  split; [reflexivity|]. split; [reflexivity|]. split; [reflexivity|].
  exact (proj1 (subscription_key_injective "market" "BTCUSDT" "market" "BTCUSDT"
                  eq_refl eq_refl eq_refl)).
Defined.




(** ** Opening a socket *)

(** X8. When a socket opens, the service records the connection, resets the
    feed's reconnect counter to zero and sends one subscribe frame per entry
    of the built-in channel table of that feed name (none for a name the
    table does not have), in table order.  The subscriber table is neither
    read nor changed: a channel subscribed while the feed was not open sent
    nothing then, and is sent at opening only if the built-in table lists
    it.  For a feed named after a property of [Object.prototype] the
    handler throws, after the connection and the counter have been
    written. *)
Theorem opening_sends_the_builtin_channels_only (E : Env) (fuel : nat)
    (ws : nat) (w : WebSocket) (feedName channel : string) (cb : nat)
    (s : Service) :
  sockets s !! ws = Some w →
  readyState w = CONNECTING →
  open_socket s feedName = None →
  sent (trace_of (subscribe feedName channel cb s)) = []
  ∧ sent (trace_of ((subscribe feedName channel cb;;
                     task E fuel (SocketOpens ws)) s))
    = FSubscribe <$> default_channels (name (ws_config w))
  ∧ sent (trace_of (task E fuel (SocketOpens ws) s))
    = FSubscribe <$> default_channels (name (ws_config w))
  ∧ reconnectAttempts (state_of (task E fuel (SocketOpens ws) s))
      !! name (ws_config w) = Some 0
  ∧ connections (state_of (task E fuel (SocketOpens ws) s))
      !! name (ws_config w) = Some ws
  ∧ subscribers (state_of (task E fuel (SocketOpens ws) s)) = subscribers s
  ∧ (readyState <$> sockets (state_of (task E fuel (SocketOpens ws) s)) !! ws)
    = Some OPEN
  ∧ outcome (task E fuel (SocketOpens ws) s)
    = (if inherited (name (ws_config w)) then Throw TypeError else Ret tt).
Proof.
  intros Hw Hconn Hclosed.
  assert (Hsent : ∀ l : list string,
    sent ((fun c => Send ws (FSubscribe c)) <$> l) = FSubscribe <$> l).
  { intros l. unfold sent. induction l as [|c l IH]; [done|]. csimpl.
    by rewrite IH. }
  assert (Hopen : ∀ s0 : Service,
    sockets s0 = sockets s →
    task E fuel (SocketOpens ws) s0 =
      ((if inherited (name (ws_config w)) then Throw TypeError else Ret tt),
       with_reconnectAttempts
         (<[name (ws_config w) := 0]> (reconnectAttempts s0))
         (with_connections (<[name (ws_config w) := ws]> (connections s0))
            (with_sockets
               (alter (fun w0 => {| ws_config := ws_config w0; readyState := OPEN |})
                  ws (sockets s0)) s0)),
       Console Log ("Connected to " +:+ name (ws_config w))
         :: ((fun c => Send ws (FSubscribe c))
               <$> default_channels (name (ws_config w))))).
  { intros s0 Hs0. cbn [task]. unfold on_socket. rewrite run_gets, Hs0, Hw.
    rewrite decide_True by done. unfold set_readyState. rewrite run_modify.
    rewrite ws_onopen_run. simpl. by rewrite ?Hs0. }
  split; [|split; [|split]].
  - rewrite subscribe_run, Hclosed. done.
  - rewrite run_bind, subscribe_run, Hclosed. rewrite Hopen by done.
    unfold trace_of. cbn [snd app]. unfold sent at 1. cbn [omap list_omap].
    apply Hsent.
  - rewrite Hopen by done. unfold trace_of. cbn [snd]. unfold sent at 1.
    cbn [omap list_omap]. apply Hsent.
  - rewrite Hopen by done. unfold state_of. simpl.
    rewrite !lookup_insert_eq. split; [done|]. split; [done|]. split; [done|].
    rewrite list_lookup_alter_eq, Hw. done.
Qed.

(** The market feed, connecting: socket 0 opens. *)
Lemma opening_sends_the_builtin_channels_only_witness :
  sockets (state_of (run Demo.env 0 [Start Demo.market] new_service)) !! 0
  = Some {| ws_config := Demo.market; readyState := CONNECTING |}
  ∧ CONNECTING = CONNECTING
  ∧ open_socket (state_of (run Demo.env 0 [Start Demo.market] new_service))
      "market" = None
  ∧ sent (trace_of ((subscribe "market" "DOGEUSDT" 1;;
                     task Demo.env 0 (SocketOpens 0))
                      (state_of (run Demo.env 0 [Start Demo.market] new_service))))
    = FSubscribe <$> default_channels "market".
Proof.
  split; [reflexivity|]. split; [reflexivity|]. split; [reflexivity|].
  exact (proj1 (proj2
    (opening_sends_the_builtin_channels_only Demo.env 0 0
       {| ws_config := Demo.market; readyState := CONNECTING |}
       "market" "DOGEUSDT" 1
       (state_of (run Demo.env 0 [Start Demo.market] new_service))
       eq_refl eq_refl eq_refl))).
Defined.

(** ** Heartbeat *)

(** X9. [sendHeartbeat] sends one heartbeat frame, stamped with the current
    time, on the socket of every feed whose socket is open, in the order of
    [this.feeds]; it sends nothing on a socket that is connecting, closing
    or closed, and it changes nothing in the service. *)
Theorem heartbeat_goes_to_open_sockets_only (now : Z) (s : Service) :
  sendHeartbeat now s = (Ret tt, s, heartbeats now s)
  ∧ ∀ ws f, Send ws f ∈ heartbeats now s →
      f = FHeartbeat now
      ∧ (readyState <$> sockets s !! ws) = Some OPEN
      ∧ ∃ feedName feed, (feedName, feed) ∈ feeds s ∧ websocket feed = ws.
Proof.
  split.
  - unfold sendHeartbeat, heartbeats. rewrite run_gets.
    generalize (feeds s) as fs. induction fs as [|[n feed] fs IH]; [done|].
    cbn [for_each]. rewrite run_bind, run_gets. csimpl.
    destruct (sockets s !! websocket feed) as [w|]; simpl.
    + case_decide; simpl; by rewrite IH.
    + by rewrite IH.
  - intros ws f Hin. unfold heartbeats in Hin.
    apply list_elem_of_omap in Hin as ([n feed] & Hfeed & Hsome).
    destruct (sockets s !! websocket feed) as [w|] eqn:Hw; [|done].
    case_decide as Hopen; [|done]. injection Hsome as <- <-.
    split; [done|]. split; [by rewrite Hw; simpl; rewrite Hopen|]. eauto.
Qed.

(** ** Buffer: reading, cleaning, entries *)

Lemma keep_last_keep_last {A} m n (l : list A) :
  m ≤ n → keep_last m (keep_last n l) = keep_last m l.
Proof.
  intros Hmn. unfold keep_last. rewrite length_drop, drop_drop. f_equal. lia.
Qed.

Lemma keep_last_one_snoc {A} (l : list A) x : keep_last 1 (l ++ [x]) = [x].
Proof.
  unfold keep_last. rewrite length_app. simpl.
  replace (length l + 1 - 1) with (length l + 0) by lia.
  by rewrite drop_app_add.
Qed.

(** X10. [getBuffer(feed, limit)] returns the last [limit] buffered
    messages, oldest first, when [limit] is positive (100 when omitted);
    with [limit = 0] it returns the whole buffer, and with a negative limit
    [-k] everything but the first [k] messages.  For a feed without a
    buffer the result is empty. *)
Theorem getBuffer_limit (s : Service) (feedName : string) (n : Z) :
  getBuffer s feedName (Some n)
  = (if (0 <? n)%Z
     then keep_last (Z.to_nat n) (default [] (buffer s !! feedName))
     else drop (Z.to_nat (- n)) (default [] (buffer s !! feedName)))
  ∧ getBuffer s feedName None
    = keep_last 100 (default [] (buffer s !! feedName))
  ∧ getBuffer s feedName (Some 0%Z) = default [] (buffer s !! feedName)
  ∧ (∀ k : nat,
       length (getBuffer s feedName (Some (Z.of_nat (S k))))
       = Nat.min (S k) (length (default [] (buffer s !! feedName))))
  ∧ (buffer s !! feedName = None → ∀ limit, getBuffer s feedName limit = []).
Proof.
  assert (Hgen : ∀ (b : list entry) (k : Z),
    slice_from (- k) b
    = if (0 <? k)%Z then keep_last (Z.to_nat k) b else drop (Z.to_nat (- k)) b).
  { intros b k. unfold slice_from, keep_last.
    destruct (0 <? k)%Z eqn:Hk.
    - apply Z.ltb_lt in Hk. rewrite (proj2 (Z.ltb_lt (- k) 0)) by lia.
      f_equal. lia.
    - apply Z.ltb_ge in Hk. rewrite (proj2 (Z.ltb_ge (- k) 0)) by lia.
      destruct (decide (- k ≤ Z.of_nat (length b))%Z) as [Hle|Hgt].
      + f_equal. lia.
      + rewrite !drop_ge by lia. done. }
  split; [apply Hgen|]. split; [apply (Hgen _ 100%Z)|]. split; [apply (Hgen _ 0%Z)|].
  split.
  - intros k. unfold getBuffer.
    change (default 100%Z (Some (Z.of_nat (S k)))) with (Z.of_nat (S k)).
    rewrite Hgen.
    destruct (0 <? _)%Z eqn:Hk; [|apply Z.ltb_ge in Hk; lia].
    unfold keep_last. rewrite length_drop. lia.
  - intros Hnone limit. unfold getBuffer. rewrite Hnone. simpl.
    unfold slice_from. by rewrite drop_nil.
Qed.

Lemma within_maxAge_make_entry E now t message :
  within_maxAge E now (make_entry t message) = bool_decide (now - t < maxAge)%Z.
Proof.
  unfold within_maxAge, make_entry. rewrite assoc_assoc_set.
  by rewrite String.eqb_refl.
Qed.

Lemma within_maxAge_mono E now now' msg :
  (now ≤ now')%Z → within_maxAge E now' msg = true → within_maxAge E now msg = true.
Proof.
  unfold within_maxAge. intros Hle.
  destruct (ToNumber _ _ _) as [e|[t|]]; [done| |done].
  intros H%bool_decide_eq_true. apply bool_decide_eq_true. lia.
Qed.

Lemma filter_filter_weaker {A} (P Q : A → Prop) `{∀ x, Decision (P x)}
    `{∀ x, Decision (Q x)} (l : list A) :
  (∀ x, Q x → P x) → filter Q (filter P l) = filter Q l.
Proof.
  intros HQP. induction l as [|x l IH]; [done|].
  destruct (decide (P x)) as [HP|HP].
  - rewrite (filter_cons_True P) by done.
    destruct (decide (Q x)).
    + rewrite !(filter_cons_True Q) by done. by rewrite IH.
    + rewrite !(filter_cons_False Q) by done. done.
  - rewrite (filter_cons_False P) by done.
    rewrite (filter_cons_False Q) by (intros ?; apply HP; auto). done.
Qed.

(** X11. A cleaning pass keeps exactly the entries younger than five
    minutes, in their order, and keeps every feed's buffer (possibly
    empty); it touches nothing else.  A message buffered at time [t] is
    still there after a pass at time [now] exactly when [now - t] is
    below 300000 ms, so an entry that is exactly five minutes old is
    dropped.  A pass after an earlier pass gives what the later pass alone
    gives; in particular a pass is idempotent. *)
Theorem cleanBuffer_keeps_the_recent (E : Env) (now now' : Z) (t : Z)
    (feedName : string) (message : json) (s : Service) :
  (now ≤ now')%Z →
  state_of (cleanBuffer E now' (state_of (cleanBuffer E now s)))
  = state_of (cleanBuffer E now' s)
  ∧ dom (buffer (state_of (cleanBuffer E now s))) = dom (buffer s)
  ∧ (∀ f, buffer (state_of (cleanBuffer E now s)) !! f
          = filter (fun msg => within_maxAge E now msg = true) <$> buffer s !! f)
  ∧ (make_entry t message
       ∈ default [] (buffer (state_of ((addToBuffer t feedName message;;
                                        cleanBuffer E now) s)) !! feedName)
     ↔ (now - t < 300000)%Z)
  ∧ (feeds (state_of (cleanBuffer E now s)) = feeds s
     ∧ subscribers (state_of (cleanBuffer E now s)) = subscribers s
     ∧ sockets (state_of (cleanBuffer E now s)) = sockets s
     ∧ trace_of (cleanBuffer E now s) = []).
Proof.
  intros Hle. split; [|split; [|split; [|split]]].
  - unfold cleanBuffer, modify, state_of, with_buffer. simpl. f_equal.
    apply map_eq. intros f. rewrite !lookup_fmap.
    destruct (buffer s !! f) as [b|]; [|done]. simpl. f_equal.
    apply filter_filter_weaker. intros msg. by apply within_maxAge_mono.
  - unfold cleanBuffer, modify, state_of. simpl. apply dom_fmap_L.
  - intros f. unfold cleanBuffer, modify, state_of. simpl. apply lookup_fmap.
  - rewrite run_bind, addToBuffer_run.
    unfold cleanBuffer, modify, state_of. simpl.
    rewrite lookup_fmap, lookup_insert_eq. simpl.
    rewrite list_elem_of_filter, within_maxAge_make_entry, bool_decide_eq_true.
    unfold maxAge. split; [intros [? _]; lia|]. intros Hfresh. split; [lia|].
    unfold keep_last. apply list_elem_of_lookup.
    exists (length (default [] (buffer s !! feedName) ++ [make_entry t message])
            - (length (default [] (buffer s !! feedName) ++ [make_entry t message])
               - maxBufferSize) - 1).
    rewrite lookup_drop, length_app. simpl.
    rewrite lookup_app_r by (unfold maxBufferSize; lia).
    replace (_ - _) with 0 by (unfold maxBufferSize; lia). done.
  - done.
Qed.

(** A message buffered at time 0 and a pass at 299999 ms. *)
Lemma cleanBuffer_keeps_the_recent_witness :
  (0 ≤ 299999)%Z
  ∧ (make_entry 0 (JObj [])
       ∈ default [] (buffer (state_of ((addToBuffer 0 "market" (JObj []);;
                                        cleanBuffer Demo.env 0) new_service))
                       !! "market")
     ↔ (0 - 0 < 300000)%Z).
Proof.
  assert (H : (0 ≤ 299999)%Z) by lia.
  split; [exact H|].
  exact (proj1 (proj2 (proj2 (proj2
    (cleanBuffer_keeps_the_recent Demo.env 0 299999 0 "market" (JObj [])
       new_service H))))).
Defined.

(** X12. The entry that [addToBuffer] stores is the newest of the feed's
    buffer; its [timestamp] is the time of arrival, whatever [timestamp]
    the payload carried; the other fields of an object payload are kept as
    they are; and a payload that is [null], a boolean or a number is stored
    as an entry with the [timestamp] alone. *)
Theorem buffered_entry_carries_arrival_time (now : Z) (feedName : string)
    (message : json) (s : Service) :
  getBuffer (state_of (addToBuffer now feedName message s)) feedName (Some 1%Z)
  = [make_entry now message]
  ∧ assoc "timestamp" (make_entry now message) = Some (JNum now)
  ∧ (∀ fields k, message = JObj fields → k ≠ "timestamp" →
       assoc k (make_entry now message) = assoc k fields)
  ∧ (∀ b n, message = JNull ∨ message = JBool b ∨ message = JNum n →
       make_entry now message = [("timestamp", JNum now)]).
Proof.
  split; [|split; [|split]].
  - destruct (getBuffer_limit (state_of (addToBuffer now feedName message s))
                feedName 1) as [Hg _].
    rewrite Hg. change (0 <? 1)%Z with true. change (Z.to_nat 1) with 1.
    cbv iota. rewrite addToBuffer_run. unfold state_of. simpl.
    rewrite lookup_insert_eq. simpl.
    rewrite keep_last_keep_last by (unfold maxBufferSize; lia).
    apply keep_last_one_snoc.
  - unfold make_entry. rewrite assoc_assoc_set. by rewrite String.eqb_refl.
  - intros fields k -> Hk. unfold make_entry. rewrite assoc_assoc_set.
    by rewrite (proj2 (String.eqb_neq k "timestamp")).
  - intros b n [-> | [-> | ->]]; done.
Qed.

(** ** Staleness *)

Lemma keeps_feeds_refl s : keeps_feeds s [] s.
Proof. done. Qed.

Lemma keeps_feeds_trans s1 t1 s2 t2 s3 :
  keeps_feeds s1 t1 s2 → keeps_feeds s2 t2 s3 → keeps_feeds s1 (t1 ++ t2) s3.
Proof. unfold keeps_feeds. congruence. Qed.

(** Of a message that parses, only the bookkeeping at the head of
    [handleMessage] touches [this.feeds]. *)
Lemma handleMessage_feeds E fuel now feedName data message s :
  JSON_parse E data = Some message →
  feeds (state_of (handleMessage E fuel now feedName data s))
  = feeds (state_of (note_message feedName message s)).
Proof.
  intros Hparse. unfold handleMessage, try_catch. rewrite Hparse, run_ret.
  unfold note_message at 1. rewrite run_modify.
  change (modify _ s) with (note_message feedName message s).
  set (s1 := state_of (note_message feedName message s)).
  change (match assoc feedName (feeds s) with
          | Some feed =>
              with_feeds (assoc_set feedName (touch_feed message feed) (feeds s)) s
          | None => s
          end) with s1.
  set (rest := (match handlers E feedName with
                | Some handler => handler message
                | None => ret tt
                end ≫= _)).
  assert (Hrest : respects keeps_feeds rest).
  { subst rest. apply (respects_bind _ keeps_feeds_trans).
    - destruct (handlers E feedName) as [h|] eqn:Hh.
      + by apply (respects_handlers _ keeps_feeds_refl keeps_feeds_trans
                    E feedName h message).
      + apply (respects_ret _ keeps_feeds_refl).
    - intros _. apply (respects_bind _ keeps_feeds_trans).
      + intros s0. by rewrite addToBuffer_run.
      + intros _.
        apply (respects_notifySubscribers _ keeps_feeds_refl keeps_feeds_trans).
        * done.
        * intros f c cb s0. by rewrite subscribe_run.
        * intros f c cb s0. rewrite unsubscribe_run.
          by destruct (subscribers s0 !! _).
        * intros [k cb] s0. rewrite invoke_handle_run. unfold keeps_feeds, state_of.
          simpl. by destruct (subscribers s0 !! k). }
  specialize (Hrest s1). unfold keeps_feeds in Hrest.
  destruct (rest s1) as [[[[]|e|] s2] t2]; unfold state_of in *; simpl in *; done.
Qed.

(** X13. Staleness is judged by the [timestamp] field of the payload of the
    last parsed message, not by its time of arrival.  After a message whose
    payload has no [timestamp] (or a [null], [false], [0] or empty one), the
    feed is stale at every clock reading above 60000 ms, however recently
    the message arrived; after a message with a nonzero numeric
    [timestamp], it is stale exactly when the clock is more than 60000 ms
    past that number. *)
Theorem staleness_reads_the_payload_timestamp (E : Env) (fuel : nat)
    (arrival now : Z) (feedName data : string) (message : json) (feed : Feed)
    (s : Service) :
  JSON_parse E data = Some message →
  assoc feedName (feeds s) = Some feed →
  ∃ feed',
    assoc feedName (feeds (state_of (handleMessage E fuel arrival feedName data s)))
    = Some feed'
    ∧ lastMessage feed' = message
    ∧ (truthy (get_prop_opt (Some message) "timestamp") = false →
       is_stale E now feed' = inr (bool_decide (60000 < now)%Z))
    ∧ (∀ t, get_prop_opt (Some message) "timestamp" = Some (JNum t) →
            t ≠ 0%Z →
            is_stale E now feed' = inr (bool_decide (60000 < now - t)%Z)).
Proof.
  intros Hparse Hfeed. rewrite (handleMessage_feeds _ _ _ _ _ _ _ Hparse).
  exists (touch_feed message feed). split; [|split; [done|split]].
  - unfold note_message, modify, state_of. simpl. rewrite Hfeed. simpl.
    rewrite assoc_assoc_set. by rewrite String.eqb_refl.
  - intros Hfalsy. unfold is_stale, timeSinceLastMessage. simpl lastMessage.
    rewrite Hfalsy. simpl. f_equal. apply bool_decide_ext. lia.
  - intros t Ht Hne. unfold is_stale, timeSinceLastMessage. simpl lastMessage.
    rewrite Ht. simpl. rewrite (proj2 (Z.eqb_neq t 0)) by done. done.
Qed.

(** The payload [{}] arrives on the open market feed at 100000 ms; at that
    very instant the feed is stale. *)
Lemma staleness_reads_the_payload_timestamp_witness :
  JSON_parse Demo.env "{}" = Some (JObj [])
  ∧ assoc "market" (feeds Demo.open_market)
    = Some {| websocket := 0; config := Demo.market; status := "connecting";
              lastMessage := JNull; messageCount := 0 |}
  ∧ ∃ feed',
      assoc "market"
        (feeds (state_of (handleMessage Demo.env 1 100000 "market" "{}"
                            Demo.open_market))) = Some feed'
      ∧ lastMessage feed' = JObj []
      ∧ (truthy (get_prop_opt (Some (JObj [])) "timestamp") = false →
         is_stale Demo.env 100000 feed' = inr (bool_decide (60000 < 100000)%Z))
      ∧ (∀ t, get_prop_opt (Some (JObj [])) "timestamp" = Some (JNum t) →
              t ≠ 0%Z →
              is_stale Demo.env 100000 feed' = inr (bool_decide (60000 < 100000 - t)%Z)).
Proof.
  split; [reflexivity|]. split; [reflexivity|].
  apply (staleness_reads_the_payload_timestamp Demo.env 1 100000 100000
           "market" "{}" (JObj [])
           {| websocket := 0; config := Demo.market; status := "connecting";
              lastMessage := JNull; messageCount := 0 |}
           Demo.open_market); reflexivity.
Defined.

(** ** Connecting and reconnecting *)

(** X14. [connectFeed] registers the feed afresh: when the socket can be
    constructed, a new connecting socket is added, and the feed's record is
    replaced by one with status [connecting], no last message and a message
    count of zero -- the counts of the previous connection are gone --
    while the reconnect counter, the pending timers and the other feeds stay
    as they are and nothing is scheduled.  When the constructor throws, no
    socket is added and no feed is registered or changed: the error is
    logged and the outcome is that of [attemptReconnect]. *)
Theorem connectFeed_registers_afresh (E : Env) (config : FeedConfig)
    (s : Service) :
  (WebSocket_throws E (url config) = false →
   connectFeed E config s =
     (Ret tt,
      with_feeds
        (assoc_set (name config)
           {| websocket := length (sockets s); config := config;
              status := "connecting"; lastMessage := JNull; messageCount := 0 |}
           (feeds s))
        (with_sockets
           (sockets s ++ [{| ws_config := config; readyState := CONNECTING |}]) s),
      [])
   ∧ getFeedStats (state_of (connectFeed E config s)) (name config)
     = Some {| stats_status := "connecting"; stats_messageCount := 0;
               stats_lastMessage := JNull;
               stats_reconnectAttempts :=
                 default 0 (reconnectAttempts s !! name config) |}
   ∧ (∀ other, other ≠ name config →
        getFeedStats (state_of (connectFeed E config s)) other
        = getFeedStats s other))
  ∧ (WebSocket_throws E (url config) = true →
     feeds (state_of (connectFeed E config s)) = feeds s
     ∧ sockets (state_of (connectFeed E config s)) = sockets s
     ∧ state_of (connectFeed E config s) = state_of (attemptReconnect config s)
     ∧ trace_of (connectFeed E config s)
       = Console Error ("Failed to connect to " +:+ name config)
           :: trace_of (attemptReconnect config s)).
Proof.
  split.
  - intros Hok.
    assert (Hrun : connectFeed E config s =
     (Ret tt,
      with_feeds
        (assoc_set (name config)
           {| websocket := length (sockets s); config := config;
              status := "connecting"; lastMessage := JNull; messageCount := 0 |}
           (feeds s))
        (with_sockets
           (sockets s ++ [{| ws_config := config; readyState := CONNECTING |}]) s),
      [])).
    { unfold connectFeed, try_catch, new_WebSocket, feeds_set.
      rewrite Hok. rewrite run_bind. rewrite run_ret, run_gets, run_modify.
      done. }
    rewrite Hrun. split; [done|]. unfold getFeedStats, state_of. simpl. split.
    + rewrite assoc_assoc_set, String.eqb_refl. done.
    + intros other Hne. rewrite assoc_assoc_set.
      by rewrite (proj2 (String.eqb_neq other (name config))).
  - intros Hthrow.
    assert (Hrun : connectFeed E config s =
      let '(o, s', t) := attemptReconnect config s in
      (o, s', Console Error ("Failed to connect to " +:+ name config) :: t)).
    { unfold connectFeed, try_catch, new_WebSocket. rewrite Hthrow.
      rewrite run_bind, run_throw. rewrite run_emit.
      by destruct (attemptReconnect config s) as [[o s'] t]. }
    rewrite Hrun, attemptReconnect_run. simpl. by case_decide.
Qed.

Lemma counts_reconnects_refl n s : counts_reconnects n s [] s.
Proof. unfold counts_reconnects, reconnects_of. simpl. lia. Qed.

Lemma counts_reconnects_trans n s1 t1 s2 t2 s3 :
  counts_reconnects n s1 t1 s2 → counts_reconnects n s2 t2 s3 →
  counts_reconnects n s1 (t1 ++ t2) s3.
Proof.
  unfold counts_reconnects, reconnects_of, scheduled.
  rewrite omap_app, filter_app, length_app. lia.
Qed.

Lemma counts_reconnects_nothing n s t s' :
  scheduled t = [] → reconnectAttempts s' = reconnectAttempts s →
  counts_reconnects n s t s'.
Proof.
  intros Ht Hr. unfold counts_reconnects, reconnects_of. rewrite Ht, Hr.
  simpl. lia.
Qed.

Lemma counts_reconnects_run E fuel evs n :
  never_opens evs → respects (counts_reconnects n) (run E fuel evs).
Proof.
  intros Hnever. apply respects_run.
  - apply counts_reconnects_refl.
  - apply counts_reconnects_trans.
  - intros e s He. apply counts_reconnects_nothing; [|done].
    destruct e; try done. by destruct (He delay reconnect).
  - intros f c cb s. rewrite subscribe_run.
    apply counts_reconnects_nothing; [|done].
    unfold trace_of; simpl. by destruct (open_socket s f).
  - intros f c cb s. rewrite unsubscribe_run.
    destruct (subscribers s !! _); apply counts_reconnects_nothing; try done.
    unfold trace_of; simpl. case_decide; [|done]. by destruct (open_socket s f).
  - intros [k cb] s. rewrite invoke_handle_run.
    apply counts_reconnects_nothing; [done|].
    unfold state_of; simpl. by destruct (subscribers s !! k).
  - intros c s. rewrite attemptReconnect_run. simpl. case_decide.
    + by apply counts_reconnects_nothing.
    + unfold counts_reconnects, reconnects_of, state_of, trace_of. simpl.
      destruct (decide (name c = n)) as [<-|Hne].
      * rewrite filter_cons_True by done. rewrite lookup_insert_eq. simpl. lia.
      * rewrite filter_cons_False by done. rewrite lookup_insert_ne by done.
        simpl. lia.
  - intros f m s. apply counts_reconnects_nothing; [done|].
    unfold note_message, modify, state_of; simpl. by destruct (assoc f (feeds s)).
  - intros c ws s. by apply counts_reconnects_nothing.
  - intros now f m s. rewrite addToBuffer_run. by apply counts_reconnects_nothing.
  - intros E' now s. by apply counts_reconnects_nothing.
  - intros w s. by apply counts_reconnects_nothing.
  - intros c s. by apply counts_reconnects_nothing.
  - intros i s. by apply counts_reconnects_nothing.
  - intros ws Hin. unfold never_opens in Hnever. rewrite Forall_forall in Hnever.
    by destruct (Hnever _ Hin).
Qed.

(** X15. As long as no socket opens, the reconnect counter that
    [getFeedStats] reports for a feed name is exactly the number of
    reconnects that have been scheduled for that name: every scheduled
    reconnect is counted once, and nothing else moves the counter. *)
Theorem reconnect_counter_counts_scheduled_reconnects (E : Env) (fuel : nat)
    (evs : list event) (feedName : string) :
  never_opens evs →
  default 0 (reconnectAttempts (state_of (run E fuel evs new_service)) !! feedName)
  = reconnects_of feedName (trace_of (run E fuel evs new_service))
  ∧ ∀ stats,
      getFeedStats (state_of (run E fuel evs new_service)) feedName = Some stats →
      stats_reconnectAttempts stats
      = reconnects_of feedName (trace_of (run E fuel evs new_service)).
Proof.
  intros Hnever.
  pose proof (counts_reconnects_run E fuel evs feedName Hnever new_service) as H.
  unfold counts_reconnects in H. simpl in H. split; [exact H|].
  intros stats Hstats. unfold getFeedStats in Hstats.
  destruct (assoc feedName _); [|done]. simpl in Hstats.
  injection Hstats as <-. simpl. exact H.
Qed.

(** Two failed connection attempts of the market feed. *)
Lemma reconnect_counter_counts_scheduled_reconnects_witness :
  never_opens (Demo.always_failing 2)
  ∧ default 0 (reconnectAttempts
                 (state_of (run Demo.env 0 (Demo.always_failing 2) new_service))
                 !! "market")
    = reconnects_of "market"
        (trace_of (run Demo.env 0 (Demo.always_failing 2) new_service)).
Proof.
  assert (H : never_opens (Demo.always_failing 2)) by (repeat constructor).
  split; [exact H|].
  exact (proj1 (reconnect_counter_counts_scheduled_reconnects Demo.env 0
                  (Demo.always_failing 2) "market" H)).
Defined.

(** ** The feed registry *)

Lemma keys_assoc_set {A} k (v : A) l :
  fst <$> assoc_set k v l =
    if decide (k ∈ fst <$> l) then fst <$> l else (fst <$> l) ++ [k].
Proof.
  induction l as [|[k0 v0] l IH]; [done|]. cbn [assoc_set].
  destruct (String.eqb_spec k k0) as [->|Hne].
  - csimpl. rewrite decide_True by left. done.
  - csimpl. rewrite IH. destruct (decide (k ∈ fst <$> l)) as [Hin|Hnin].
    + rewrite decide_True by (by right). done.
    + rewrite decide_False; [done|]. intros [?|?]%elem_of_cons; done.
Qed.

Lemma NoDup_keys_assoc_set {A} k (v : A) l :
  NoDup (fst <$> l) → NoDup (fst <$> assoc_set k v l).
Proof.
  intros Hnd. rewrite keys_assoc_set. case_decide as Hin; [done|].
  apply NoDup_app. split; [done|]. split; [|apply NoDup_singleton].
  intros x Hx Hx'. apply list_elem_of_singleton in Hx'. by subst.
Qed.

Lemma assoc_set_fresh {A} k (v : A) l :
  k ∉ fst <$> l → assoc_set k v l = l ++ [(k, v)].
Proof.
  induction l as [|[k0 v0] l IH]; intros Hk; [done|]. cbn [assoc_set].
  destruct (String.eqb_spec k k0) as [->|Hne].
  - exfalso. apply Hk. left.
  - simpl. rewrite IH; [done|]. intros Hin. apply Hk. by right.
Qed.

Lemma assoc_NoDup {A} k (v : A) l :
  NoDup (fst <$> l) → (k, v) ∈ l → assoc k l = Some v.
Proof.
  induction l as [|[k0 v0] l IH]; intros Hnd Hin.
  { by apply elem_of_nil in Hin. }
  csimpl in Hnd. apply NoDup_cons in Hnd as [Hk0 Hnd]. cbn [assoc].
  apply elem_of_cons in Hin as [[= -> ->]|Hin].
  - by rewrite String.eqb_refl.
  - destruct (String.eqb_spec k k0) as [->|Hne]; [|by apply IH].
    exfalso. apply Hk0. apply list_elem_of_fmap. by exists (k0, v).
Qed.

Lemma assoc_elem_of {A} k (v : A) l : assoc k l = Some v → (k, v) ∈ l.
Proof.
  induction l as [|[k0 v0] l IH]; [done|]. cbn [assoc].
  destruct (String.eqb_spec k k0) as [->|Hne].
  - intros [= ->]. left.
  - intros H. right. by apply IH.
Qed.

Lemma feeds_wf_feeds s s' : feeds s' = feeds s → feeds_wf s → feeds_wf s'.
Proof. unfold feeds_wf. by intros ->. Qed.

Lemma keeps_feeds_wf_run E fuel evs :
  respects keeps_feeds_wf (run E fuel evs).
Proof.
  apply respects_run; unfold keeps_feeds_wf; try done.
  - eauto.
  - intros f c cb s. rewrite subscribe_run. by apply feeds_wf_feeds.
  - intros f c cb s. rewrite unsubscribe_run.
    destruct (subscribers s !! _); [by apply feeds_wf_feeds | done].
  - intros [k cb] s. rewrite invoke_handle_run. unfold state_of; simpl.
    destruct (subscribers s !! k); [by apply feeds_wf_feeds | done].
  - intros c s. rewrite attemptReconnect_run. simpl.
    case_decide; [done | by apply feeds_wf_feeds].
  - intros f m s. unfold note_message, modify, state_of; simpl.
    destruct (assoc f (feeds s)) as [feed|] eqn:Hfeed; [|done].
    intros [Hnd Hwf]. split; simpl.
    + by apply NoDup_keys_assoc_set.
    + intros n feed'. rewrite assoc_assoc_set.
      destruct (String.eqb_spec n f) as [->|Hne]; [|apply Hwf].
      intros [= <-]. destruct (Hwf f feed Hfeed) as [Hname _].
      split; [done|]. right. simpl. split; [done|lia].
  - intros c ws s [Hnd Hwf]. unfold feeds_set, modify, state_of; simpl.
    split; simpl.
    + by apply NoDup_keys_assoc_set.
    + intros n feed'. rewrite assoc_assoc_set.
      destruct (String.eqb_spec n (name c)) as [->|Hne]; [|apply Hwf].
      intros [= <-]. split; [done|]. by left.
  - intros now f m s. rewrite addToBuffer_run. by apply feeds_wf_feeds.
  - by intros E' now s.
  - by intros i s.
  - intros ws _ config s. rewrite ws_onopen_run. by apply feeds_wf_feeds.
Qed.

Lemma feeds_wf_new_service : feeds_wf new_service.
Proof. split; [constructor|]. done. Qed.

(** X16. In every state the service reaches, [this.feeds] has one entry
    per feed name, filed under the name of its own config, and the record of
    a feed is either fresh (status [connecting], last message [null],
    count 0) or has seen a message since it was last connected (status
    [connected], a positive count; the last message is the payload, which
    may itself be [null]).  So [getFeedStats] reports [connected] exactly
    when the message count is positive. *)
Theorem feed_records_stay_well_formed (E : Env) (fuel : nat) (evs : list event) :
  NoDup (fst <$> feeds (state_of (run E fuel evs new_service)))
  ∧ (∀ feedName feed,
       (feedName, feed) ∈ feeds (state_of (run E fuel evs new_service)) →
       feedName = name (config feed))
  ∧ (∀ feedName stats,
       getFeedStats (state_of (run E fuel evs new_service)) feedName = Some stats →
       ((stats_status stats = "connecting" ∧ stats_lastMessage stats = JNull
         ∧ stats_messageCount stats = 0)
        ∨ (stats_status stats = "connected" ∧ 0 < stats_messageCount stats))
       ∧ (stats_status stats = "connected" ↔ 0 < stats_messageCount stats)).
Proof.
  pose proof (keeps_feeds_wf_run E fuel evs new_service feeds_wf_new_service)
    as [Hnd Hwf].
  set (s := state_of (run E fuel evs new_service)) in *.
  split; [exact Hnd|]. split.
  - intros n feed Hin. apply (Hwf n feed). by apply assoc_NoDup.
  - intros n stats Hstats. unfold getFeedStats in Hstats.
    destruct (assoc n (feeds s)) as [feed|] eqn:Hfeed; [|done].
    simpl in Hstats. injection Hstats as <-. simpl.
    destruct (Hwf n feed Hfeed) as [_ Hrec]. split; [exact Hrec|].
    destruct Hrec as [(Hs & _ & Hc)|(Hs & Hc)]; rewrite Hs.
    + split; [done|]. lia.
    + done.
Qed.

Lemma keeps_feed_run E fuel evs n :
  respects (keeps_feed n) (run E fuel evs).
Proof.
  apply respects_run; unfold keeps_feed; try done.
  - eauto.
  - intros f c cb s. by rewrite subscribe_run.
  - intros f c cb s. rewrite unsubscribe_run. by destruct (subscribers s !! _).
  - intros [k cb] s. rewrite invoke_handle_run. unfold state_of; simpl.
    by destruct (subscribers s !! k).
  - intros c s. rewrite attemptReconnect_run. simpl. by case_decide.
  - intros f m s. unfold note_message, modify, state_of; simpl.
    destruct (assoc f (feeds s)) as [feed|] eqn:Hfeed; [|done].
    simpl. rewrite assoc_assoc_set. by destruct (String.eqb n f); eauto.
  - intros c ws s. unfold feeds_set, modify, state_of; simpl.
    rewrite assoc_assoc_set. by destruct (String.eqb n (name c)); eauto.
  - intros now f m s. by rewrite addToBuffer_run.
  - by intros E' now s.
  - by intros i s.
  - intros ws _ config s. by rewrite ws_onopen_run.
Qed.

(** X17. A feed that has been started stays registered whatever happens
    afterwards -- its socket closing, its reconnect attempts running out,
    health checks, messages: [getFeedStats] keeps returning its stats and
    [getConnectionStatus] keeps answering [connecting] or [connected].
    [getConnectionStatus] answers [disconnected] only for a name that was
    never started, for which [getFeedStats] returns [null]. *)
Theorem started_feed_stays_registered (E : Env) (fuel : nat)
    (before after : list event) (feedName : string) :
  is_Some (getFeedStats (state_of (run E fuel before new_service)) feedName) →
  (is_Some (getFeedStats
              (state_of (run E fuel after
                           (state_of (run E fuel before new_service))))
              feedName)
   ∧ (getConnectionStatus
        (state_of (run E fuel after (state_of (run E fuel before new_service))))
        feedName = "connecting"
      ∨ getConnectionStatus
          (state_of (run E fuel after (state_of (run E fuel before new_service))))
          feedName = "connected"))
  ∧ ∀ other,
      getConnectionStatus (state_of (run E fuel before new_service)) other
      = "disconnected"
      ↔ getFeedStats (state_of (run E fuel before new_service)) other = None.
Proof.
  intros Hstarted.
  pose proof (keeps_statuses_ok_run E fuel before new_service
                ltac:(by intros ? ?)) as Hok.
  set (s := state_of (run E fuel before new_service)) in *.
  assert (Hreg : is_Some (assoc feedName (feeds s))).
  { unfold getFeedStats in Hstarted. destruct (assoc feedName (feeds s)); eauto.
    by destruct Hstarted. }
  split.
  - pose proof (keeps_feed_run E fuel after feedName s Hreg) as [feed Hfeed].
    pose proof (keeps_statuses_ok_run E fuel after s Hok feedName feed Hfeed)
      as Hstatus.
    unfold getFeedStats, getConnectionStatus. rewrite Hfeed. simpl.
    split; [eauto|done].
  - intros other. unfold getFeedStats, getConnectionStatus.
    destruct (assoc other (feeds s)) as [feed|] eqn:Hfeed; simpl; [|done].
    split; [|done]. intros Hd. destruct (Hok other feed Hfeed) as [H|H];
      rewrite H in Hd; discriminate Hd.
Qed.

(** The market feed, started; then its transport fails four times. *)
Lemma started_feed_stays_registered_witness :
  is_Some (getFeedStats (state_of (run Demo.env 0 [Start Demo.market] new_service))
             "market")
  ∧ is_Some (getFeedStats
               (state_of (run Demo.env 0 (Demo.always_failing 4)
                            (state_of (run Demo.env 0 [Start Demo.market]
                                         new_service))))
               "market").
Proof.
  assert (H : is_Some (getFeedStats
                         (state_of (run Demo.env 0 [Start Demo.market] new_service))
                         "market")) by (vm_compute; eauto).
  split; [exact H|].
  exact (proj1 (proj1 (started_feed_stays_registered Demo.env 0
                         [Start Demo.market] (Demo.always_failing 4) "market" H))).
Defined.

(** ** The pipeline when nothing fails *)

Lemma dispatch_healthy E message cases event s :
  healthy E → message ≠ JNull →
  dispatch E message cases event s = (Ret tt, s, []).
Proof.
  intros Hh Hnn. unfold dispatch.
  assert (Hext : ∀ who, external E who message s = (Ret tt, s, [])).
  { intros who. unfold external. by rewrite Hh. }
  assert (Htype : ∀ t, ∃ b, type_is message t s = (Ret b, s, [])).
  { intros t. unfold type_is.
    destruct message; [done|..]; by eexists. }
  rewrite run_bind.
  assert (Hgo : (fix go (l : list (string * string)) : M unit :=
       match l with
       | [] => ret tt
       | (t, method) :: l' =>
           bind (type_is message t) (fun b : bool =>
             if b then external E method message else go l')
       end) cases s = (Ret tt, s, [])).
  { induction cases as [|[t method] l IH]; [done|].
    unfold bind at 1. destruct (Htype t) as [b ->].
    destruct b; [by rewrite Hext | by rewrite IH]. }
  rewrite Hgo. by rewrite Hext.
Qed.

Lemma handlers_healthy E feedName h message s :
  healthy E → message ≠ JNull → inherited feedName = false →
  handlers E feedName = Some h →
  h message s = (Ret tt, s, []).
Proof.
  intros Hh Hnn Hin. unfold handlers. rewrite Hin.
  repeat case_match; intros [= <-]; by apply dispatch_healthy.
Qed.

Lemma keeps_buffer_notifySubscribers E fuel feedName message :
  respects keeps_buffer (notifySubscribers E fuel feedName message).
Proof.
  apply respects_notifySubscribers; unfold keeps_buffer; try done.
  - congruence.
  - intros f c cb s. by rewrite subscribe_run.
  - intros f c cb s. rewrite unsubscribe_run. by destruct (subscribers s !! _).
  - intros [k cb] s. rewrite invoke_handle_run. unfold state_of. simpl.
    by destruct (subscribers s !! k).
Qed.

(** The pipeline on a payload that parses, when the feed's handler
    returns and the callbacks leave the addressed set alone. *)
Lemma handleMessage_pipeline E fuel now feedName data message ch channel s :
  JSON_parse E data = Some message →
  (∀ h, handlers E feedName = Some h → outcome (h message s) = Ret tt) →
  get_prop message "channel" = inr ch →
  channel_of E ch = inr channel →
  leave_alone E (subscription_key feedName channel) message
    (default [] (subscribers s !! subscription_key feedName channel)) →
  length (default [] (subscribers s !! subscription_key feedName channel))
  ≤ fuel →
  outcome (handleMessage E fuel now feedName data s) = Ret tt
  ∧ getBuffer (state_of (handleMessage E fuel now feedName data s)) feedName
      (Some 1%Z) = [make_entry now message]
  ∧ invoked (trace_of (handleMessage E fuel now feedName data s))
    = (fun cb => (cb, message)) <$> subscribers_of s feedName channel
  ∧ (∀ feed, assoc feedName (feeds s) = Some feed →
       assoc feedName (feeds (state_of (handleMessage E fuel now feedName data s)))
       = Some {| websocket := websocket feed; config := config feed;
                 status := "connected"; lastMessage := message;
                 messageCount := S (messageCount feed) |})
  ∧ length (logged_errors (trace_of (handleMessage E fuel now feedName data s)))
    = length (filter (throws E message) (subscribers_of s feedName channel)).
Proof.
  intros Hparse Hh Hch Hc Hq Hfuel.
  set (key := subscription_key feedName channel) in *.
  set (s1 := state_of (note_message feedName message s)).
  set (s2 := state_of (addToBuffer now feedName message s1)).
  assert (Hsubs : subscribers s2 = subscribers s).
  { subst s2 s1. rewrite addToBuffer_run. unfold note_message, modify, state_of.
    simpl. by destruct (assoc feedName (feeds s)). }
  assert (Hrun : handleMessage E fuel now feedName data s =
    try_catch (notifySubscribers E fuel feedName message)
      (fun _ => emit (Console Error ("Error handling message from " +:+ feedName)))
      s2).
  { unfold handleMessage, try_catch. rewrite Hparse, run_ret.
    unfold note_message at 1. rewrite run_modify.
    change (match assoc feedName (feeds s) with
            | Some feed =>
                with_feeds (assoc_set feedName (touch_feed message feed) (feeds s)) s
            | None => s
            end) with s1.
    rewrite run_bind.
    assert (Hhandler : match handlers E feedName with
                       | Some handler => handler message
                       | None => ret tt
                       end s1 = (Ret tt, s1, [])).
    { destruct (handlers E feedName) as [h|] eqn:Hhd; [|done].
      destruct (stateless_handlers E feedName h message Hhd) as [o Ho].
      specialize (Hh h eq_refl). rewrite Ho in Hh. unfold outcome in Hh.
      simpl in Hh. subst o. apply Ho. }
    rewrite Hhandler, run_bind. subst s2. rewrite addToBuffer_run.
    unfold state_of. simpl.
    by destruct (notifySubscribers E fuel feedName message _) as [[[[]|e|] s3] t3]. }
  assert (Hnotify :
    outcome (notifySubscribers E fuel feedName message s2) = Ret tt
    ∧ invoked (trace_of (notifySubscribers E fuel feedName message s2))
      = (fun cb => (cb, message)) <$> subscribers_of s feedName channel
    ∧ length (logged_errors (trace_of (notifySubscribers E fuel feedName message s2)))
      = length (filter (throws E message) (subscribers_of s feedName channel))).
  { unfold subscribers_of. fold key.
    destruct (subscribers s !! key) as [d|] eqn:Hd.
    - assert (Hd2 : subscribers s2 !! key = Some d) by (by rewrite Hsubs).
      destruct (notifySubscribers_left_alone E fuel feedName message ch channel
                  s2 d Hch Hc Hd2 Hq Hfuel) as (Ho & _ & Hi & Hl). done.
    - rewrite (notifySubscribers_run _ _ _ _ _ _ _ Hch Hc). fold key.
      rewrite Hsubs, Hd. rewrite decide_False by (by intros [? ?]). done. }
  destruct Hnotify as (Ho & Hi & Hl).
  pose proof (keeps_buffer_notifySubscribers E fuel feedName message s2) as Hbuf.
  unfold keeps_buffer in Hbuf.
  pose proof (handleMessage_feeds E fuel now feedName data message s Hparse)
    as Hfeeds.
  assert (Hnew : buffer s2 !! feedName
                 = Some (keep_last maxBufferSize
                           (default [] (buffer s1 !! feedName)
                              ++ [make_entry now message]))).
  { subst s2. rewrite addToBuffer_run. unfold state_of. simpl.
    apply lookup_insert_eq. }
  assert (Hnote : ∀ feed, assoc feedName (feeds s) = Some feed →
    assoc feedName (feeds (state_of (note_message feedName message s)))
    = Some (touch_feed message feed)).
  { intros feed Hfeed. unfold note_message, modify, state_of. simpl.
    rewrite Hfeed. simpl. rewrite assoc_assoc_set. by rewrite String.eqb_refl. }
  rewrite Hrun in *. clearbody s2. clear Hrun. unfold try_catch in *.
  destruct (notifySubscribers E fuel feedName message s2) as [[o s3] t3].
  unfold outcome, state_of, trace_of in *. cbn [fst snd] in Ho. subst o.
  cbn [fst snd] in *.
  split; [done|]. split; [|split; [done|split; [|done]]].
  - destruct (getBuffer_limit s3 feedName 1) as [Hg _]. rewrite Hg.
    change (0 <? 1)%Z with true. change (Z.to_nat 1) with 1. cbv iota.
    rewrite Hbuf, Hnew. cbn [default from_option id].
    rewrite keep_last_keep_last by (unfold maxBufferSize; lia).
    apply keep_last_one_snoc.
  - intros feed Hfeed. rewrite Hfeeds. by apply Hnote.
Qed.

(** X18. When the payload parses to a message other than [null], the
    feed's handler returns -- as it does whenever the collaborators do not
    throw and the feed is not named after a property of
    [Object.prototype] -- and the callbacks of the addressed channel do not
    themselves subscribe or unsubscribe on it, [handleMessage] runs the
    whole pipeline: it returns normally; the message, stamped with its
    arrival time, is the newest entry of the feed's buffer (also for a feed
    name that is not registered); every subscriber of the message's
    (feed, channel) is called once with the message, in subscription order;
    a registered feed has its status set to [connected], its count raised
    by one and the message as last message; and the only error lines
    logged are those of throwing subscribers. *)
Theorem healthy_pipeline_buffers_and_notifies (E : Env) (fuel : nat) (now : Z)
    (feedName data : string) (message : json) (ch : option json)
    (channel : string) (s : Service) :
  JSON_parse E data = Some message →
  (∀ h, handlers E feedName = Some h → outcome (h message s) = Ret tt) →
  get_prop message "channel" = inr ch →
  channel_of E ch = inr channel →
  leave_alone E (subscription_key feedName channel) message
    (default [] (subscribers s !! subscription_key feedName channel)) →
  length (default [] (subscribers s !! subscription_key feedName channel))
  ≤ fuel →
  (outcome (handleMessage E fuel now feedName data s) = Ret tt
   ∧ getBuffer (state_of (handleMessage E fuel now feedName data s)) feedName
       (Some 1%Z) = [make_entry now message]
   ∧ invoked (trace_of (handleMessage E fuel now feedName data s))
     = (fun cb => (cb, message)) <$> subscribers_of s feedName channel
   ∧ (∀ feed, assoc feedName (feeds s) = Some feed →
        assoc feedName (feeds (state_of (handleMessage E fuel now feedName data s)))
        = Some {| websocket := websocket feed; config := config feed;
                  status := "connected"; lastMessage := message;
                  messageCount := S (messageCount feed) |})
   ∧ length (logged_errors (trace_of (handleMessage E fuel now feedName data s)))
     = length (filter (throws E message) (subscribers_of s feedName channel)))
  ∧ (healthy E → inherited feedName = false →
     ∀ h s', handlers E feedName = Some h → outcome (h message s') = Ret tt).
Proof.
  intros Hparse Hh Hch Hc Hq Hfuel. split.
  - by apply (handleMessage_pipeline _ _ _ _ _ _ ch).
  - intros Hhealthy Hin h s' Hhd.
    assert (Hnn : message ≠ JNull) by (by intros ->).
    by rewrite (handlers_healthy E feedName h message s' Hhealthy Hnn Hin Hhd).
Qed.

(** The payload [{}] on the open market feed, with callback 1 subscribed to
    the default channel. *)
Lemma healthy_pipeline_buffers_and_notifies_witness :
  JSON_parse Demo.env "{}" = Some (JObj [])
  ∧ (∀ h, handlers Demo.env "market" = Some h →
          outcome (h (JObj []) Demo.default_and_ticker) = Ret tt)
  ∧ get_prop (JObj []) "channel" = inr None
  ∧ channel_of Demo.env None = inr "default"
  ∧ leave_alone Demo.env (subscription_key "market" "default") (JObj [])
      (default [] (subscribers Demo.default_and_ticker
                     !! subscription_key "market" "default"))
  ∧ length (default [] (subscribers Demo.default_and_ticker
                          !! subscription_key "market" "default")) ≤ 1
  ∧ getBuffer (state_of (handleMessage Demo.env 1 5 "market" "{}"
                           Demo.default_and_ticker)) "market" (Some 1%Z)
    = [make_entry 5 (JObj [])]
  ∧ invoked (trace_of (handleMessage Demo.env 1 5 "market" "{}"
                         Demo.default_and_ticker))
    = (fun cb => (cb, JObj [])) <$> subscribers_of Demo.default_and_ticker
                                      "market" "default".
Proof.
  assert (H1 : JSON_parse Demo.env "{}" = Some (JObj [])) by reflexivity.
  assert (H2 : ∀ h, handlers Demo.env "market" = Some h →
                    outcome (h (JObj []) Demo.default_and_ticker) = Ret tt)
    by (intros h [= <-]; reflexivity).
  assert (H3 : get_prop (JObj []) "channel" = inr None) by reflexivity.
  assert (H3' : channel_of Demo.env None = inr "default") by reflexivity.
  assert (H4 : leave_alone Demo.env (subscription_key "market" "default")
      (JObj [])
      (default [] (subscribers Demo.default_and_ticker
                     !! subscription_key "market" "default")))
    by (vm_compute; repeat constructor).
  assert (H5 : length (default [] (subscribers Demo.default_and_ticker
                    !! subscription_key "market" "default")) ≤ 1)
    by (vm_compute; lia).
  pose proof (healthy_pipeline_buffers_and_notifies Demo.env 1 5 "market" "{}"
                (JObj []) None "default" Demo.default_and_ticker
                H1 H2 H3 H3' H4 H5)
    as ((_ & Hb & Hi & _) & _).
  split; [exact H1|]. split; [exact H2|]. split; [exact H3|].
  split; [exact H3'|]. split; [exact H4|]. split; [exact H5|].
  split; [exact Hb | exact Hi].
Defined.

(** * The health check *)

Lemma check_feed_run E now feedName feed s :
  check_feed E now feedName feed s =
    match is_stale E now feed with
    | inl e => (Throw e, s, [])
    | inr true =>
        let warn :=
          Console Warn ("No message from " +:+ feedName +:+ " feed for 1 minute") in
        if socket_not_open s feed then
          let '(o, s', t) := attemptReconnect (config feed) s in (o, s', warn :: t)
        else (Ret tt, s, [warn])
    | inr false => (Ret tt, s, [])
    end.
Proof.
  unfold check_feed. destruct (is_stale E now feed) as [e|[|]]; [done| |done].
  unfold bind at 1. simpl. rewrite run_emit. unfold bind at 1, gets. simpl.
  destruct (socket_not_open s feed); [|done].
  by destruct (attemptReconnect (config feed) s) as [[o s'] t].
Qed.

Lemma health_frame_refl s : health_frame s [] s.
Proof. by repeat split. Qed.

Lemma health_frame_trans s1 t1 s2 t2 s3 :
  health_frame s1 t1 s2 → health_frame s2 t2 s3 → health_frame s1 (t1 ++ t2) s3.
Proof.
  intros (Hf & Hs & Ht & Ha) (Hf' & Hs' & Ht' & Ha'). repeat split.
  - congruence.
  - congruence.
  - auto.
  - intros n. specialize (Ha n). specialize (Ha' n). lia.
Qed.

Lemma health_frame_attemptReconnect config :
  respects health_frame (attemptReconnect config).
Proof.
  intros s. rewrite attemptReconnect_run. simpl. case_decide.
  - apply health_frame_refl.
  - unfold state_of; simpl. repeat split; simpl.
    + intros x Hx. apply elem_of_app. by left.
    + intros n. destruct (decide (name config = n)) as [<-|Hne].
      * rewrite lookup_insert_eq. simpl. lia.
      * by rewrite lookup_insert_ne.
Qed.

Lemma health_frame_checkConnectionHealth E now :
  respects health_frame (checkConnectionHealth E now).
Proof.
  apply respects_checkConnectionHealth.
  - apply health_frame_refl.
  - apply health_frame_trans.
  - intros e s _. apply health_frame_refl.
  - apply health_frame_attemptReconnect.
Qed.

Lemma timeouts_app t1 t2 : timeouts (t1 ++ t2) = timeouts t1 ++ timeouts t2.
Proof. apply omap_app. Qed.

Lemma scheduled_app t1 t2 : scheduled (t1 ++ t2) = scheduled t1 ++ scheduled t2.
Proof. apply omap_app. Qed.

Lemma logged_warnings_app t1 t2 :
  logged_warnings (t1 ++ t2) = logged_warnings t1 ++ logged_warnings t2.
Proof. apply omap_app. Qed.

(** The timers that the health check leaves pending are those that were
    pending, followed by the ones it has started. *)
Lemma starts_timers_checkConnectionHealth E now :
  respects starts_timers (checkConnectionHealth E now).
Proof.
  apply respects_checkConnectionHealth; unfold starts_timers.
  - intros s. simpl. by rewrite app_nil_r.
  - intros s1 t1 s2 t2 s3 H1 H2. by rewrite H2, H1, timeouts_app, app_assoc.
  - intros e s He. destruct e; try (simpl; by rewrite app_nil_r).
    by destruct (He delay reconnect).
  - intros c s. rewrite attemptReconnect_run. simpl. case_decide.
    + unfold state_of, trace_of. simpl. by rewrite app_nil_r.
    + done.
Qed.

Lemma check_feed_returns E now n f s stale :
  is_stale E now f = inr stale → outcome (check_feed E now n f s) = Ret tt.
Proof.
  intros Hs. rewrite check_feed_run, Hs. destruct stale; [|done].
  destruct (socket_not_open s f); [|done].
  rewrite attemptReconnect_run. simpl. by case_decide.
Qed.

(** What the check of one feed logs and starts depends on the state only
    through the feed's socket and its reconnect counter. *)
Lemma check_feed_agree E now n f s s1 :
  sockets s1 = sockets s →
  reconnectAttempts s1 !! name (config f) = reconnectAttempts s !! name (config f) →
  trace_of (check_feed E now n f s1) = trace_of (check_feed E now n f s).
Proof.
  intros Hsock Hatt. rewrite !check_feed_run.
  destruct (is_stale E now f) as [e|[|]]; [done| |done].
  unfold socket_not_open. rewrite Hsock.
  destruct (sockets s !! websocket f) as [w|]; [|done].
  destruct (bool_decide (readyState w ≠ OPEN)); [|done].
  rewrite !attemptReconnect_run. simpl. rewrite Hatt. by case_decide.
Qed.

(** The check of one feed changes the reconnect counter of that feed
    only. *)
Lemma check_feed_state E now n f s :
  sockets (state_of (check_feed E now n f s)) = sockets s
  ∧ ∀ k, k ≠ name (config f) →
      reconnectAttempts (state_of (check_feed E now n f s)) !! k
      = reconnectAttempts s !! k.
Proof.
  rewrite check_feed_run.
  destruct (is_stale E now f) as [e|[|]]; [done| |done].
  destruct (socket_not_open s f); [|done].
  rewrite attemptReconnect_run. simpl. case_decide; [done|].
  unfold state_of. simpl. split; [done|].
  intros k Hk. by rewrite lookup_insert_ne.
Qed.

(** The loop of the health check, run on feeds with different names, does
    for every feed what the check of that feed alone would do in the state
    at the start. *)
Lemma health_loop_trace E now fs s s1 :
  NoDup (fst <$> fs) →
  (∀ n f, (n, f) ∈ fs → n = name (config f)) →
  (∀ n f, (n, f) ∈ fs → ∃ stale, is_stale E now f = inr stale) →
  sockets s1 = sockets s →
  (∀ n, n ∈ fst <$> fs → reconnectAttempts s1 !! n = reconnectAttempts s !! n) →
  outcome (for_each fs (fun '(n, f) => check_feed E now n f) s1) = Ret tt
  ∧ trace_of (for_each fs (fun '(n, f) => check_feed E now n f) s1)
    = flat_map (fun '(n, f) => trace_of (check_feed E now n f s)) fs.
Proof.
  revert s1. induction fs as [|[n f] fs IH]; intros s1 Hnd Hname Hread Hsock Hatt;
    [done|].
  csimpl in Hnd. apply NoDup_cons in Hnd as [Hn Hnd].
  assert (Hnf : n = name (config f)) by (apply Hname; left).
  destruct (Hread n f) as [stale Hstale]; [left|].
  pose proof (check_feed_returns E now n f s1 stale Hstale) as Hret.
  pose proof (check_feed_agree E now n f s s1 Hsock) as Hagree.
  rewrite <- Hnf in Hagree. specialize (Hagree (Hatt n ltac:(left))).
  destruct (check_feed_state E now n f s1) as [Hsock1 Hatt1].
  cbn [for_each flat_map]. rewrite run_bind.
  destruct (IH (state_of (check_feed E now n f s1))) as [Ho Ht].
  - done.
  - intros n' f' Hin. apply Hname. by right.
  - intros n' f' Hin. apply (Hread n' f'). by right.
  - congruence.
  - intros n' Hin. rewrite Hatt1.
    + apply Hatt. by right.
    + rewrite <- Hnf. intros ->. done.
  - destruct (check_feed E now n f s1) as [[o s2] t2].
    unfold outcome, state_of, trace_of in *. cbn [fst snd] in *. subst o.
    destruct (for_each fs _ s2) as [[o3 s3] t3]. cbn [fst snd] in *.
    by rewrite Ho, Ht, Hagree.
Qed.

Lemma scheduled_check_feed E now n f s :
  scheduled (trace_of (check_feed E now n f s))
  = if decide (reconnect_due E now s f) then [config f] else [].
Proof.
  rewrite check_feed_run.
  destruct (decide (reconnect_due E now s f)) as [(Hs & Hc & Ha)|Hno].
  - rewrite Hs, Hc, attemptReconnect_run. simpl.
    by rewrite decide_False by lia.
  - destruct (is_stale E now f) as [e|[|]] eqn:Hs; [done| |done].
    destruct (socket_not_open s f) eqn:Hc; [|done].
    rewrite attemptReconnect_run. simpl. case_decide; [done|].
    exfalso. apply Hno. repeat split; [done..|lia].
Qed.

Lemma logged_warnings_check_feed E now n f s :
  logged_warnings (trace_of (check_feed E now n f s))
  = if decide (is_stale E now f = inr true)
    then ["No message from " +:+ n +:+ " feed for 1 minute"] else [].
Proof.
  rewrite check_feed_run.
  destruct (is_stale E now f) as [e|[|]] eqn:Hs; [done| |done].
  rewrite decide_True by done.
  destruct (socket_not_open s f); [|done].
  rewrite attemptReconnect_run. simpl. by case_decide.
Qed.

Lemma sent_check_feed E now n f s : sent (trace_of (check_feed E now n f s)) = [].
Proof.
  rewrite check_feed_run.
  destruct (is_stale E now f) as [e|[|]]; [done| |done].
  destruct (socket_not_open s f); [|done].
  rewrite attemptReconnect_run. simpl. by case_decide.
Qed.

Lemma scheduled_other_feeds E now fs s feedName :
  (∀ n f, (n, f) ∈ fs → n = name (config f)) →
  feedName ∉ fst <$> fs →
  filter (fun c => name c = feedName)
    (scheduled (flat_map (fun '(n, f) => trace_of (check_feed E now n f s)) fs))
  = [].
Proof.
  induction fs as [|[n f] fs IH]; intros Hname Hn; [done|].
  cbn [flat_map]. rewrite scheduled_app, filter_app, scheduled_check_feed.
  rewrite IH.
  - rewrite app_nil_r.
    destruct (decide (reconnect_due E now s f)) as [Hdue|Hno]; [|done].
    rewrite filter_cons_False; [done|].
    intros Heq. apply Hn. csimpl. apply elem_of_cons. left.
    rewrite <- Heq. symmetry. apply Hname. left.
  - intros n0 f0 Hin0. apply Hname. by right.
  - intros Hin. apply Hn. csimpl. by right.
Qed.

Lemma scheduled_this_feed E now fs s feedName feed :
  NoDup (fst <$> fs) →
  (∀ n f, (n, f) ∈ fs → n = name (config f)) →
  (feedName, feed) ∈ fs →
  filter (fun c => name c = feedName)
    (scheduled (flat_map (fun '(n, f) => trace_of (check_feed E now n f s)) fs))
  = (if decide (reconnect_due E now s feed) then [config feed] else []).
Proof.
  induction fs as [|[n f] fs IH]; intros Hnd Hname Hin;
    [by apply elem_of_nil in Hin|].
  csimpl in Hnd. apply NoDup_cons in Hnd as [Hn Hnd].
  cbn [flat_map]. rewrite scheduled_app, filter_app, scheduled_check_feed.
  assert (Hnf : n = name (config f)) by (apply Hname; left).
  assert (Htail : ∀ n0 f0, (n0, f0) ∈ fs → n0 = name (config f0))
    by (intros n0 f0 Hin0; apply Hname; by right).
  apply elem_of_cons in Hin as [[= <- <-]|Hin].
  - rewrite scheduled_other_feeds by done. rewrite app_nil_r.
    destruct (decide (reconnect_due _ _ _ _)) as [Hdue|Hno]; [|done].
    by rewrite filter_cons_True.
  - rewrite IH by done.
    destruct (decide (reconnect_due E now s f)) as [Hdue|Hno]; [|done].
    rewrite filter_cons_False; [done|].
    intros Heq. apply Hn. apply list_elem_of_fmap.
    exists (feedName, feed). split; [|done]. simpl. congruence.
Qed.

Lemma reconnects_of_checkConnectionHealth E now n :
  respects (counts_reconnects n) (checkConnectionHealth E now).
Proof.
  apply respects_checkConnectionHealth.
  - apply counts_reconnects_refl.
  - apply counts_reconnects_trans.
  - intros e s He. apply counts_reconnects_nothing; [|done].
    destruct e; try done. by destruct (He delay reconnect).
  - intros c s. rewrite attemptReconnect_run. simpl. case_decide.
    + by apply counts_reconnects_nothing.
    + unfold counts_reconnects, reconnects_of, state_of, trace_of. simpl.
      destruct (decide (name c = n)) as [<-|Hne].
      * rewrite filter_cons_True by done. rewrite lookup_insert_eq. simpl. lia.
      * rewrite filter_cons_False by done. rewrite lookup_insert_ne by done.
        simpl. lia.
Qed.

(** C5 (amended).  In every state the service reaches, when the staleness
    check runs (and the [timestamp] of every feed's last message has a
    numeric reading, as every JSON value other than an object with its own
    [toString] has), each registered feed is treated on its own:
    - one warning is logged for every feed whose last message is more than
      60 seconds old, and none for the others;
    - a reconnect is scheduled for the feed exactly when it is stale, its
      socket does not report itself open and it has reconnect attempts
      left; the feed's reconnect counter then goes up by one and the timer
      is one the check has started, not one that was pending;
    - for a stale feed whose socket reports itself open, and for a feed
      that is not stale, nothing is scheduled and the counter stays.
    The check changes no feed record (no feed is marked unhealthy), closes
    no socket and sends nothing. *)
Theorem stale_feed_reconnects_only_when_socket_not_open (E : Env) (fuel : nat)
    (evs : list event) (now : Z) (feedName : string) (feed : Feed) :
  let s := state_of (run E fuel evs new_service) in
  let r := checkConnectionHealth E now s in
  (∀ n f, (n, f) ∈ feeds s → ∃ stale, is_stale E now f = inr stale) →
  (feedName, feed) ∈ feeds s →
  outcome r = Ret tt
  ∧ (feeds (state_of r) = feeds s ∧ sockets (state_of r) = sockets s
     ∧ sent (trace_of r) = [])
  ∧ logged_warnings (trace_of r)
    = omap (fun '(n, f) =>
              if decide (is_stale E now f = inr true)
              then Some ("No message from " +:+ n +:+ " feed for 1 minute")
              else None) (feeds s)
  ∧ filter (fun c => name c = feedName) (scheduled (trace_of r))
    = (if decide (reconnect_due E now s feed) then [config feed] else [])
  ∧ default 0 (reconnectAttempts (state_of r) !! feedName)
    = default 0 (reconnectAttempts s !! feedName)
      + (if decide (reconnect_due E now s feed) then 1 else 0)
  ∧ timers (state_of r) = timers s ++ timeouts (trace_of r)
  ∧ (reconnect_due E now s feed →
     (reconnectInterval (config feed), config feed) ∈ timeouts (trace_of r)).
Proof.
  intros s r Hread Hin.
  pose proof (keeps_feeds_wf_run E fuel evs new_service feeds_wf_new_service)
    as [Hnd Hwf]. fold s in Hnd, Hwf.
  assert (Hname : ∀ n f, (n, f) ∈ feeds s → n = name (config f)).
  { intros n f Hnf. apply (Hwf n f). by apply assoc_NoDup. }
  destruct (health_loop_trace E now (feeds s) s s Hnd Hname Hread eq_refl
              ltac:(done)) as [Ho Ht].
  assert (Hr : r = for_each (feeds s) (fun '(n, f) => check_feed E now n f) s).
  { subst r. unfold checkConnectionHealth. by rewrite run_gets. }
  pose proof (health_frame_checkConnectionHealth E now s) as (Hf & Hs & _ & _).
  pose proof (starts_timers_checkConnectionHealth E now s) as Htimers.
  pose proof (reconnects_of_checkConnectionHealth E now feedName s) as Hcount.
  fold r in Hf, Hs, Htimers, Hcount. unfold starts_timers in Htimers.
  unfold counts_reconnects, reconnects_of in Hcount.
  rewrite <- Hr in Ho, Ht.
  assert (Hsent : sent (trace_of r) = []).
  { rewrite Ht. clear. induction (feeds s) as [|[n f] fs IH]; [done|].
    cbn [flat_map]. unfold sent in *. rewrite omap_app.
    fold (sent (trace_of (check_feed E now n f s))).
    by rewrite sent_check_feed, IH. }
  assert (Hwarn : logged_warnings (trace_of r)
    = omap (fun '(n, f) =>
              if decide (is_stale E now f = inr true)
              then Some ("No message from " +:+ n +:+ " feed for 1 minute")
              else None) (feeds s)).
  { rewrite Ht. clear. induction (feeds s) as [|[n f] fs IH]; [done|].
    cbn [flat_map]. rewrite logged_warnings_app, logged_warnings_check_feed, IH.
    csimpl. by case_decide. }
  assert (Hsched : filter (fun c => name c = feedName) (scheduled (trace_of r))
    = (if decide (reconnect_due E now s feed) then [config feed] else [])).
  { rewrite Ht. by apply scheduled_this_feed. }
  split; [exact Ho|]. split; [done|]. split; [exact Hwarn|].
  split; [exact Hsched|]. split; [|split; [exact Htimers|]].
  - rewrite Hcount. unfold scheduled in Hsched. unfold scheduled.
    rewrite Hsched. by case_decide.
  - intros Hdue.
    assert (Hc : config feed ∈ filter (fun c => name c = feedName)
                   (scheduled (trace_of r))).
    { rewrite Hsched, decide_True by done. left. }
    apply list_elem_of_filter in Hc as [_ Hc].
    unfold scheduled in Hc. apply list_elem_of_omap in Hc as (e & He & Hsome).
    destruct e as [| | |d c]; try done. injection Hsome as ->.
    assert (Hd : d = reconnectInterval (config feed)).
    { rewrite Ht in He. clear -He.
      induction (feeds s) as [|[n f] fs IH]; [by apply elem_of_nil in He|].
      cbn [flat_map] in He. apply elem_of_app in He as [He|He]; [|by apply IH].
      rewrite check_feed_run in He.
      destruct (is_stale E now f) as [e|[|]]; try by apply elem_of_nil in He.
      destruct (socket_not_open s f).
      - rewrite attemptReconnect_run in He. simpl in He.
        case_decide; unfold trace_of in He; simpl in He;
          repeat (apply elem_of_cons in He as [He|He]; [congruence|]);
          by apply elem_of_nil in He.
      - unfold trace_of in He. simpl in He.
        repeat (apply elem_of_cons in He as [He|He]; [congruence|]);
          by apply elem_of_nil in He. }
    subst d. unfold timeouts. apply list_elem_of_omap.
    by exists (SetTimeout (reconnectInterval (config feed)) (config feed)).
Qed.

(** C5, as stated, fails.  On the open market feed that has not received a
    message, at a clock reading of 100 s the feed is stale and its socket is
    open; the check logs its warning and leaves the whole service as it was:
    the socket is still open, no reconnect is scheduled, and the feed's
    status is unchanged. *)
Lemma stale_open_feed_is_not_reconnected :
  (∃ feed, assoc "market" (feeds Demo.open_market) = Some feed
           ∧ is_stale Demo.env 100000 feed = inr true
           ∧ socket_not_open Demo.open_market feed = false)
  ∧ open_socket Demo.open_market "market" = Some 0
  ∧ state_of (checkConnectionHealth Demo.env 100000 Demo.open_market)
    = Demo.open_market
  ∧ trace_of (checkConnectionHealth Demo.env 100000 Demo.open_market)
    = [Console Warn "No message from market feed for 1 minute"]
  ∧ getConnectionStatus
      (state_of (checkConnectionHealth Demo.env 100000 Demo.open_market)) "market"
    = "connecting".
Proof.
  split.
  - eexists. split; [by vm_compute|]. by vm_compute.
  - by vm_compute.
Qed.

(** The market feed after its first connection attempt failed: at 100 s the
    check schedules its second reconnect. *)
Lemma stale_feed_reconnects_only_when_socket_not_open_witness :
  (∀ n f,
     (n, f) ∈ feeds (state_of (run Demo.env 0
                                 [Start Demo.market; SocketError 0; SocketCloses 0]
                                 new_service)) →
     ∃ stale, is_stale Demo.env 100000 f = inr stale)
  ∧ ("market", Demo.closed_market_feed)
      ∈ feeds (state_of (run Demo.env 0
                           [Start Demo.market; SocketError 0; SocketCloses 0]
                           new_service))
  ∧ filter (fun c => name c = "market")
      (scheduled (trace_of (checkConnectionHealth Demo.env 100000
         (state_of (run Demo.env 0
                      [Start Demo.market; SocketError 0; SocketCloses 0]
                      new_service)))))
    = (if decide (reconnect_due Demo.env 100000
                    (state_of (run Demo.env 0
                                 [Start Demo.market; SocketError 0; SocketCloses 0]
                                 new_service))
                    Demo.closed_market_feed)
       then [config Demo.closed_market_feed] else []).
Proof.
  assert (H1 : ∀ n f,
     (n, f) ∈ feeds (state_of (run Demo.env 0
                                 [Start Demo.market; SocketError 0; SocketCloses 0]
                                 new_service)) →
     ∃ stale, is_stale Demo.env 100000 f = inr stale).
  { intros n f Hin. vm_compute in Hin.
    apply list_elem_of_singleton in Hin. injection Hin as -> ->.
    by exists true. }
  assert (H2 : ("market", Demo.closed_market_feed)
      ∈ feeds (state_of (run Demo.env 0
                           [Start Demo.market; SocketError 0; SocketCloses 0]
                           new_service)))
    by (vm_compute; left).
  split; [exact H1|]. split; [exact H2|].
  exact (proj1 (proj2 (proj2 (proj2
    (stale_feed_reconnects_only_when_socket_not_open Demo.env 0
       [Start Demo.market; SocketError 0; SocketCloses 0] 100000
       "market" Demo.closed_market_feed H1 H2))))).
Defined.

(** * The pipeline as a whole *)


(** When the handler returns and the notification throws, the message has
    been recorded and buffered, and the error is logged. *)
Lemma handleMessage_notify_throws E fuel now feedName data message e s :
  JSON_parse E data = Some message →
  (∀ h, handlers E feedName = Some h → outcome (h message s) = Ret tt) →
  (∀ s', notifySubscribers E fuel feedName message s' = (Throw e, s', [])) →
  handleMessage E fuel now feedName data s =
    (Ret tt,
     state_of (addToBuffer now feedName message
                 (state_of (note_message feedName message s))),
     [Console Error ("Error handling message from " +:+ feedName)]).
Proof.
  intros Hparse Hh Hthrow.
  set (s1 := state_of (note_message feedName message s)).
  unfold handleMessage, try_catch. rewrite Hparse, run_ret.
  unfold note_message at 1. rewrite run_modify.
  change (match assoc feedName (feeds s) with
          | Some feed =>
              with_feeds (assoc_set feedName (touch_feed message feed) (feeds s)) s
          | None => s
          end) with s1.
  rewrite run_bind.
  assert (Hhandler : match handlers E feedName with
                     | Some handler => handler message
                     | None => ret tt
                     end s1 = (Ret tt, s1, [])).
  { destruct (handlers E feedName) as [h|] eqn:Hhd; [|done].
    destruct (stateless_handlers E feedName h message Hhd) as [o Ho].
    specialize (Hh h eq_refl). rewrite Ho in Hh. unfold outcome in Hh.
    simpl in Hh. subst o. apply Ho. }
  rewrite Hhandler, run_bind. rewrite addToBuffer_run.
  unfold state_of. cbn [fst snd]. by rewrite Hthrow.
Qed.

(** C8. A payload that [JSON.parse] rejects is dropped: [handleMessage]
    returns normally, logs one error line and leaves the whole service
    state (feeds, sockets, buffer, subscriber table) as it was.  The next
    message on the feed is processed exactly as if the malformed one had
    never arrived; and when that message is valid -- it parses, the feed's
    handler returns on it, and the callbacks of its channel do not
    themselves subscribe or unsubscribe on that channel -- it is recorded
    as the feed's last message, it is the newest entry of the feed's
    buffer, and it is delivered to every subscriber of its (feed, channel),
    once each, in subscription order. *)
Theorem malformed_payload_is_dropped (E : Env) (fuel : nat) (now : Z)
    (feedName data : string) (s : Service) :
  JSON_parse E data = None →
  handleMessage E fuel now feedName data s =
    (Ret tt, s, [Console Error ("Error handling message from " +:+ feedName)])
  ∧ (∀ fuel' now' data',
       (handleMessage E fuel now feedName data;;
        handleMessage E fuel' now' feedName data') s =
       (outcome (handleMessage E fuel' now' feedName data' s),
        state_of (handleMessage E fuel' now' feedName data' s),
        Console Error ("Error handling message from " +:+ feedName)
          :: trace_of (handleMessage E fuel' now' feedName data' s)))
  ∧ (∀ fuel' now' data' message ch channel,
       JSON_parse E data' = Some message →
       (∀ h, handlers E feedName = Some h → outcome (h message s) = Ret tt) →
       get_prop message "channel" = inr ch →
       channel_of E ch = inr channel →
       leave_alone E (subscription_key feedName channel) message
         (default [] (subscribers s !! subscription_key feedName channel)) →
       length (default [] (subscribers s !! subscription_key feedName channel))
       ≤ fuel' →
       outcome ((handleMessage E fuel now feedName data;;
                 handleMessage E fuel' now' feedName data') s) = Ret tt
       ∧ getBuffer (state_of ((handleMessage E fuel now feedName data;;
                               handleMessage E fuel' now' feedName data') s))
           feedName (Some 1%Z) = [make_entry now' message]
       ∧ invoked (trace_of ((handleMessage E fuel now feedName data;;
                             handleMessage E fuel' now' feedName data') s))
         = (fun cb => (cb, message)) <$> subscribers_of s feedName channel
       ∧ (∀ feed, assoc feedName (feeds s) = Some feed →
            assoc feedName
              (feeds (state_of ((handleMessage E fuel now feedName data;;
                                 handleMessage E fuel' now' feedName data') s)))
            = Some {| websocket := websocket feed; config := config feed;
                      status := "connected"; lastMessage := message;
                      messageCount := S (messageCount feed) |})).
Proof.
  intros Hbad.
  assert (Hrun : handleMessage E fuel now feedName data s =
    (Ret tt, s, [Console Error ("Error handling message from " +:+ feedName)])).
  { unfold handleMessage, try_catch. rewrite Hbad. by rewrite run_throw. }
  assert (Hnext : ∀ fuel' now' data',
    (handleMessage E fuel now feedName data;;
     handleMessage E fuel' now' feedName data') s =
    (outcome (handleMessage E fuel' now' feedName data' s),
     state_of (handleMessage E fuel' now' feedName data' s),
     Console Error ("Error handling message from " +:+ feedName)
       :: trace_of (handleMessage E fuel' now' feedName data' s))).
  { intros fuel' now' data'. rewrite run_bind, Hrun.
    by destruct (handleMessage E fuel' now' feedName data' s) as [[o s'] t]. }
  split; [exact Hrun|]. split; [exact Hnext|].
  intros fuel' now' data' message ch channel Hparse Hh Hch Hc Hq Hfuel.
  rewrite Hnext. unfold outcome at 1, state_of at 1 3, trace_of at 1.
  cbn [fst snd].
  destruct (handleMessage_pipeline E fuel' now' feedName data' message ch channel
              s Hparse Hh Hch Hc Hq Hfuel) as (Ho & Hb & Hi & Hf & _).
  split; [exact Ho|]. split; [exact Hb|]. split; [|exact Hf].
  exact Hi.
Qed.

(** A payload that is not JSON, on the market feed, followed by the
    payload [{}]: callback 1, subscribed to the default channel, receives
    the second. *)
Lemma malformed_payload_is_dropped_witness :
  JSON_parse Demo.env "{not json" = None
  ∧ handleMessage Demo.env 1 5 "market" "{not json" Demo.default_and_ticker =
      (Ret tt, Demo.default_and_ticker,
       [Console Error ("Error handling message from " +:+ "market")])
  ∧ invoked (trace_of ((handleMessage Demo.env 1 5 "market" "{not json";;
                        handleMessage Demo.env 1 6 "market" "{}")
                         Demo.default_and_ticker))
    = (fun cb => (cb, JObj [])) <$> subscribers_of Demo.default_and_ticker
                                      "market" "default".
Proof.
  assert (H : JSON_parse Demo.env "{not json" = None) by reflexivity.
  pose proof (malformed_payload_is_dropped Demo.env 1 5 "market" "{not json"
                Demo.default_and_ticker H) as (Hrun & _ & Hvalid).
  split; [exact H|]. split; [exact Hrun|].
  refine (proj1 (proj2 (proj2
    (Hvalid 1 6%Z "{}" (JObj []) None "default" _ _ _ _ _ _)))).
  - reflexivity.
  - intros h [= <-]. reflexivity.
  - reflexivity.
  - reflexivity.
  - vm_compute. repeat constructor.
  - vm_compute. lia.
Defined.




(** ** Market data *)

Section MarketDataProofs.
Import MarketData.

Lemma same_key_sym a b : same_key a b = same_key b a.
Proof.
  destruct a as [[| | | | |]|], b as [[| | | | |]|]; simpl; try done.
  - by destruct b0, b.
  - apply Z.eqb_sym.
  - apply String.eqb_sym.
Qed.

Lemma same_key_trans a b c :
  same_key a b = true → same_key b c = true → same_key a c = true.
Proof.
  destruct a as [[| | | | |]|], b as [[| | | | |]|], c as [[| | | | |]|];
    simpl; try done.
  - destruct b0, b, b1; done.
  - intros ?%Z.eqb_eq ?%Z.eqb_eq. apply Z.eqb_eq. congruence.
  - intros ?%String.eqb_eq ?%String.eqb_eq. apply String.eqb_eq. congruence.
Qed.

Lemma map_get_set key key' o m :
  same_key key key' = true → map_get key (map_set key' o m) = Some o.
Proof.
  intros Hk. induction m as [|[k0 o0] m IH]; simpl.
  - by rewrite Hk.
  - destruct (same_key key' k0) eqn:Hk0; simpl.
    + by rewrite (same_key_trans _ _ _ Hk Hk0).
    + destruct (same_key key k0) eqn:Hkk0; [|done].
      rewrite same_key_sym in Hk.
      by rewrite (same_key_trans _ _ _ Hk Hkk0) in Hk0.
Qed.

Lemma map_get_set_other key key' o m :
  same_key key key' = false → map_get key (map_set key' o m) = map_get key m.
Proof.
  intros Hk. induction m as [|[k0 o0] m IH]; simpl.
  - by rewrite Hk.
  - destruct (same_key key' k0) eqn:Hk0; simpl.
    + destruct (same_key key k0) eqn:Hkk0; [|done].
      rewrite same_key_sym in Hk0.
      by rewrite (same_key_trans _ _ _ Hkk0 Hk0) in Hk.
    + destruct (same_key key k0); [done|apply IH].
Qed.

Lemma map_set_unmatched key o m :
  same_key key key = false →
  map_set key o m = m ++ [(key, o)] ∧ map_get key (map_set key o m) = None.
Proof.
  intros Hk.
  assert (Hno : ∀ k0, same_key key k0 = false).
  { intros k0. destruct (same_key key k0) eqn:Hk0; [|done].
    pose proof Hk0 as Hk0'. rewrite same_key_sym in Hk0'.
    by rewrite (same_key_trans _ _ _ Hk0 Hk0') in Hk. }
  induction m as [|[k0 o0] m [IH1 IH2]]; simpl.
  - by rewrite Hk.
  - rewrite !Hno. simpl. rewrite Hno. by rewrite IH1 in *.
Qed.

Lemma stored_store sym fs rt k :
  stored (store (Some (JStr sym)) fs (Some rt)) (Some (JStr sym)) k
  = assoc k (set_fields fs (default [] (map_get (Some (JStr sym)) rt))).
Proof.
  unfold stored, store. simpl.
  rewrite map_get_set by (simpl; apply String.eqb_refl). done.
Qed.

Lemma stored_store_other symbol fs rt other k :
  same_key other symbol = false →
  stored (store symbol fs (Some rt)) other k = stored (Some rt) other k.
Proof.
  intros Hk. unfold stored, store. simpl. by rewrite map_get_set_other.
Qed.

Lemma stored_default rt symbol k :
  assoc k (default [] (map_get symbol rt)) = stored (Some rt) symbol k.
Proof. unfold stored. by destruct (map_get symbol rt). Qed.

Lemma symbol_not_null message sym :
  field message "symbol" = Some (JStr sym) → ∃ fields, message = JObj fields.
Proof. destruct message; try done. eauto. Qed.

(** X19. [updateMarketPrice] on a message with a string [symbol] stores,
    under that symbol, the object it had there with [price], [change],
    [changePercent] and [timestamp] replaced by the message's -- a field the
    message lacks is stored as [undefined], overwriting what was there --
    and every other property (for instance [volume] or [orderbook]) kept.
    The entries of other symbols are untouched.  The store has happened
    also when the DOM update that follows throws; without
    [multiMarketEngine] nothing is stored. *)
Theorem price_update_merges_into_the_stored_object (ui_throws : bool)
    (message : json) (sym : string) (rt : RealTimeData) :
  field message "symbol" = Some (JStr sym) →
  fst (updateMarketPrice ui_throws message (Some rt))
  = (if ui_throws then inl (ExternalError "updatePriceUI") else inr tt)
  ∧ (Forall (fun k =>
       stored (snd (updateMarketPrice ui_throws message (Some rt)))
         (Some (JStr sym)) k = Some (Plain (field message k)))
       ["price"; "change"; "changePercent"; "timestamp"])
  ∧ (∀ k, k ∉ ["price"; "change"; "changePercent"; "timestamp"] →
       stored (snd (updateMarketPrice ui_throws message (Some rt)))
         (Some (JStr sym)) k
       = stored (Some rt) (Some (JStr sym)) k)
  ∧ (∀ other k, same_key other (Some (JStr sym)) = false →
       stored (snd (updateMarketPrice ui_throws message (Some rt))) other k
       = stored (Some rt) other k)
  ∧ snd (updateMarketPrice ui_throws message None) = None.
Proof.
  intros Hsym. destruct (symbol_not_null _ _ Hsym) as [fields ->].
  unfold updateMarketPrice. cbn [fst snd]. rewrite Hsym.
  split; [done|]. split; [|split; [|split; [|done]]].
  - repeat constructor; rewrite stored_store; unfold set_fields, price_fields;
      cbn [foldl]; rewrite !assoc_assoc_set; reflexivity.
  - intros k Hk. rewrite stored_store. unfold set_fields, price_fields.
    cbn [foldl]. rewrite !assoc_assoc_set.
    repeat match goal with
           | |- context [String.eqb k ?s] =>
               destruct (String.eqb_spec k s) as [->|_];
               [exfalso; apply Hk; set_solver|]
           end.
    apply stored_default.
  - intros other k Hother. by apply stored_store_other.
Qed.

(** A price message for BTCUSDT without [change] and [changePercent], on
    an empty Map. *)
Lemma price_update_merges_into_the_stored_object_witness :
  field (JObj [("symbol", JStr "BTCUSDT"); ("price", JNum 42)]) "symbol"
  = Some (JStr "BTCUSDT")
  ∧ Forall (fun k =>
       stored (snd (updateMarketPrice false
                      (JObj [("symbol", JStr "BTCUSDT"); ("price", JNum 42)])
                      (Some [])))
         (Some (JStr "BTCUSDT")) k
       = Some (Plain (field (JObj [("symbol", JStr "BTCUSDT"); ("price", JNum 42)]) k)))
       ["price"; "change"; "changePercent"; "timestamp"].
Proof.
  split; [reflexivity|].
  refine (proj1 (proj2
    (price_update_merges_into_the_stored_object false
       (JObj [("symbol", JStr "BTCUSDT"); ("price", JNum 42)]) "BTCUSDT" [] _))).
  reflexivity.
Defined.

(** X20. A price update and a volume update for the same symbol do not
    disturb each other: whichever comes first, afterwards the stored [price]
    is the price message's and the stored [volume] the volume message's;
    only [timestamp] is that of the later message.  A depth update likewise
    leaves [price] and [volume] alone and stores the [{bids, asks}] pair. *)
Theorem price_and_volume_updates_compose (ui_throws : bool)
    (p v d : json) (sym : string) (rt : RealTimeData) :
  field p "symbol" = Some (JStr sym) →
  field v "symbol" = Some (JStr sym) →
  field d "symbol" = Some (JStr sym) →
  (let e := snd (updateMarketVolume v
                   (snd (updateMarketPrice ui_throws p (Some rt)))) in
   stored e (Some (JStr sym)) "price" = Some (Plain (field p "price"))
   ∧ stored e (Some (JStr sym)) "volume" = Some (Plain (field v "volume"))
   ∧ stored e (Some (JStr sym)) "timestamp" = Some (Plain (field v "timestamp")))
  ∧ (let e := snd (updateMarketPrice ui_throws p
                     (snd (updateMarketVolume v (Some rt)))) in
     stored e (Some (JStr sym)) "price" = Some (Plain (field p "price"))
     ∧ stored e (Some (JStr sym)) "volume" = Some (Plain (field v "volume"))
     ∧ stored e (Some (JStr sym)) "timestamp" = Some (Plain (field p "timestamp")))
  ∧ (let e := snd (updateMarketDepth ui_throws d
                     (snd (updateMarketVolume v
                             (snd (updateMarketPrice ui_throws p (Some rt)))))) in
     stored e (Some (JStr sym)) "price" = Some (Plain (field p "price"))
     ∧ stored e (Some (JStr sym)) "volume" = Some (Plain (field v "volume"))
     ∧ stored e (Some (JStr sym)) "orderbook"
       = Some (Orderbook (field d "bids") (field d "asks"))).
Proof.
  intros Hp Hv Hd.
  destruct (symbol_not_null _ _ Hp) as [pf ->].
  destruct (symbol_not_null _ _ Hv) as [vf ->].
  destruct (symbol_not_null _ _ Hd) as [df ->].
  unfold updateMarketPrice, updateMarketVolume, updateMarketDepth.
  cbn [fst snd]. rewrite Hp, Hv, Hd.
  assert (Hstep : ∀ fs rt0 k,
    stored (store (Some (JStr sym)) fs (Some rt0)) (Some (JStr sym)) k
    = assoc k (set_fields fs (default [] (map_get (Some (JStr sym)) rt0))))
    by (intros; apply stored_store).
  assert (Hget : ∀ fs rt0,
    map_get (Some (JStr sym))
      (map_set (Some (JStr sym)) fs rt0) = Some fs)
    by (intros; apply map_get_set; simpl; apply String.eqb_refl).
  unfold store at 1 3 5. cbn [fmap option_fmap option_map].
  repeat split; unfold store; cbn [fmap option_fmap option_map];
    unfold stored; rewrite ?Hget; cbn [default from_option id];
    unfold set_fields, price_fields, volume_fields, depth_fields;
    cbn [foldl]; rewrite !assoc_assoc_set; reflexivity.
Qed.

(** A price message, then a volume message, for BTCUSDT. *)
Lemma price_and_volume_updates_compose_witness :
  field (JObj [("symbol", JStr "BTCUSDT"); ("price", JNum 42)]) "symbol"
  = Some (JStr "BTCUSDT")
  ∧ field (JObj [("symbol", JStr "BTCUSDT"); ("volume", JNum 7)]) "symbol"
    = Some (JStr "BTCUSDT")
  ∧ stored (snd (updateMarketVolume
                   (JObj [("symbol", JStr "BTCUSDT"); ("volume", JNum 7)])
                   (snd (updateMarketPrice false
                           (JObj [("symbol", JStr "BTCUSDT"); ("price", JNum 42)])
                           (Some [])))))
      (Some (JStr "BTCUSDT")) "price"
    = Some (Plain (field (JObj [("symbol", JStr "BTCUSDT"); ("price", JNum 42)])
                     "price")).
Proof.
  split; [reflexivity|]. split; [reflexivity|].
  refine (proj1 (proj1
    (price_and_volume_updates_compose false
       (JObj [("symbol", JStr "BTCUSDT"); ("price", JNum 42)])
       (JObj [("symbol", JStr "BTCUSDT"); ("volume", JNum 7)])
       (JObj [("symbol", JStr "BTCUSDT")]) "BTCUSDT" [] _ _ _)));
    reflexivity.
Defined.

(** X21. The symbol is used as Map key as it is.  A message without a
    [symbol] is stored under the key [undefined], one entry shared by all
    such messages; a message whose [symbol] is an array or an object adds a
    new entry at every update, which no later lookup finds. *)
Theorem update_without_string_symbol (message : json) (rt : RealTimeData) :
  message ≠ JNull →
  (field message "symbol" = None →
   stored (snd (updateMarketVolume message (Some rt))) None "volume"
   = Some (Plain (field message "volume")))
  ∧ (same_key (field message "symbol") (field message "symbol") = false →
     snd (updateMarketVolume message (Some rt))
     = Some (rt ++ [(field message "symbol", volume_fields message)])
     ∧ stored (snd (updateMarketVolume message (Some rt)))
         (field message "symbol") "volume" = None).
Proof.
  intros Hnn. split.
  - intros Hsym. unfold updateMarketVolume.
    destruct message; try done; cbn [snd]; rewrite Hsym;
      unfold stored, store; cbn [fmap option_fmap option_map];
      rewrite map_get_set by done;
      unfold set_fields, volume_fields; cbn [foldl];
      rewrite !assoc_assoc_set; reflexivity.
  - intros Hkey. unfold updateMarketVolume.
    assert (Hmiss : map_get (field message "symbol") rt = None).
    { induction rt as [|[k0 o0] rt IH]; [done|]. simpl.
      destruct (same_key (field message "symbol") k0) eqn:Hk0; [|done].
      pose proof Hk0 as Hk0'. rewrite same_key_sym in Hk0'.
      by rewrite (same_key_trans _ _ _ Hk0 Hk0') in Hkey. }
    destruct (map_set_unmatched (field message "symbol")
                (set_fields (volume_fields message)
                   (default [] (map_get (field message "symbol") rt))) rt Hkey)
      as [Hset Hget].
    destruct message; try done; cbn [snd]; unfold stored, store;
      cbn [fmap option_fmap option_map]; rewrite Hget, Hset, Hmiss; done.
Qed.

(** A volume message without a symbol, on an empty Map. *)
Lemma update_without_string_symbol_witness :
  JObj [("volume", JNum 7)] ≠ JNull
  ∧ stored (snd (updateMarketVolume (JObj [("volume", JNum 7)]) (Some [])))
      None "volume"
    = Some (Plain (field (JObj [("volume", JNum 7)]) "volume")).
Proof.
  assert (H : JObj [("volume", JNum 7)] ≠ JNull) by discriminate.
  split; [exact H|].
  refine (proj1 (update_without_string_symbol (JObj [("volume", JNum 7)]) [] H) _).
  reflexivity.
Defined.

End MarketDataProofs.

(** ** The complete statistics *)

Lemma assoc_own_set {A} k' k (v : A) o :
  assoc k' (own_set k v o) = if String.eqb k' k then Some v else assoc k' o.
Proof.
  induction o as [|[k0 v0] o IH]; [done|]. cbn [own_set].
  destruct (String.eqb_spec k k0) as [->|Hne].
  - cbn [assoc]. by destruct (String.eqb k' k0).
  - destruct (listed_before k k0); [done|]. cbn [assoc]. rewrite IH.
    destruct (String.eqb_spec k' k0) as [->|Hne']; [|done].
    by rewrite (proj2 (String.eqb_neq k0 k)).
Qed.

Lemma own_set_not_index {A} k (v : A) o :
  array_index k = None → k ∉ fst <$> o → own_set k v o = o ++ [(k, v)].
Proof.
  intros Hk. induction o as [|[k0 v0] o IH]; intros Hnin; [done|].
  cbn [own_set]. destruct (String.eqb_spec k k0) as [->|Hne].
  - exfalso. apply Hnin. left.
  - unfold listed_before. rewrite Hk. simpl. rewrite IH; [done|].
    intros Hin. apply Hnin. by right.
Qed.

Lemma keys_own_set {A} k (v : A) o x :
  x ∈ fst <$> own_set k v o ↔ x = k ∨ x ∈ fst <$> o.
Proof.
  induction o as [|[k0 v0] o IH]; csimpl.
  - rewrite list_elem_of_singleton. rewrite elem_of_nil. tauto.
  - destruct (String.eqb_spec k k0) as [->|Hne].
    + csimpl. rewrite elem_of_cons. tauto.
    + destruct (listed_before k k0); csimpl.
      * rewrite !elem_of_cons. tauto.
      * rewrite !elem_of_cons, IH. tauto.
Qed.

(** The order in which own properties are listed is kept by an
    assignment. *)
Lemma listed_own_set {A} k (v : A) o :
  StronglySorted (fun a b : string * A => listed_before b.1 a.1 = false) o →
  StronglySorted (fun a b : string * A => listed_before b.1 a.1 = false)
    (own_set k v o).
Proof.
  induction o as [|[k0 v0] o IH]; intros Hs.
  - repeat constructor.
  - apply StronglySorted_inv in Hs as [Hs Hall]. cbn [own_set].
    destruct (String.eqb_spec k k0) as [->|Hne].
    + by constructor.
    + destruct (listed_before k k0) eqn:Hb.
      * constructor; [by constructor|].
        assert (Hk : ∃ n, array_index k = Some n).
        { unfold listed_before in Hb.
          destruct (array_index k); [eauto|done]. }
        destruct Hk as [n Hn].
        assert (Hstep : ∀ x, listed_before x k0 = false → listed_before x k = false).
        { intros x. unfold listed_before in *. rewrite Hn in *.
          destruct (array_index x) as [nx|]; [|done].
          destruct (array_index k0) as [n0|]; [|done].
          rewrite !N.ltb_ge. apply N.ltb_lt in Hb. lia. }
        constructor.
        -- simpl. unfold listed_before in *. rewrite Hn in *.
           destruct (array_index k0) as [n0|]; [|done].
           apply N.ltb_ge. apply N.ltb_lt in Hb. lia.
        -- rewrite Forall_forall in *. intros x Hx. apply Hstep.
           by apply Hall.
      * constructor; [by apply IH|].
        rewrite Forall_forall in *. intros [x vx] Hx. simpl.
        assert (Hxk : x ∈ fst <$> own_set k v o)
          by (apply list_elem_of_fmap; by exists (x, vx)).
        apply keys_own_set in Hxk as [->|Hxk]; [done|].
        apply list_elem_of_fmap in Hxk as ([x' vx'] & -> & Hin).
        by apply (Hall (x', vx')).
Qed.

Lemma NoDup_keys_own_set {A} k (v : A) o :
  StronglySorted (fun a b : string * A => listed_before b.1 a.1 = false) o →
  NoDup (fst <$> o) → NoDup (fst <$> own_set k v o).
Proof.
  induction o as [|[k0 v0] o IH]; intros Hs Hnd; [by apply NoDup_singleton|].
  apply StronglySorted_inv in Hs as [Hs Hall].
  csimpl in Hnd. apply NoDup_cons in Hnd as [Hk0 Hnd]. cbn [own_set].
  destruct (String.eqb_spec k k0) as [->|Hne].
  - csimpl. by apply NoDup_cons.
  - destruct (listed_before k k0) eqn:Hb; csimpl.
    + apply NoDup_cons. split; [|by apply NoDup_cons].
      intros [?|Hin]%elem_of_cons; [done|].
      apply list_elem_of_fmap in Hin as ([x vx] & -> & Hin).
      rewrite Forall_forall in Hall. specialize (Hall _ Hin). simpl in *.
      congruence.
    + apply NoDup_cons. split; [|by apply IH].
      rewrite keys_own_set. intros [?|?]; [congruence|done].
Qed.

Lemma assoc_is_Some {A} k (l : list (string * A)) :
  is_Some (assoc k l) ↔ k ∈ fst <$> l.
Proof.
  induction l as [|[k0 v0] l IH]; csimpl.
  - split; [by intros [? ?] | by intros ?%elem_of_nil].
  - destruct (String.eqb_spec k k0) as [->|Hne].
    + split; [intros _; left | eauto].
    + rewrite IH, elem_of_cons. tauto.
Qed.

(** The loop of [getAllFeedStats], from any object whose prototype is not
    [null]. *)
Lemma getAllFeedStats_loop s (l : list (string * Feed)) (acc : AllFeedStats) :
  proto acc ≠ Some None →
  (∀ n, n ∈ fst <$> l → is_Some (getFeedStats s n)) →
  let r := foldl (fun stats '(feedName, _) =>
                    assign feedName (getFeedStats s feedName) stats) acc l in
  proto r ≠ Some None
  ∧ (∀ n, n ≠ "__proto__" →
       assoc n (own r)
       = if decide (n ∈ fst <$> l) then Some (getFeedStats s n)
         else assoc n (own acc))
  ∧ assoc "__proto__" (own r) = assoc "__proto__" (own acc)
  ∧ proto r = (if decide ("__proto__" ∈ fst <$> l)
               then Some (getFeedStats s "__proto__") else proto acc)
  ∧ (StronglySorted (fun a b => listed_before b.1 a.1 = false) (own acc) →
     NoDup (fst <$> own acc) →
     StronglySorted (fun a b => listed_before b.1 a.1 = false) (own r)
     ∧ NoDup (fst <$> own r))
  ∧ ((∀ n, n ∈ fst <$> l → array_index n = None) →
     NoDup ((fst <$> own acc) ++ (fst <$> l)) →
     fst <$> own r
     = (fst <$> own acc) ++ filter (fun n => n ≠ "__proto__") (fst <$> l)).
Proof.
  revert acc. induction l as [|[n0 f0] l IH]; intros acc Hp Hreg.
  { cbv zeta. cbn [foldl].
    split; [done|]. split; [done|]. split; [done|]. split; [done|].
    split; [done|]. intros _ _. csimpl. by rewrite app_nil_r. }
  cbv zeta. cbn [foldl].
  set (r := foldl _ _ l).
  assert (Hv : is_Some (getFeedStats s n0)) by (apply Hreg; left).
  set (acc' := assign n0 (getFeedStats s n0) acc) in *.
  assert (Hacc' :
    proto acc' ≠ Some None
    ∧ (∀ n, n ≠ "__proto__" →
         assoc n (own acc')
         = if String.eqb n n0 then Some (getFeedStats s n0) else assoc n (own acc))
    ∧ assoc "__proto__" (own acc') = assoc "__proto__" (own acc)
    ∧ proto acc' = (if String.eqb n0 "__proto__"
                    then Some (getFeedStats s n0) else proto acc)
    ∧ own acc' = (if String.eqb n0 "__proto__" then own acc
                  else own_set n0 (getFeedStats s n0) (own acc))).
  { subst acc'. unfold assign.
    destruct (String.eqb_spec n0 "__proto__") as [->|Hne].
    - destruct (proto acc) as [[p|]|] eqn:Hpa; try done; simpl.
      + split; [by destruct Hv as [? ->]|]. split; [|done].
        intros n Hn. by rewrite (proj2 (String.eqb_neq n "__proto__")).
      + split; [by destruct Hv as [? ->]|]. split; [|done].
        intros n Hn. by rewrite (proj2 (String.eqb_neq n "__proto__")).
    - simpl. split; [done|]. split; [|split; [|done]].
      + intros n Hn. apply assoc_own_set.
      + rewrite assoc_own_set.
        by rewrite (proj2 (String.eqb_neq "__proto__" n0)) by congruence. }
  destruct Hacc' as (Hp' & Ha' & Hpr' & Hpp' & Hown').
  destruct (IH acc' Hp') as (Hp1 & Ha1 & Hpr1 & Hpp1 & Hs1 & Hk1).
  { intros n Hn. apply Hreg. by right. }
  fold r in Hp1, Ha1, Hpr1, Hpp1, Hs1, Hk1.
  split; [exact Hp1|]. split; [|split; [congruence|split; [|split]]].
  - intros n Hn. rewrite Ha1, Ha' by done. csimpl.
    destruct (decide (n ∈ fst <$> l)) as [Hin|Hnin].
    + rewrite decide_True by (by right). done.
    + destruct (String.eqb_spec n n0) as [->|Hne].
      * rewrite decide_True by left. done.
      * rewrite decide_False; [done|]. intros [?|?]%elem_of_cons; done.
  - rewrite Hpp1, Hpp'. csimpl.
    destruct (decide ("__proto__" ∈ fst <$> l)) as [Hin|Hnin].
    + rewrite decide_True by (by right). done.
    + destruct (String.eqb_spec n0 "__proto__") as [->|Hne].
      * rewrite decide_True by left. done.
      * rewrite decide_False; [done|]. intros [?|?]%elem_of_cons; done.
  - intros Hs Hnd. apply Hs1; rewrite Hown';
      destruct (String.eqb n0 "__proto__"); try done.
    + by apply listed_own_set.
    + by apply NoDup_keys_own_set.
  - intros Hidx Hnd. csimpl in Hnd. rewrite Hk1.
    + rewrite Hown'. csimpl.
      destruct (String.eqb_spec n0 "__proto__") as [->|Hne].
      * by rewrite filter_cons_False by (intros ?; done).
      * rewrite filter_cons_True by done.
        rewrite own_set_not_index.
        -- rewrite fmap_app. csimpl. by rewrite <- app_assoc.
        -- apply Hidx. left.
        -- apply NoDup_app in Hnd as (_ & Hdisj & _). intros Hin.
           apply (Hdisj n0 Hin). left.
    + intros n Hn. apply Hidx. by right.
    + rewrite Hown'. destruct (String.eqb_spec n0 "__proto__") as [->|Hne].
      * apply NoDup_app in Hnd as (H1 & H2 & H3).
        apply NoDup_cons in H3 as [_ H3].
        apply NoDup_app. split; [done|]. split; [|done].
        intros x Hx Hx'. apply (H2 x Hx). by right.
      * rewrite own_set_not_index.
        -- rewrite fmap_app. csimpl. rewrite <- app_assoc. done.
        -- apply Hidx. left.
        -- apply NoDup_app in Hnd as (_ & Hdisj & _). intros Hin.
           apply (Hdisj n0 Hin). left.
Qed.

(** X22. [getAllFeedStats] fills a plain object by assignment.  In every
    state the service reaches, the object has one own property for every
    registered feed other than a feed named [__proto__], holding what
    [getFeedStats] returns for that feed (never [null]), and no other own
    property.  A feed named [__proto__] is not listed: the assignment makes
    its statistics the prototype of the object.  The own properties are
    listed with the feed names that are array indices first, in ascending
    order, and the other names after them; when no feed name is an array
    index (as with the four configured feeds) they are listed in the order
    in which the feeds were first registered. *)
Theorem getAllFeedStats_lists_own_properties (E : Env) (fuel : nat)
    (evs : list event) :
  let s := state_of (run E fuel evs new_service) in
  (∀ feedName, feedName ≠ "__proto__" →
     assoc feedName (own (getAllFeedStats s)) = Some <$> getFeedStats s feedName)
  ∧ assoc "__proto__" (own (getAllFeedStats s)) = None
  ∧ proto (getAllFeedStats s) = Some <$> getFeedStats s "__proto__"
  ∧ NoDup (fst <$> own (getAllFeedStats s))
  ∧ StronglySorted (fun a b => listed_before b.1 a.1 = false)
      (own (getAllFeedStats s))
  ∧ ((∀ feedName, feedName ∈ fst <$> feeds s → array_index feedName = None) →
     fst <$> own (getAllFeedStats s)
     = filter (fun n => n ≠ "__proto__") (fst <$> feeds s)).
Proof.
  intros s.
  pose proof (keeps_feeds_wf_run E fuel evs new_service feeds_wf_new_service)
    as [Hnd _]. fold s in Hnd.
  assert (Hreg : ∀ n, n ∈ fst <$> feeds s ↔ is_Some (getFeedStats s n)).
  { intros n. rewrite <- assoc_is_Some. unfold getFeedStats.
    destruct (assoc n (feeds s)); simpl; split; intros [? ?]; eauto; done. }
  destruct (getAllFeedStats_loop s (feeds s) {| own := []; proto := None |})
    as (_ & Ha & Hpr & Hpp & Hs & Hk); [done|by intros n ?%Hreg|].
  fold (getAllFeedStats s) in Ha, Hpr, Hpp, Hs, Hk. simpl in *.
  split; [|split; [done|split; [|split; [|split]]]].
  - intros n Hn. rewrite Ha by done.
    destruct (decide (n ∈ fst <$> feeds s)) as [Hin|Hin].
    + apply Hreg in Hin as [st Hst]. by rewrite Hst.
    + destruct (getFeedStats s n) eqn:Hst; [|done].
      exfalso. apply Hin, Hreg. eauto.
  - rewrite Hpp. destruct (decide ("__proto__" ∈ fst <$> feeds s)) as [Hin|Hin].
    + apply Hreg in Hin as [st Hst]. by rewrite Hst.
    + destruct (getFeedStats s "__proto__") eqn:Hst; [|done].
      exfalso. apply Hin, Hreg. eauto.
  - apply Hs; constructor.
  - apply Hs; constructor.
  - intros Hidx. by apply Hk.
Qed.

(** ** Names and values that the service does not expect *)

Lemma handleMessage_handler_throws E fuel now feedName data message h e s :
  JSON_parse E data = Some message →
  handlers E feedName = Some h →
  outcome (h message s) = Throw e →
  handleMessage E fuel now feedName data s =
    (Ret tt, state_of (note_message feedName message s),
     [Console Error ("Error handling message from " +:+ feedName)]).
Proof.
  intros Hparse Hh Hthrow.
  destruct (stateless_handlers E feedName h message Hh) as [o Ho].
  rewrite Ho in Hthrow. unfold outcome in Hthrow. simpl in Hthrow. subst o.
  unfold handleMessage, try_catch. rewrite Hparse, Hh.
  rewrite run_ret. unfold note_message at 1. rewrite run_modify.
  rewrite run_bind, Ho. done.
Qed.

(** X23. [handleMessage] looks the feed's handler up in an object literal,
    so for a feed named after a property of [Object.prototype] it finds
    that property.  For every such name other than [constructor],
    [toString] and [isPrototypeOf] the call throws: every message of the
    feed, though it parses and is recorded as the feed's last message, is
    logged as an error, is not buffered and reaches no subscriber.  The
    same holds for [isPrototypeOf] when the message is an object or an
    array.  For [constructor] and [toString] the call returns and the
    pipeline goes on. *)
Theorem feed_named_after_prototype_property (E : Env) (fuel : nat) (now : Z)
    (feedName data : string) (message : json) (s : Service) :
  JSON_parse E data = Some message →
  inherited feedName = true →
  (feedName ∉ ["constructor"; "toString"; "isPrototypeOf"]
   ∨ (feedName = "isPrototypeOf"
      ∧ ((∃ items, message = JArr items) ∨ (∃ fields, message = JObj fields))) →
   handleMessage E fuel now feedName data s =
     (Ret tt, state_of (note_message feedName message s),
      [Console Error ("Error handling message from " +:+ feedName)])
   ∧ buffer (state_of (handleMessage E fuel now feedName data s)) = buffer s
   ∧ invoked (trace_of (handleMessage E fuel now feedName data s)) = [])
  ∧ (feedName ∈ ["constructor"; "toString"] →
     ∀ h, handlers E feedName = Some h → outcome (h message s) = Ret tt).
Proof.
  intros Hparse Hin.
  assert (Hh : handlers E feedName = Some (call_inherited feedName)).
  { unfold handlers. rewrite Hin.
    unfold inherited, Object_prototype in Hin.
    apply bool_decide_eq_true in Hin.
    repeat (apply elem_of_cons in Hin as [->|Hin]; [reflexivity|]).
    by apply elem_of_nil in Hin. }
  split.
  - intros Hcase.
    assert (Hthrow : outcome (call_inherited feedName message s) = Throw TypeError).
    { unfold call_inherited.
      destruct Hcase as [Hnot|[-> [[items ->]|[fields ->]]]].
      - destruct (String.eqb_spec feedName "constructor") as [->|_];
          [exfalso; apply Hnot; set_solver|].
        destruct (String.eqb_spec feedName "toString") as [->|_];
          [exfalso; apply Hnot; set_solver|].
        destruct (String.eqb_spec feedName "isPrototypeOf") as [->|_];
          [exfalso; apply Hnot; set_solver|].
        done.
      - done.
      - done. }
    rewrite (handleMessage_handler_throws E fuel now feedName data message
               _ _ s Hparse Hh Hthrow).
    split; [done|]. unfold state_of, trace_of, note_message, modify. simpl.
    by destruct (assoc feedName (feeds s)).
  - intros Hcase h. rewrite Hh. intros [= <-].
    apply elem_of_cons in Hcase as [->|Hcase]; [done|].
    apply list_elem_of_singleton in Hcase as ->. done.
Qed.

(** The payload [{}] on a feed named [hasOwnProperty]. *)
Lemma feed_named_after_prototype_property_witness :
  JSON_parse Demo.env "{}" = Some (JObj [])
  ∧ inherited "hasOwnProperty" = true
  ∧ invoked (trace_of (handleMessage Demo.env 1 5 "hasOwnProperty" "{}"
                         new_service)) = [].
Proof.
  assert (H1 : JSON_parse Demo.env "{}" = Some (JObj [])) by reflexivity.
  assert (H2 : inherited "hasOwnProperty" = true) by reflexivity.
  split; [exact H1|]. split; [exact H2|].
  refine (proj2 (proj2 (proj1
    (feed_named_after_prototype_property Demo.env 1 5 "hasOwnProperty" "{}"
       (JObj []) new_service H1 H2) _))).
  left. intros Hin.
  repeat (apply elem_of_cons in Hin as [Hin|Hin]; [discriminate|]).
  by apply elem_of_nil in Hin.
Defined.

Lemma notifySubscribers_throws E fuel feedName message ch e s :
  get_prop message "channel" = inr ch →
  channel_of E ch = inl e →
  notifySubscribers E fuel feedName message s = (Throw e, s, []).
Proof.
  intros Hch Hc. unfold notifySubscribers. rewrite Hch. simpl.
  rewrite run_ret, Hc. simpl. by rewrite run_throw.
Qed.

(** X24. The key under which a message is notified is computed by a
    template literal, after the message has been buffered.  When the
    [channel] of the message is an object with an own property [toString]
    (or an array that holds one), the conversion throws: the message is
    recorded and buffered, but no subscriber is notified and the error is
    logged by [handleMessage].  A number, a string, a boolean and an object
    without such a property always have a key. *)
Theorem unprintable_channel_is_buffered_but_not_delivered (E : Env) (fuel : nat)
    (now : Z) (feedName data : string) (message : json) (ch : option json)
    (e : exn) (s : Service) :
  JSON_parse E data = Some message →
  (∀ h, handlers E feedName = Some h → outcome (h message s) = Ret tt) →
  get_prop message "channel" = inr ch →
  channel_of E ch = inl e →
  (outcome (handleMessage E fuel now feedName data s) = Ret tt
   ∧ getBuffer (state_of (handleMessage E fuel now feedName data s)) feedName
       (Some 1%Z) = [make_entry now message]
   ∧ trace_of (handleMessage E fuel now feedName data s)
     = [Console Error ("Error handling message from " +:+ feedName)]
   ∧ subscribers (state_of (handleMessage E fuel now feedName data s))
     = subscribers s)
  ∧ (∀ fields x, assoc "toString" fields = Some x →
       channel_of E (Some (JObj fields)) = inl TypeError)
  ∧ (∀ fields, assoc "toString" fields = None →
       channel_of E (Some (JObj fields)) = inr "[object Object]")
  ∧ (∀ v, (∃ n, v = JNum n) ∨ (∃ str, v = JStr str) ∨ (∃ b, v = JBool b) →
       ∃ channel, channel_of E (Some v) = inr channel).
Proof.
  intros Hparse Hh Hch Hc. split; [|split; [|split]].
  - set (s1 := state_of (note_message feedName message s)).
    set (s2 := state_of (addToBuffer now feedName message s1)).
    assert (Hrun : handleMessage E fuel now feedName data s =
      (Ret tt, s2, [Console Error ("Error handling message from " +:+ feedName)])).
    { apply (handleMessage_notify_throws _ _ _ _ _ _ e); [done..|].
      intros s'. by apply (notifySubscribers_throws _ _ _ _ ch). }
    rewrite Hrun. unfold outcome, state_of, trace_of. cbn [fst snd].
    split; [done|]. split; [|split; [done|]].
    + destruct (getBuffer_limit s2 feedName 1) as [Hg _]. rewrite Hg.
      change (0 <? 1)%Z with true. change (Z.to_nat 1) with 1. cbv iota.
      subst s2. rewrite addToBuffer_run. unfold state_of. simpl.
      rewrite lookup_insert_eq. cbn [default from_option id].
      rewrite keep_last_keep_last by (unfold maxBufferSize; lia).
      apply keep_last_one_snoc.
    + subst s2 s1. rewrite addToBuffer_run.
      unfold note_message, modify, state_of. simpl.
      by destruct (assoc feedName (feeds s)).
  - intros fields x Hx. simpl. by rewrite Hx.
  - intros fields Hx. simpl. by rewrite Hx.
  - intros v [[n ->]|[[str ->]|[b ->]]]; simpl.
    + destruct (negb _); eauto.
    + destruct (negb _); eauto.
    + destruct b; eauto.
Qed.

(** The payload [{"channel":{"toString":1}}] on the market feed, with
    callback 1 subscribed to the default channel. *)
Lemma unprintable_channel_is_buffered_but_not_delivered_witness :
  JSON_parse Demo.odd Demo.odd_channel_payload = Some Demo.odd_channel
  ∧ (∀ h, handlers Demo.odd "market" = Some h →
          outcome (h Demo.odd_channel Demo.default_and_ticker) = Ret tt)
  ∧ get_prop Demo.odd_channel "channel"
    = inr (Some (JObj [("toString", JNum 1)]))
  ∧ channel_of Demo.odd (Some (JObj [("toString", JNum 1)])) = inl TypeError
  ∧ getBuffer (state_of (handleMessage Demo.odd 1 5 "market"
                           Demo.odd_channel_payload Demo.default_and_ticker))
      "market" (Some 1%Z) = [make_entry 5 Demo.odd_channel]
  ∧ trace_of (handleMessage Demo.odd 1 5 "market" Demo.odd_channel_payload
                Demo.default_and_ticker)
    = [Console Error ("Error handling message from " +:+ "market")].
Proof.
  assert (H1 : JSON_parse Demo.odd Demo.odd_channel_payload
               = Some Demo.odd_channel) by reflexivity.
  assert (H2 : ∀ h, handlers Demo.odd "market" = Some h →
                    outcome (h Demo.odd_channel Demo.default_and_ticker) = Ret tt)
    by (intros h [= <-]; reflexivity).
  assert (H3 : get_prop Demo.odd_channel "channel"
               = inr (Some (JObj [("toString", JNum 1)]))) by reflexivity.
  assert (H4 : channel_of Demo.odd (Some (JObj [("toString", JNum 1)]))
               = inl TypeError) by reflexivity.
  pose proof (unprintable_channel_is_buffered_but_not_delivered Demo.odd 1 5
                "market" Demo.odd_channel_payload Demo.odd_channel _ _
                Demo.default_and_ticker H1 H2 H3 H4)
    as ((_ & Hb & Ht & _) & _).
  split; [exact H1|]. split; [exact H2|]. split; [exact H3|].
  split; [exact H4|]. split; [exact Hb | exact Ht].
Defined.

Lemma for_each_app {A} (l1 l2 : list A) (body : A → M unit) s :
  for_each (l1 ++ l2) body s = (for_each l1 body;; for_each l2 body) s.
Proof.
  revert s. induction l1 as [|x l1 IH]; intros s.
  - simpl. rewrite run_ret. done.
  - cbn [app for_each]. rewrite !run_bind.
    destruct (body x s) as [[[[]|e|] s1] t1]; [|done..].
    rewrite IH, run_bind.
    destruct (for_each l1 body s1) as [[[[]|e|] s2] t2]; [|done..].
    destruct (for_each l2 body s2) as [[o3 s3] t3].
    by rewrite app_assoc.
Qed.

(** X25. The staleness check subtracts the [timestamp] of the feed's last
    message from the clock.  When that [timestamp] is an object with an own
    property [toString], the subtraction throws: the check ends at that
    feed, having treated the feeds before it, and the feeds after it in
    [this.feeds] are not checked -- no warning, no reconnect. *)
Theorem unreadable_timestamp_aborts_the_health_check (E : Env) (now : Z)
    (s : Service) (before after : list (string * Feed)) (feedName : string)
    (feed : Feed) (fields : list (string * json)) :
  feeds s = before ++ (feedName, feed) :: after →
  (∀ n f, (n, f) ∈ before → ∃ stale, is_stale E now f = inr stale) →
  get_prop_opt (Some (lastMessage feed)) "timestamp" = Some (JObj fields) →
  is_Some (assoc "toString" fields) →
  is_stale E now feed = inl TypeError
  ∧ outcome (checkConnectionHealth E now s) = Throw TypeError
  ∧ state_of (checkConnectionHealth E now s)
    = state_of (for_each before (fun '(n, f) => check_feed E now n f) s)
  ∧ trace_of (checkConnectionHealth E now s)
    = trace_of (for_each before (fun '(n, f) => check_feed E now n f) s).
Proof.
  intros Hfeeds Hread Hts [x Hx].
  assert (Hstale : is_stale E now feed = inl TypeError).
  { unfold is_stale, timeSinceLastMessage. rewrite Hts. simpl. by rewrite Hx. }
  split; [exact Hstale|].
  unfold checkConnectionHealth. rewrite run_gets, Hfeeds, for_each_app.
  rewrite run_bind.
  assert (Hbefore : outcome (for_each before
                               (fun '(n, f) => check_feed E now n f) s) = Ret tt).
  { clear Hfeeds. revert s. induction before as [|[n f] before IH]; intros s;
      [done|].
    cbn [for_each]. rewrite run_bind.
    destruct (Hread n f) as [stale Hs]; [left|].
    pose proof (check_feed_returns E now n f s stale Hs) as Hret.
    destruct (check_feed E now n f s) as [[o s1] t1].
    unfold outcome in Hret. simpl in Hret. subst o.
    specialize (IH (fun n' f' Hin => Hread n' f' ltac:(by right)) s1).
    destruct (for_each before _ s1) as [[o2 s2] t2].
    unfold outcome in *. simpl in *. by subst o2. }
  destruct (for_each before _ s) as [[o s1] t1].
  unfold outcome in Hbefore. simpl in Hbefore. subst o.
  cbn [for_each]. rewrite run_bind, check_feed_run, Hstale.
  unfold outcome, state_of, trace_of. simpl. by rewrite app_nil_r.
Qed.

(** The news feed has received the payload [{"timestamp":{"toString":1}}];
    the market feed, registered after it, is connecting and has never
    received a message.  The check at 100 s throws at the news feed and
    does nothing for the market feed. *)
Lemma unreadable_timestamp_aborts_the_health_check_witness :
  feeds Demo.odd_news
  = [] ++ ("news",
           {| websocket := 0; config := Demo.news; status := "connected";
              lastMessage := Demo.odd_timestamp; messageCount := 1 |})
       :: [("market", {| websocket := 1; config := Demo.market;
                         status := "connecting"; lastMessage := JNull;
                         messageCount := 0 |})]
  ∧ (∀ n (f : Feed), (n, f) ∈ ([] : list (string * Feed)) →
       ∃ stale, is_stale Demo.odd 100000 f = inr stale)
  ∧ get_prop_opt (Some Demo.odd_timestamp) "timestamp"
    = Some (JObj [("toString", JNum 1)])
  ∧ is_Some (assoc "toString" [("toString", JNum 1)])
  ∧ outcome (checkConnectionHealth Demo.odd 100000 Demo.odd_news)
    = Throw TypeError
  ∧ trace_of (checkConnectionHealth Demo.odd 100000 Demo.odd_news)
    = trace_of (for_each [] (fun '(n, f) => check_feed Demo.odd 100000 n f)
                  Demo.odd_news).
Proof.
  assert (H1 : feeds Demo.odd_news
    = [] ++ ("news",
             {| websocket := 0; config := Demo.news; status := "connected";
                lastMessage := Demo.odd_timestamp; messageCount := 1 |})
         :: [("market", {| websocket := 1; config := Demo.market;
                           status := "connecting"; lastMessage := JNull;
                           messageCount := 0 |})])
    by reflexivity.
  assert (H2 : ∀ n (f : Feed), (n, f) ∈ ([] : list (string * Feed)) →
                 ∃ stale, is_stale Demo.odd 100000 f = inr stale)
    by (intros n f Hin; by apply elem_of_nil in Hin).
  assert (H3 : get_prop_opt (Some Demo.odd_timestamp) "timestamp"
               = Some (JObj [("toString", JNum 1)])) by reflexivity.
  assert (H4 : is_Some (assoc "toString" [("toString", JNum 1)])) by (by eexists).
  pose proof (unreadable_timestamp_aborts_the_health_check Demo.odd 100000
                Demo.odd_news [] _ "news" _ _ H1 H2 H3 H4)
    as (_ & Ho & _ & Ht).
  split; [exact H1|]. split; [exact H2|]. split; [exact H3|].
  split; [exact H4|]. split; [exact Ho | exact Ht].
Defined.
